(** * crypto-vote: transactions, the UTXO repository and the signed envelopes

    A shallow embedding of the Go sources of the voting blockchain
    (packages [transaction], [repository], [websocket] and the alfa
    [handlers]) together with the properties of its specification.

    Conventions.
    - A Go [[]byte] is a [list byte]; a Go [string] is a [string].
    - A Go [int] is a [Z] kept in the signed 64-bit range: every
      addition and subtraction of the source goes through [wrap].
    - A Go [(T, error)] result is a [result T]; sentinel errors are
      constructors of [error] and [errors.Wrap] is the constructor [Wrap].
    - The bolt store is a finite map from bucket names to buckets, a
      bucket being a finite map from keys to stored documents. *)

From Stdlib Require Import ZArith NArith List String Ascii Lia Bool DecimalString DecimalZ.
From Stdlib.Strings Require Import Byte.
From stdpp Require Import base option gmap list strings.
Import ListNotations.
Open Scope Z_scope.

Abbreviation bytes := (list byte).

#[global] Instance byte_eq_dec : EqDecision byte := Byte.byte_eq_dec.

#[global] Program Instance byte_countable : Countable byte :=
  inj_countable' Byte.to_N (fun n => default x00 (Byte.of_N n)) _.
Next Obligation. intros b. cbv beta. by rewrite Byte.of_to_N. Qed.

(** [bytes.Compare(a, b) != 0] *)
Definition bytes_differ (a b : bytes) : bool := bool_decide (a ≠ b).

(** [[]byte("...")] for an ASCII literal. *)
Definition bytes_of_string (s : string) : bytes := list_byte_of_string s.

(** ** Go's [int] *)
Module GoInt.

Definition wrap (z : Z) : Z := (z + 2 ^ 63) mod 2 ^ 64 - 2 ^ 63.

Definition in_range (z : Z) : Prop := - 2 ^ 63 <= z < 2 ^ 63.

Definition add (a b : Z) : Z := wrap (a + b).
Definition sub (a b : Z) : Z := wrap (a - b).
(** Go's [/] truncates toward zero. *)
Definition quot (a b : Z) : Z := wrap (Z.quot a b).

End GoInt.

(** ** Errors *)

(** The sentinel errors of the packages, the two errors bolt's [Put]
    reports for a bad key, and the wrappers of [github.com/pkg/errors].
    A wrapper keeps the format string of its message. *)
Inductive error : Type :=
| ErrInsufficientVotes
| ErrCantForge
| ErrInvalidBlock
| ErrKeyRequired
| ErrKeyTooLarge
| ErrExternal (msg : string)
| Errorf (msg : string)
| Wrap (cause : error) (msg : string).

#[global] Instance error_eq_dec : EqDecision error.
Proof. solve_decision. Defined.

(** [errors.Is(err, target)] for a sentinel [target]: follows the chain
    of causes. *)
Fixpoint errors_Is (err target : error) : bool :=
  if decide (err = target) then true
  else match err with
       | Wrap cause _ => errors_Is cause target
       | _ => false
       end.

Inductive result (A : Type) : Type :=
| Ok (a : A)
| Err (e : error).
Arguments Ok {A} a.
Arguments Err {A} e.

Definition rbind {A B} (r : result A) (k : A -> result B) : result B :=
  match r with
  | Ok a => k a
  | Err e => Err e
  end.

(** [if err != nil { return errors.Wrap(err, msg) }] *)
Definition wrapErr {A} (r : result A) (msg : string) : result A :=
  match r with
  | Ok a => Ok a
  | Err e => Err (Wrap e msg)
  end.

Declare Scope result_scope.
Delimit Scope result_scope with result.
Notation "x <- r ;; k" := (rbind r (fun x => k))
  (at level 100, r at next level, right associativity) : result_scope.
Open Scope result_scope.

(** ** [encoding/base64], the standard padded encoding *)
Module Base64.

Definition encodeStd : string :=
  "ABCDEFGHIJKLMNOPQRSTUVWXYZabcdefghijklmnopqrstuvwxyz0123456789+/".

Definition padChar : ascii := "="%char.

(** [enc.encode[i]] *)
Definition encodeAt (i : N) : ascii :=
  default padChar (String.get (N.to_nat i) encodeStd).

Fixpoint indexOf (c : ascii) (s : string) (i : N) : option N :=
  match s with
  | EmptyString => None
  | String d s' => if Ascii.eqb c d then Some i else indexOf c s' (N.succ i)
  end.

(** [enc.decodeMap[c]], [None] standing for the entry [0xff]. *)
Definition decodeMap (c : ascii) : option N := indexOf c encodeStd 0.

(** [byte(v)]: the conversion keeps the low eight bits. *)
Definition byte_of_N (v : N) : byte :=
  default x00 (Byte.of_N (N.land v 255)).

Definition sextet (val : N) (shift : N) : ascii :=
  encodeAt (N.land (N.shiftr val shift) 63).

Definition string_of_chars (l : list ascii) : string :=
  fold_right String EmptyString l.

(** [Encoding.EncodeToString]: whole 3-byte groups, then the remainder
    with padding. *)
Fixpoint EncodeToString (src : bytes) : string :=
  match src with
  | [] => EmptyString
  | [b0] =>
      let val := N.shiftl (Byte.to_N b0) 16 in
      string_of_chars [sextet val 18; sextet val 12; padChar; padChar]
  | [b0; b1] =>
      let val := N.lor (N.shiftl (Byte.to_N b0) 16)
                       (N.shiftl (Byte.to_N b1) 8) in
      string_of_chars [sextet val 18; sextet val 12; sextet val 6; padChar]
  | b0 :: b1 :: b2 :: rest =>
      let val := N.lor (N.lor (N.shiftl (Byte.to_N b0) 16)
                              (N.shiftl (Byte.to_N b1) 8))
                       (Byte.to_N b2) in
      String (sextet val 18) (String (sextet val 12)
        (String (sextet val 6) (String (sextet val 0)
          (EncodeToString rest))))
  end.

Definition isNewline (c : ascii) : bool :=
  Ascii.eqb c "010"%char || Ascii.eqb c "013"%char.

Fixpoint skipNewlines (s : string) : string :=
  match s with
  | String c s' => if isNewline c then skipNewlines s' else s
  | EmptyString => s
  end.

(** The value assembled from the sextets read so far, missing ones
    being zero. *)
Definition quantumVal (dbuf : list N) : N :=
  N.lor (N.lor (N.lor (N.shiftl (nth 0 dbuf 0%N) 18)
                      (N.shiftl (nth 1 dbuf 0%N) 12))
               (N.shiftl (nth 2 dbuf 0%N) 6))
        (nth 3 dbuf 0%N).

(** The [dlen - 1] bytes a quantum of [dlen] sextets yields. *)
Definition quantumBytes (dbuf : list N) : bytes :=
  let val := quantumVal dbuf in
  take (length dbuf - 1)
    [byte_of_N (N.shiftr val 16); byte_of_N (N.shiftr val 8); byte_of_N val].

(** [Encoding.Decode], one character at a time: [dbuf] holds the
    sextets of the current quantum, [dst] the bytes written so far.  The
    boolean is [true] when a [CorruptInputError] is reported; the bytes
    written before the error are returned with it. *)
Fixpoint decodeFrom (src : string) (dbuf : list N) (dst : bytes)
  : bytes * bool :=
  match src with
  | EmptyString =>
      match dbuf with
      | [] => (dst, false)
      | _ => (dst, true)
      end
  | String c rest =>
      match decodeMap c with
      | Some v =>
          let dbuf' := dbuf ++ [v] in
          if (length dbuf' =? 4)%nat
          then decodeFrom rest [] (dst ++ quantumBytes dbuf')
          else decodeFrom rest dbuf' dst
      | None =>
          if isNewline c then decodeFrom rest dbuf dst
          else if negb (Ascii.eqb c padChar) then (dst, true)
          else
            match dbuf with
            | [] | [_] => (dst, true)
            | [_; _] =>
                match skipNewlines rest with
                | EmptyString => (dst, true)
                | String c' rest' =>
                    if Ascii.eqb c' padChar
                    then (dst ++ quantumBytes dbuf,
                          negb (String.eqb (skipNewlines rest') EmptyString))
                    else (dst, true)
                end
            | _ =>
                (dst ++ quantumBytes dbuf,
                 negb (String.eqb (skipNewlines rest) EmptyString))
            end
      end
  end.

(** [Encoding.DecodeString] *)
Definition DecodeString (s : string) : bytes * bool := decodeFrom s [] [].

End Base64.

(** ** Package [wallet] (external collaborator) *)

(** Modelled from the spec: package [wallet] is not part of the sources.
    A wallet is its public key together with the value of its
    [PublicKeyHash()] method. *)
Module Wallet.
Record t : Type := mk { PublicKey : bytes; PublicKeyHash : bytes }.
End Wallet.

(** ** Package [transaction] *)

Definition VoteValue : Z := 10.

Module Output.
Record t : Type := mk { Value : Z; PublicKeyHash : bytes }.
End Output.
Abbreviation Outputs := (list Output.t).

(** The declaration of [Input] is not part of the sources; the fields are
    those the sources read and write. *)
Module Input.
Record t : Type := mk {
  TransactionID : bytes;
  Vout : Z;
  PublicKeyHash : bytes;
  Signature : bytes;
  Verifier : bytes }.
End Input.
Abbreviation Inputs := (list Input.t).

Module UTXO.
Record t : Type := mk {
  TransactionID : bytes;
  PublicKeyHash : bytes;
  Value : Z;
  Vout : Z }.
End UTXO.
Abbreviation UTXOs := (list UTXO.t).

Module Transaction.
Record t : Type := mk {
  ID : bytes;
  Inputs : list Input.t;
  Outputs : list Output.t;
  Timestamp : Z }.
End Transaction.

(** The payload a spender signs for one input. *)
Module signable.
Record t : Type := mk { Recipient : bytes; Sender : bytes; Value : Z }.
End signable.

Module hashable.
Record t : Type := mk {
  Inputs : list Input.t;
  Outputs : list Output.t;
  Timestamp : Z }.
End hashable.

#[global] Instance Output_eq_dec : EqDecision Output.t.
Proof. solve_decision. Defined.
#[global] Instance Input_eq_dec : EqDecision Input.t.
Proof. solve_decision. Defined.
#[global] Instance UTXO_eq_dec : EqDecision UTXO.t.
Proof. solve_decision. Defined.
#[global] Instance Transaction_eq_dec : EqDecision Transaction.t.
Proof. solve_decision. Defined.

(** [Outputs.Find]: the first output meeting the criteria, or the zero
    [Output] and [false]. *)
Fixpoint Outputs_Find (outs : Outputs) (criteria : Output.t -> bool)
  : Output.t * bool :=
  match outs with
  | [] => (Output.mk 0 [], false)
  | out :: outs' =>
      if criteria out then (out, true) else Outputs_Find outs' criteria
  end.

(** [Outputs.Sum] *)
Definition Outputs_Sum (outs : Outputs) : Z :=
  fold_left (fun sum out => GoInt.add sum (Output.Value out)) outs 0.

(** [UTXOs.Filter] *)
Fixpoint UTXOs_Filter (utxos : UTXOs) (criteria : UTXO.t -> bool) : UTXOs :=
  match utxos with
  | [] => []
  | utxo :: utxos' =>
      if criteria utxo then utxo :: UTXOs_Filter utxos' criteria
      else UTXOs_Filter utxos' criteria
  end.

(** [UTXOs.Sum] *)
Definition UTXOs_Sum (utxos : UTXOs) : Z :=
  fold_left (fun sum u => GoInt.add sum (UTXO.Value u)) utxos 0.

(** The library functions [hash] relies on: [json.Marshal] at type
    [hashable] and [sha256.Sum256]. *)
Class Digest : Type := {
  json_Marshal : hashable.t -> result bytes;
  sha256_Sum256 : bytes -> bytes }.

(** [wallet.Signer], of which the sources call [SignRaw]. *)
Class Signer : Type := {
  SignRaw : signable.t -> result bytes }.

(** [wallet.VerifierFn]: payload, base64 signature, base64 public key. *)
Definition VerifierFn : Type :=
  signable.t -> string -> string -> bool * option error.

(** [GetUTXOsByPublicKeyFn] *)
Definition GetUTXOsByPublicKeyFn : Type := bytes -> result UTXOs.

(** [GetTransactionUTXO]: a nil pointer is [None]. *)
Definition GetTransactionUTXO : Type :=
  bytes -> Z -> result (option UTXO.t).

Section TransactionPackage.
Context {digest : Digest}.

Definition hash (data : hashable.t) : result bytes :=
  match json_Marshal data with
  | Err err => Err (Wrap err "Failed to serialize data %#v")
  | Ok raw => Ok (sha256_Sum256 raw)
  end.

(** [newID] fills [Inputs] and [Outputs]; [Timestamp] keeps its zero
    value. *)
Definition newID (inputs : Inputs) (outputs : Outputs) : result bytes :=
  hash (hashable.mk inputs outputs 0).

(** [NewTransaction]; [now] is the value of [time.Now().Unix()]. *)
Definition NewTransaction (now : Z) (inputs : Inputs) (outputs : Outputs)
  : result Transaction.t :=
  match newID inputs outputs with
  | Err err => Err (Wrap err "Failed to create id")
  | Ok id => Ok (Transaction.mk id inputs outputs now)
  end.

(** The loop of [NewStakeTransaction] from the state [(sum, inputs)]. *)
Fixpoint stakeInputs {signer : Signer} (stakeCreator : Wallet.t)
  (stakeholder : bytes) (target : Z) (utxos : UTXOs) (sum : Z)
  (inputs : Inputs) : result (Z * Inputs) :=
  match utxos with
  | [] => Ok (sum, inputs)
  | utxo :: utxos' =>
      let sum := GoInt.add sum (UTXO.Value utxo) in
      let signable := signable.mk stakeholder
                        (Wallet.PublicKeyHash stakeCreator)
                        (UTXO.Value utxo) in
      match SignRaw signable with
      | Err err => Err (Wrap err "Failed to sign %#v")
      | Ok signature =>
          let inputs := inputs ++ [Input.mk (UTXO.TransactionID utxo)
                                     (UTXO.Vout utxo)
                                     (Wallet.PublicKeyHash stakeCreator)
                                     signature
                                     (Wallet.PublicKey stakeCreator)] in
          if sum >=? target then Ok (sum, inputs)
          else stakeInputs stakeCreator stakeholder target utxos' sum inputs
      end
  end.

Definition NewStakeTransaction {signer : Signer}
  (getUTXOs : GetUTXOsByPublicKeyFn) (stakeCreator : Wallet.t)
  (stakeholder : bytes) (now : Z) : result Transaction.t :=
  match getUTXOs (Wallet.PublicKeyHash stakeCreator) with
  | Err err => Err (Wrap err "Failed to retrieve utxos for stake tx for %x")
  | Ok utxos =>
      let target := GoInt.quot (UTXOs_Sum utxos) 2 in
      if target <? GoInt.quot VoteValue 2 then Err ErrCantForge
      else
        match stakeInputs stakeCreator stakeholder target utxos 0 [] with
        | Err err => Err err
        | Ok (sum, inputs) =>
            let outputs := [Output.mk target stakeholder] in
            let outputs :=
              if sum >? target
              then outputs ++ [Output.mk (GoInt.sub sum target)
                                 (Wallet.PublicKeyHash stakeCreator)]
              else outputs in
            NewTransaction now inputs outputs
        end
  end.

End TransactionPackage.

(** [Transaction.IsBase] *)
Definition IsBase (t : Transaction.t) : bool :=
  match Transaction.Inputs t, Transaction.Outputs t with
  | [input], [_] => Input.Vout input =? -1
  | _, _ => false
  end.

(** [Transaction.UTXOs]: output number [i] becomes the UTXO of [Vout] [i]. *)
Fixpoint UTXOs_from (id : bytes) (i : Z) (outs : Outputs) : UTXOs :=
  match outs with
  | [] => []
  | out :: outs' =>
      UTXO.mk id (Output.PublicKeyHash out) (Output.Value out) i
      :: UTXOs_from id (i + 1) outs'
  end.

Definition Transaction_UTXOs (t : Transaction.t) : UTXOs :=
  UTXOs_from (Transaction.ID t) 0 (Transaction.Outputs t).

(** The body of the loop of [VerifyTransactions] for one input: [true]
    when the loop goes on, [false] when the verifier returns [false]. *)
Definition verifyInput (getTransactionUTXO : GetTransactionUTXO)
  (verifier : VerifierFn) (transaction : Transaction.t) (input : Input.t)
  : bool :=
  let (receiver, found) :=
    Outputs_Find (Transaction.Outputs transaction)
      (fun o => bytes_differ (Output.PublicKeyHash o)
                  (Input.PublicKeyHash input)) in
  if negb found then false
  else
    match getTransactionUTXO (Input.TransactionID input) (Input.Vout input) with
    | Err _ | Ok None => false
    | Ok (Some utxo) =>
        let signable := signable.mk (Output.PublicKeyHash receiver)
                          (Input.PublicKeyHash input) (UTXO.Value utxo) in
        let signature := Base64.EncodeToString (Input.Signature input) in
        let pKey := Base64.EncodeToString (Input.Verifier input) in
        match verifier signable signature pKey with
        | (ok, Some _) => false
        | (ok, None) => ok
        end
    end.

Fixpoint verifyInputs (getTransactionUTXO : GetTransactionUTXO)
  (verifier : VerifierFn) (transaction : Transaction.t) (inputs : Inputs)
  : bool :=
  match inputs with
  | [] => true
  | input :: inputs' =>
      if verifyInput getTransactionUTXO verifier transaction input
      then verifyInputs getTransactionUTXO verifier transaction inputs'
      else false
  end.

Definition VerifyTransactions (getTransactionUTXO : GetTransactionUTXO)
  (verifier : VerifierFn) (transaction : Transaction.t) : bool :=
  verifyInputs getTransactionUTXO verifier transaction
    (Transaction.Inputs transaction).

(** ** Package [blockchain]: the block format *)

(** Modelled from the spec: the declaration of [Block] is not part of the
    sources.  [Header = {Hash, PrevHash, Height, Timestamp,
    ForgerPublicKeyHash}], [Body = {Transactions: ordered sequence}]. *)
Module Header.
Record t : Type := mk {
  Hash : bytes;
  PrevHash : bytes;
  Height : Z;
  Timestamp : Z;
  ForgerPublicKeyHash : bytes }.
End Header.

Module Body.
Record t : Type := mk { Transactions : list Transaction.t }.
End Body.

Module Block.
Record t : Type := mk { Header : Header.t; Body : Body.t }.
End Block.

(** ** Package [repository]: the stored records *)

Module utxo.
Record t : Type := mk {
  PublicKeyHash : string;
  TransactionID : string;
  Value : Z;
  Vout : Z }.
End utxo.
Abbreviation utxos := (list utxo.t).

Module transactionInput.
Record t : Type := mk {
  TransactionID : string;
  Vout : Z;
  PublicKeyHash : string;
  Signature : string }.
End transactionInput.

Module transactionOutput.
Record t : Type := mk { Value : Z; PublicKeyHash : string }.
End transactionOutput.

Module tx.
Record t : Type := mk {
  ID : string;
  Inputs : list transactionInput.t;
  Outputs : list transactionOutput.t }.
End tx.

(** What a bucket holds under a key.  The sources store the JSON text of
    a value ([json.Marshal]) and read it back at an expected type
    ([json.Unmarshal]); a document is the value whose JSON text is stored.
    The tip is stored as the bare hash.  [DocBlock b] stands for
    [json.Marshal(newBlock(b))], [newBlock] not being part of the sources. *)
Inductive document : Type :=
| DocUTXOs (saved : utxos)
| DocTX (t : tx.t)
| DocBlock (b : Block.t)
| DocBytes (raw : bytes).

(** ** [github.com/boltdb/bolt]: a write transaction *)

(** The state a [*bolt.Tx] gives access to: the buckets by name.  A
    [*bolt.Bucket] handle is the name of its bucket. *)
Abbreviation boltTx := (gmap bytes (gmap bytes document)).

Module bolt.

Definition MaxKeySize : Z := 32768.

(** [tx.Bucket(name) != nil] *)
Definition hasBucket (tx : boltTx) (name : bytes) : bool :=
  bool_decide (is_Some (tx !! name)).

(** [tx.CreateBucket(name)] *)
Definition CreateBucket (tx : boltTx) (name : bytes) : result boltTx :=
  if hasBucket tx name then Err (ErrExternal "bucket already exists")
  else if bool_decide (name = []) then Err (ErrExternal "bucket name required")
  else Ok (<[name := ∅]> tx).

(** [b.Get(key)], [None] being the nil slice. *)
Definition Get (tx : boltTx) (name key : bytes) : option document :=
  match tx !! name with
  | Some b => b !! key
  | None => None
  end.

(** [b.Put(key, value)]: refused for an empty or an oversized key.  The
    bound on the size of the value is not modelled. *)
Definition Put (tx : boltTx) (name key : bytes) (value : document)
  : result boltTx :=
  if bool_decide (key = []) then Err ErrKeyRequired
  else if MaxKeySize <? Z.of_nat (length key) then Err ErrKeyTooLarge
  else match tx !! name with
       | Some b => Ok (<[name := <[key := value]> b]> tx)
       | None => Err (ErrExternal "tx closed")
       end.

(** [b.Delete(key)]: a missing key is not an error. *)
Definition Delete (tx : boltTx) (name key : bytes) : result boltTx :=
  match tx !! name with
  | Some b => Ok (<[name := delete key b]> tx)
  | None => Err (ErrExternal "tx closed")
  end.

(** [db.Update(fn)]: the changes are committed when [fn] returns nil and
    rolled back otherwise. *)
Definition Update (db : boltTx) (fn : boltTx -> result boltTx)
  : boltTx * option error :=
  match fn db with
  | Ok db' => (db', None)
  | Err err => (db, Some err)
  end.

End bolt.

(** [json.Unmarshal(raw, &saved)] at type [[]utxo]. *)
Definition unmarshal_utxos (raw : document) : result utxos :=
  match raw with
  | DocUTXOs saved => Ok saved
  | _ => Err (ErrExternal "json: cannot unmarshal into []utxo")
  end.

(** ** Package [repository]: the UTXO indices *)

Definition utxoByPublicKeyBucket : bytes := bytes_of_string "utxos-by-pkey".

Definition utxoByTxBucket : bytes := bytes_of_string "utxos-by-tx".

Definition newUTXO (u : UTXO.t) : utxo.t :=
  utxo.mk (Base64.EncodeToString (UTXO.PublicKeyHash u))
          (Base64.EncodeToString (UTXO.TransactionID u))
          (UTXO.Value u) (UTXO.Vout u).

(** The decoding errors are dropped (the blank identifier). *)
Definition toUTXO (u : utxo.t) : UTXO.t :=
  let id := fst (Base64.DecodeString (utxo.TransactionID u)) in
  let publicKeyHash := fst (Base64.DecodeString (utxo.PublicKeyHash u)) in
  UTXO.mk id publicKeyHash (utxo.Value u) (utxo.Vout u).

Definition newUTXOs (ut : UTXOs) : utxos := map newUTXO ut.

Definition toUTXOs (ut : utxos) : UTXOs := map toUTXO ut.

(** The bucket a saver works on: the existing one, or a new one. *)
Definition openBucket (tx : boltTx) (name : bytes) (msg : string)
  : result boltTx :=
  if bolt.hasBucket tx name then Ok tx
  else wrapErr (bolt.CreateBucket tx name) msg.

(** What the savers read before appending: nothing when the key is
    absent. *)
Definition readSaved (tx : boltTx) (name key : bytes) : result utxos :=
  match bolt.Get tx name key with
  | None => Ok []
  | Some raw => wrapErr (unmarshal_utxos raw) "Failed to unmarshal into utxo array"
  end.

Fixpoint saveUTXOsByPublicKey_loop (tx : boltTx) (utxos : UTXOs)
  : result boltTx :=
  match utxos with
  | [] => Ok tx
  | u :: utxos' =>
      saved <- readSaved tx utxoByPublicKeyBucket (UTXO.PublicKeyHash u);;
      let saved := saved ++ [newUTXO u] in
      tx <- wrapErr (bolt.Put tx utxoByPublicKeyBucket (UTXO.PublicKeyHash u)
                       (DocUTXOs saved))
              "Failed to save utxo set for %x";;
      saveUTXOsByPublicKey_loop tx utxos'
  end.

Definition saveUTXOsByPublicKey (tx : boltTx) (utxos : UTXOs)
  : result boltTx :=
  tx <- openBucket tx utxoByPublicKeyBucket "Failed to create bucket %s";;
  saveUTXOsByPublicKey_loop tx utxos.

Fixpoint saveUTXOsByTransactionID_loop (tx : boltTx) (utxos : UTXOs)
  : result boltTx :=
  match utxos with
  | [] => Ok tx
  | u :: utxos' =>
      saved <- readSaved tx utxoByTxBucket (UTXO.TransactionID u);;
      let saved := saved ++ [newUTXO u] in
      tx <- wrapErr (bolt.Put tx utxoByTxBucket (UTXO.TransactionID u)
                       (DocUTXOs saved))
              "Failed to save utxo set for tx id %x";;
      saveUTXOsByTransactionID_loop tx utxos'
  end.

Definition saveUTXOsByTransactionID (tx : boltTx) (utxos : UTXOs)
  : result boltTx :=
  tx <- openBucket tx utxoByTxBucket "Failed to create bucket %s";;
  saveUTXOsByTransactionID_loop tx utxos.

Definition saveUTXOs (tx : boltTx) (utxos : UTXOs) : result boltTx :=
  tx <- wrapErr (saveUTXOsByPublicKey tx utxos)
          "Failed to save utxo by public key";;
  wrapErr (saveUTXOsByTransactionID tx utxos)
    "Failed to save utxo by transaction id".

(** The three readers: a missing bucket or key is the nil result. *)
Definition readUTXOs (tx : boltTx) (name key : bytes) : result utxos :=
  if negb (bolt.hasBucket tx name) then Ok []
  else
    match bolt.Get tx name key with
    | None => Ok []
    | Some raw => wrapErr (unmarshal_utxos raw) "Failed to unmarshal utxos"
    end.

Definition getUTXOsByPublicKey (tx : boltTx) (publicKeyHash : bytes)
  : result UTXOs :=
  utxos <- readUTXOs tx utxoByPublicKeyBucket publicKeyHash;;
  Ok (toUTXOs utxos).

Definition getUTXOByTransactionID (tx : boltTx) (transactionID : bytes)
  : result UTXOs :=
  utxos <- readUTXOs tx utxoByTxBucket transactionID;;
  Ok (toUTXOs utxos).

Fixpoint findVout (utxos : utxos) (vout : Z) : option UTXO.t :=
  match utxos with
  | [] => None
  | utxo :: utxos' =>
      if utxo.Vout utxo =? vout then Some (toUTXO utxo)
      else findVout utxos' vout
  end.

Definition getTransactionUTXO (tx : boltTx) (transactionID : bytes) (vout : Z)
  : result (option UTXO.t) :=
  utxos <- readUTXOs tx utxoByTxBucket transactionID;;
  Ok (findVout utxos vout).

Definition deleteUTXOByPublicKey (tx : boltTx) (utxo : UTXO.t)
  : result boltTx :=
  if negb (bolt.hasBucket tx utxoByPublicKeyBucket) then Ok tx
  else
    utxos <- wrapErr (getUTXOsByPublicKey tx (UTXO.PublicKeyHash utxo))
               "Failed to retrieve utxo for deletion";;
    let updated :=
      UTXOs_Filter utxos
        (fun u => bytes_differ (UTXO.TransactionID utxo)
                    (UTXO.TransactionID u)) in
    wrapErr (bolt.Put tx utxoByPublicKeyBucket (UTXO.PublicKeyHash utxo)
               (DocUTXOs (newUTXOs updated)))
      "Failed to store utxo %#v".

(** The bucket handle is the one of [utxoByPublicKeyBucket()], as in the
    source; the list is read through [getUTXOByTransactionID]. *)
Definition deleteUTXOByTransactionID (tx : boltTx) (utxo : UTXO.t)
  : result boltTx :=
  if negb (bolt.hasBucket tx utxoByPublicKeyBucket) then Ok tx
  else
    utxos <- wrapErr (getUTXOByTransactionID tx (UTXO.TransactionID utxo))
               "Failed to retrieve utxo for deletion";;
    let updated :=
      UTXOs_Filter utxos
        (fun u => negb (UTXO.Vout u =? UTXO.Vout utxo)
                  || bytes_differ (UTXO.PublicKeyHash utxo)
                       (UTXO.PublicKeyHash u)) in
    wrapErr (bolt.Put tx utxoByPublicKeyBucket (UTXO.TransactionID utxo)
               (DocUTXOs (newUTXOs updated)))
      "Failed to store utxo %#v".

Definition deleteUTXO (tx : boltTx) (utxo : UTXO.t) : result boltTx :=
  tx <- wrapErr (deleteUTXOByPublicKey tx utxo)
          "Failed to delete transaction by public key";;
  wrapErr (deleteUTXOByTransactionID tx utxo)
    "Failed to delete transaction by transaction id".

(** How a call ends: with a value, with an error, or in the run-time
    panic of a nil pointer dereference. *)
Inductive outcome (A : Type) : Type :=
| Returns (a : A)
| Fails (e : error)
| Panics.
Arguments Returns {A} a.
Arguments Fails {A} e.
Arguments Panics {A}.

(** One iteration of [deleteTransactionUTXOs]: [*utxo] is evaluated
    whenever the lookup reports no error. *)
Definition deleteInputUTXO (tx : boltTx) (input : Input.t)
  : outcome boltTx :=
  match getTransactionUTXO tx (Input.TransactionID input) (Input.Vout input) with
  | Err err => Fails err
  | Ok None => Panics
  | Ok (Some utxo) =>
      match deleteUTXO tx utxo with
      | Err err => Fails (Wrap err "Failed to delete utxo")
      | Ok tx => Returns tx
      end
  end.

Fixpoint deleteInputsUTXOs (tx : boltTx) (inputs : Inputs) : outcome boltTx :=
  match inputs with
  | [] => Returns tx
  | input :: inputs' =>
      match deleteInputUTXO tx input with
      | Returns tx => deleteInputsUTXOs tx inputs'
      | Fails err => Fails err
      | Panics => Panics
      end
  end.

Definition deleteTransactionUTXOs (tx : boltTx) (transaction : Transaction.t)
  : outcome boltTx :=
  deleteInputsUTXOs tx (Transaction.Inputs transaction).

(** ** Package [repository]: the mempool *)

Definition transactionsBucket : bytes := bytes_of_string "ether".

Definition newTransactionInput (input : Input.t) : transactionInput.t :=
  transactionInput.mk
    (Base64.EncodeToString (Input.TransactionID input))
    (Input.Vout input)
    (Base64.EncodeToString (Input.PublicKeyHash input))
    (Base64.EncodeToString (Input.Signature input)).

Definition newTransactionOutput (output : Output.t) : transactionOutput.t :=
  transactionOutput.mk (Output.Value output)
    (Base64.EncodeToString (Output.PublicKeyHash output)).

Definition newTX (transaction : Transaction.t) : tx.t :=
  tx.mk (Base64.EncodeToString (Transaction.ID transaction))
        (map newTransactionInput (Transaction.Inputs transaction))
        (map newTransactionOutput (Transaction.Outputs transaction)).

Definition saveTransaction (tx : boltTx) (transaction : Transaction.t)
  : result boltTx :=
  tx <- openBucket tx transactionsBucket "Failed to create bucket %s";;
  wrapErr (bolt.Put tx transactionsBucket (Transaction.ID transaction)
             (DocTX (newTX transaction)))
    "Failed to save transaction %s".

Definition deleteTransaction (tx : boltTx) (transaction : Transaction.t)
  : result boltTx :=
  if negb (bolt.hasBucket tx transactionsBucket) then Ok tx
  else wrapErr (bolt.Delete tx transactionsBucket (Transaction.ID transaction))
         "Failed to delete transaction %s".

Section CastVote.
Context {digest : Digest}.

(** [getUTXOs] and [overwriteUTXOs] are helpers of the repository that
    are not part of the sources: they are taken as they come. *)
Variable getUTXOs : boltTx -> bytes -> result UTXOs.
Variable overwriteUTXOs : boltTx -> bytes -> UTXOs -> result boltTx.

(** The transaction [CastVote] builds from the UTXO it spends. *)
Definition voteInputs (from signature : bytes) (usedUTXO : UTXO.t) : Inputs :=
  [Input.mk (UTXO.TransactionID usedUTXO) (UTXO.Vout usedUTXO) from
     signature []].

Definition voteOutputs (from to : bytes) (usedUTXO : UTXO.t) : Outputs :=
  let outputs := [Output.mk 1 to] in
  if UTXO.Value usedUTXO >? 1
  then outputs ++ [Output.mk (GoInt.sub (UTXO.Value usedUTXO) 1) from]
  else outputs.

(** The function [CastVote] hands to [db.Update]. *)
Definition CastVote_update (now : Z) (from to signature : bytes) (tx : boltTx)
  : result boltTx :=
  match getUTXOs tx from with
  | Err err => Err (Wrap err "Failed to retrieve utxos for %x")
  | Ok [] => Err ErrInsufficientVotes
  | Ok (usedUTXO :: _) =>
      let inputs := voteInputs from signature usedUTXO in
      let outputs := voteOutputs from to usedUTXO in
      tr <- wrapErr (NewTransaction now inputs outputs)
              "Failed to create new transaction";;
      tx <- wrapErr (overwriteUTXOs tx (UTXO.PublicKeyHash usedUTXO) [usedUTXO])
              "Failed to overwrite transaction";;
      tx <- wrapErr (saveTransaction tx tr) "Failed to save transaction";;
      wrapErr (saveUTXOs tx (Transaction_UTXOs tr)) "Failed to save UTXOs"
  end.

Definition CastVote (db : boltTx) (now : Z) (from to signature : bytes)
  : boltTx * option error :=
  bolt.Update db (CastVote_update now from to signature).

End CastVote.

(** ** Package [repository]: the chain *)

Definition blocksBucket : bytes := bytes_of_string "blocks".

Definition tipKey : bytes := bytes_of_string "l".

(** [GetTip]: the value under [tipKey], nil without the bucket. *)
Definition GetTip (db : boltTx) : option document :=
  if negb (bolt.hasBucket db blocksBucket) then None
  else bolt.Get db blocksBucket tipKey.

Definition addBlock (tx : boltTx) (block : Block.t) : result (boltTx * bytes) :=
  tx <- openBucket tx blocksBucket "Failed to create blocks bucket";;
  let rawBlock := DocBlock block in
  tx <- wrapErr (bolt.Put tx blocksBucket (Header.Hash (Block.Header block))
                   rawBlock)
          "Failed to put block %#v";;
  tx <- wrapErr (bolt.Put tx blocksBucket tipKey
                   (DocBytes (Header.Hash (Block.Header block))))
          "Failed to update tip";;
  Ok (tx, Header.Hash (Block.Header block)).

Section AddBlock.

(** [AddBlock] calls a helper it names [saveUTXOS]. *)
Variable saveUTXOS : boltTx -> UTXOs -> result boltTx.

Fixpoint AddBlock_loop (tx : boltTx) (transactions : list Transaction.t)
  : result boltTx :=
  match transactions with
  | [] => Ok tx
  | transaction :: transactions' =>
      tx <- deleteTransaction tx transaction;;
      tx <- saveUTXOS tx (Transaction_UTXOs transaction);;
      AddBlock_loop tx transactions'
  end.

(** The function handed to [db.Update], with the value it leaves in the
    captured variable [tip]. *)
Definition AddBlock_update (block : Block.t) (tx : boltTx)
  : bytes * result boltTx :=
  match addBlock tx block with
  | Err err => ([], Err err)
  | Ok (tx, created) =>
      (created, AddBlock_loop tx (Body.Transactions (Block.Body block)))
  end.

(** [AddBlock]: the store after the call, and the returned [(tip, err)]. *)
Definition AddBlock (db : boltTx) (block : Block.t)
  : boltTx * (bytes * option error) :=
  let (tip, r) := AddBlock_update block db in
  let (db', err) := bolt.Update db (fun _ => r) in
  (db', (tip, err)).

End AddBlock.

(** Modelled from the spec: [saveUTXOS], the helper [AddBlock] calls on
    the UTXOs of each transaction, is not part of the sources.  The spec
    has [AddBlock] save the new UTXOs, and [SaveUTXOs(utxos)] append to
    both indices: it is taken to be [saveUTXOs] of this package. *)
Definition saveUTXOS : boltTx -> UTXOs -> result boltTx := saveUTXOs.

(** ** [encoding/json]: how a struct is written *)
Module json.

(** The values the envelopes hold: a string, an integer, a
    [json.RawMessage], or an already encoded body. *)
Inductive value : Type :=
| String_ (s : string)
| Int_ (n : Z)
| RawMessage (m : option bytes)
| Encoded (text : result string).

(** A struct field as the encoder sees it: the key of its tag, the
    [omitempty] option, the value. *)
Record field : Type := mkField {
  name : string;
  omitEmpty : bool;
  val : value }.

(** [isEmptyValue] *)
Definition isEmptyValue (v : value) : bool :=
  match v with
  | String_ s => String.eqb s EmptyString
  | Int_ n => n =? 0
  | RawMessage None => true
  | RawMessage (Some m) => bool_decide (m = [])
  | Encoded _ => false
  end.

(** What the encoder does not define by itself: the quoted form of a
    string, and the validation and compaction of a raw message. *)
Class Text : Type := {
  quote : string -> string;
  compact : bytes -> result string }.

Definition dquote : string := String (Ascii.ascii_of_nat 34) EmptyString.

Definition decimal (n : Z) : string := NilEmpty.string_of_int (Z.to_int n).

Definition encodeValue {text : Text} (v : value) : result string :=
  match v with
  | String_ s => Ok (quote s)
  | Int_ n => Ok (decimal n)
  | RawMessage None => Ok "null"%string
  | RawMessage (Some m) => compact m
  | Encoded text => text
  end.

(** The members written for a struct: its fields in declaration order,
    without the empty ones marked [omitempty]. *)
Definition members (fields : list field) : list (string * value) :=
  map (fun f => (name f, val f))
    (List.filter (fun f => negb (omitEmpty f && isEmptyValue (val f))) fields).

Definition keys (fields : list field) : list string :=
  map fst (members fields).

Fixpoint encodeMembers {text : Text} (first : bool)
  (ms : list (string * value)) : result string :=
  match ms with
  | [] => Ok EmptyString
  | (k, v) :: ms' =>
      e <- encodeValue v;;
      rest <- encodeMembers false ms';;
      Ok ((if first then EmptyString else ",") ++ dquote ++ k ++ dquote
          ++ ":" ++ e ++ rest)%string
  end.

(** [json.Marshal] of a struct value. *)
Definition Marshal {text : Text} (fields : list field) : result string :=
  body <- encodeMembers true (members fields);;
  Ok ("{" ++ body ++ "}")%string.

End json.

(** ** Package [websocket]: the envelopes *)

Definition GetBlockchainHeightMessage : Z := 1.
Definition CloseConnectionMessage : Z := 2.
Definition GetMissingBlocksMessage : Z := 3.
Definition GetBlockMessage : Z := 4.
Definition RegisterMessage : Z := 5.
Definition ErrorMessage : Z := 6.
Definition ResponseMessage : Z := 7.
Definition TransactionReceivedMessage : Z := 8.
Definition NoActionMessage : Z := 9.
Definition ForgeBlockMessage : Z := 10.
Definition BlockForgedMessage : Z := 11.
Definition DisconnectMessage : Z := 12.

Module Ping.
Record t : Type := mk {
  Message : Z;
  Body : option bytes;
  Signature : string;
  Sender : string }.
End Ping.

(** The body of a [Pong] is an [interface{}]: it is kept as the result of
    encoding it, [null] for the nil interface. *)
Module Pong.
Record t : Type := mk {
  Message : Z;
  Body : result string;
  Signature : string;
  Sender : string }.
End Pong.

(** The fields of [signablePing], in the order of the declaration. *)
Definition signablePing (p : Ping.t) : list json.field :=
  [ json.mkField "body" false (json.RawMessage (Ping.Body p));
    json.mkField "sender" true (json.String_ (Ping.Sender p));
    json.mkField "message" true (json.Int_ (Ping.Message p)) ].

Definition Ping_Signable {text : json.Text} (p : Ping.t) : result string :=
  json.Marshal (signablePing p).

(** The fields of [signablePong], in the order of the declaration. *)
Definition signablePong (p : Pong.t) : list json.field :=
  [ json.mkField "body" false (json.Encoded (Pong.Body p));
    json.mkField "sender" true (json.String_ (Pong.Sender p));
    json.mkField "message" false (json.Int_ (Pong.Message p)) ].

Definition Pong_Signable {text : json.Text} (p : Pong.t) : result string :=
  json.Marshal (signablePong p).

Definition nilBody : result string := Ok "null"%string.

Definition NewNoActionPong : Pong.t :=
  Pong.mk NoActionMessage nilBody EmptyString EmptyString.

Definition NewDisconnectPong : Pong.t :=
  Pong.mk DisconnectMessage nilBody EmptyString EmptyString.

(** ** Package [handlers] *)

Module blockForgedBody.
Record t : Type := mk { Height : Z; Block : Block.t }.
End blockForgedBody.

Section BlockForged.

(** [json.Unmarshal(ping.Body, &body)] *)
Variable unmarshalBody : option bytes -> result blockForgedBody.t.
(** The value of [blockchain.GetHeight(getTip, getBlock)], a function
    that is not part of the sources. *)
Variable GetHeight : result Z.
Variable verifyBlock : Block.t -> bool.
(** [addNewBlock] returns an error, [None] being nil. *)
Variable addNewBlock : Block.t -> option error.

Definition BlockForged (ping : Ping.t) : result Pong.t :=
  body <- wrapErr (unmarshalBody (Ping.Body ping))
            "Failed to unmarshal block forged body %s";;
  height <- wrapErr GetHeight "Failed to get height";;
  if GoInt.add height 1 <? blockForgedBody.Height body
  then Err (Errorf "Blockchain height is too low %d")
  else if negb (verifyBlock (blockForgedBody.Block body))
  then Ok NewDisconnectPong
  else
    match addNewBlock (blockForgedBody.Block body) with
    | Some err =>
        if errors_Is err ErrInvalidBlock then Ok NewDisconnectPong
        else Err (Wrap err "Failed to add new block to blockchain")
    | None => Ok NewNoActionPong
    end.

End BlockForged.

(** ** Further functions of the packages *)

(** *** Package [transaction] *)

Section NewBaseTransaction.
Context {digest : Digest}.

(** [wallet.ExtractPublicKeyHash], and [wallet.Sign] with the private key
    of the creator: both belong to package [wallet]. *)
Variable ExtractPublicKeyHash : string -> bytes.
Variable Sign : signable.t -> result bytes.

(** [NewBaseTransaction]: the input has no [TransactionID]; the
    [Timestamp] of the transaction is not set. *)
Definition NewBaseTransaction (creator : Wallet.t) (recipientAddress : string)
  : result Transaction.t :=
  let recipientKeyHash := ExtractPublicKeyHash recipientAddress in
  let signable := signable.mk recipientKeyHash (Wallet.PublicKeyHash creator)
                    VoteValue in
  match Sign signable with
  | Err err => Err (Wrap err "Failed to sign base transaction")
  | Ok signature =>
      let outputs := [Output.mk VoteValue recipientKeyHash] in
      let inputs := [Input.mk [] (-1) (Wallet.PublicKeyHash creator) signature
                       (Wallet.PublicKey creator)] in
      match newID inputs outputs with
      | Err err => Err (Wrap err "Failed to create transaction id")
      | Ok id => Ok (Transaction.mk id inputs outputs 0)
      end
  end.

End NewBaseTransaction.

(** *** Package [repository] *)

(** The decoders of the stored transaction; decoding errors are dropped,
    the [Verifier] of an input and the [Timestamp] are not stored. *)
Definition toInput (ti : transactionInput.t) : Input.t :=
  let transactionID := fst (Base64.DecodeString (transactionInput.TransactionID ti)) in
  let publicKeyHash := fst (Base64.DecodeString (transactionInput.PublicKeyHash ti)) in
  let signature := fst (Base64.DecodeString (transactionInput.Signature ti)) in
  Input.mk transactionID (transactionInput.Vout ti) publicKeyHash signature [].

Definition toOutput (to : transactionOutput.t) : Output.t :=
  let publicKeyHash := fst (Base64.DecodeString (transactionOutput.PublicKeyHash to)) in
  Output.mk (transactionOutput.Value to) publicKeyHash.

Definition toTransaction (t : tx.t) : Transaction.t :=
  let inputs := map toInput (tx.Inputs t) in
  let outputs := map toOutput (tx.Outputs t) in
  let id := fst (Base64.DecodeString (tx.ID t)) in
  Transaction.mk id inputs outputs 0.

Fixpoint deleteTransactionsUTXOs (tx : boltTx)
  (transactions : list Transaction.t) : outcome boltTx :=
  match transactions with
  | [] => Returns tx
  | tr :: transactions' =>
      match deleteTransactionUTXOs tx tr with
      | Returns tx => deleteTransactionsUTXOs tx transactions'
      | Fails err => Fails (Wrap err "Failed to delete utxo for transactions")
      | Panics => Panics
      end
  end.

(** The function [InitBlockchain] hands to [db.Update], with the value it
    leaves in the captured variable [tip]. *)
Definition InitBlockchain_update (genesis : Block.t) (tx : boltTx)
  : bytes * result boltTx :=
  let hash := Header.Hash (Block.Header genesis) in
  let r :=
    tx <- wrapErr (bolt.CreateBucket tx blocksBucket)
            "Failed to create blocks bucket";;
    tx <- wrapErr (bolt.Put tx blocksBucket hash (DocBlock genesis))
            "Failed to put genesis block";;
    wrapErr (bolt.Put tx blocksBucket tipKey (DocBytes hash))
      "Failed to update tip" in
  match r with
  | Ok tx => (hash, Ok tx)
  | Err err => ([], Err err)
  end.

(** [InitBlockchain]: the store after the call, and the returned
    [(tip, err)]. *)
Definition InitBlockchain (db : boltTx) (genesis : Block.t)
  : boltTx * (bytes * option error) :=
  let (tip, r) := InitBlockchain_update genesis db in
  let (db', err) := bolt.Update db (fun _ => r) in
  (db', (tip, err)).

(** *** [encoding/base64], the unpadded encoding [RawStdEncoding] *)
Module Base64Raw.

(** [Encoding.Decode] without a padding character: every character
    outside the alphabet other than a newline is an error, the padding
    included; a last quantum of two or three sextets is complete. *)
Fixpoint decodeFrom (src : string) (dbuf : list N) (dst : bytes)
  : bytes * bool :=
  match src with
  | EmptyString =>
      match dbuf with
      | [] => (dst, false)
      | [_] => (dst, true)
      | _ => (dst ++ Base64.quantumBytes dbuf, false)
      end
  | String c rest =>
      match Base64.decodeMap c with
      | Some v =>
          let dbuf' := dbuf ++ [v] in
          if (length dbuf' =? 4)%nat
          then decodeFrom rest [] (dst ++ Base64.quantumBytes dbuf')
          else decodeFrom rest dbuf' dst
      | None =>
          if Base64.isNewline c then decodeFrom rest dbuf dst
          else (dst, true)
      end
  end.

(** [RawStdEncoding.DecodeString] *)
Definition DecodeString (s : string) : bytes * bool := decodeFrom s [] [].

End Base64Raw.

(** *** Package [websocket] *)

(** [fmt.Sprintf("Unknown message %d", m)] *)
Definition unknownMessage (m : Z) : string :=
  ("Unknown message " ++ json.decimal m)%string.

(** [Message.String] *)
Definition Message_String (m : Z) : string :=
  if m =? GetBlockchainHeightMessage then "get-blockchain-height"
  else if m =? CloseConnectionMessage then "close-connection"
  else if m =? GetMissingBlocksMessage then "get-missing-blocks"
  else if m =? GetBlockMessage then "get-block"
  else if m =? RegisterMessage then "register"
  else if m =? ErrorMessage then "error"
  else if m =? ResponseMessage then "response"
  else if m =? TransactionReceivedMessage then "transaction-received"
  else if m =? NoActionMessage then "no-action"
  else if m =? ForgeBlockMessage then "forge-block"
  else if m =? BlockForgedMessage then "block-forged"
  else if m =? DisconnectMessage then "disconnect"
  else unknownMessage m.

Section Envelopes.

(** [wallet.Verify] at type [Ping]. *)
Variable wallet_Verify : Ping.t -> bytes -> bytes -> bool.

(** [Ping.Verified]: the sender is decoded with [StdEncoding], the
    signature with [RawStdEncoding]. *)
Definition Ping_Verified (p : Ping.t) : bool :=
  let (senderPKey, err) := Base64.DecodeString (Ping.Sender p) in
  if err then false
  else
    let (signature, err) := Base64Raw.DecodeString (Ping.Signature p) in
    if err then false
    else wallet_Verify p signature senderPKey.

(** The two methods of [wallet.Signer] that [Pong.Signed] calls. *)
Variable signer_Verifier : string.
Variable signer_Sign : Pong.t -> result string.

(** [Pong.Signed]: the pong returned and the error. *)
Definition Pong_Signed (p : Pong.t) : Pong.t * option error :=
  let p := Pong.mk (Pong.Message p) (Pong.Body p) (Pong.Signature p)
             signer_Verifier in
  match signer_Sign p with
  | Err err => (p, Some (Wrap err "Failed to sign pong %#v"))
  | Ok signature =>
      (Pong.mk (Pong.Message p) (Pong.Body p) signature (Pong.Sender p), None)
  end.

End Envelopes.

(** *** Package [blockchain]: the authorizer *)

(** The fields of [websocket.Request] the authorizer reads. *)
Module Request.
Record t : Type := mk { Sender : string; Signature : string }.
End Request.

(** What an authorizer returns: [websocket.ErrUnauthorized(msg)] or
    another error. *)
Inductive authError : Type :=
| ErrUnauthorized (msg : string)
| OtherError (err : error).

Section BlockchainAuthorizer.

(** [wallet.Verify] at type [Request] and [wallet.HashedPublicKey];
    [Transactions.FindTransactionTo], which is not part of the sources. *)
Variable wallet_Verify : Request.t -> bytes -> bytes -> bool.
Variable HashedPublicKey : bytes -> result bytes.
Variable FindTransactionTo :
  list Transaction.t -> bytes -> option Transaction.t.
(** [FindBlockFn]: the block found, whether one was found, the error. *)
Variable findBlock :
  (Block.t -> bool) -> option Block.t * bool * option error.

(** The criteria handed to [findBlock] for the hashed key of the sender. *)
Definition paysTo (publicKeyHashed : bytes) (b : Block.t) : bool :=
  match FindTransactionTo (Body.Transactions (Block.Body b)) publicKeyHashed with
  | Some _ => true
  | None => false
  end.

(** [BlockchainAuthorizer(findBlock)], [None] being nil. *)
Definition BlockchainAuthorizer (request : Request.t) : option authError :=
  let (rawPublicKey, err) := Base64.DecodeString (Request.Sender request) in
  if err then Some (ErrUnauthorized "Invalid public key")
  else
    let (rawSignature, err) :=
      Base64.DecodeString (Request.Signature request) in
    if err then Some (ErrUnauthorized "Invalid signature")
    else if negb (wallet_Verify request rawSignature rawPublicKey)
    then Some (ErrUnauthorized "Signature does not match the payload")
    else
      match HashedPublicKey rawPublicKey with
      | Err err => Some (OtherError err)
      | Ok publicKeyHashed =>
          match findBlock (paysTo publicKeyHashed) with
          | (_, _, Some err) =>
              Some (OtherError (Errorf "Failed to find block. Error: %s"))
          | (_, false, None) =>
              Some (ErrUnauthorized "Node %s does not exist")
          | (_, true, None) => None
          end
      end.

End BlockchainAuthorizer.

(** ** Stand-ins for the external collaborators

    Small instances of the interfaces above, to run the definitions on
    concrete inputs. *)
Module Fixture.

(** A digest that keeps the encoded length and the number of inputs. *)
#[export] Instance digest : Digest := {|
  json_Marshal h :=
    Ok (repeat x2a (length (hashable.Inputs h))
        ++ x7c :: repeat x2b (length (hashable.Outputs h)));
  sha256_Sum256 raw := x53 :: raw |}.

(** A signer whose signature is the sender followed by the recipient. *)
#[export] Instance signer : Signer := {|
  SignRaw s := Ok (signable.Sender s ++ signable.Recipient s) |}.

(** The verifier matching [signer]. *)
Definition verifier : VerifierFn :=
  fun s signature _ =>
    (String.eqb signature
       (Base64.EncodeToString (signable.Sender s ++ signable.Recipient s)),
     None).

(** Strings without characters to escape, raw messages already compact. *)
#[export] Instance text : json.Text := {|
  json.quote s := (json.dquote ++ s ++ json.dquote)%string;
  json.compact m := Ok (string_of_list_byte m) |}.

Definition alice : bytes := bytes_of_string "alice".
Definition bob : bytes := bytes_of_string "bob".
Definition carol : bytes := bytes_of_string "carol".
Definition txA : bytes := bytes_of_string "tx-a".
Definition txB : bytes := bytes_of_string "tx-b".

(** The coordinator's wallet and its three unspent outputs. *)
Definition master : Wallet.t := Wallet.mk (bytes_of_string "master-key") alice.

Definition masterUTXOs : UTXOs :=
  [UTXO.mk txA alice 6 0; UTXO.mk txA alice 7 1; UTXO.mk txB alice 9 0].

Definition getMasterUTXOs : GetUTXOsByPublicKeyFn :=
  fun _ => Ok masterUTXOs.

(** The last of them. *)
Definition spent : UTXO.t := UTXO.mk txB alice 9 0.

(** The store in which the coordinator's outputs have been saved. *)
Definition store : boltTx :=
  match saveUTXOs ∅ masterUTXOs with
  | Ok tx => tx
  | Err _ => ∅
  end.

(** Stand-ins for the two helpers of [CastVote] that the sources lack:
    the by-pkey reader, and an overwrite that leaves the store as it is. *)
Definition getUTXOs : boltTx -> bytes -> result UTXOs := getUTXOsByPublicKey.

Definition overwriteUTXOs : boltTx -> bytes -> UTXOs -> result boltTx :=
  fun tx _ _ => Ok tx.

(** A vote of [alice] for [bob], and the block that carries it. *)
Definition voteTx : Transaction.t :=
  Transaction.mk (bytes_of_string "tx-c")
    [Input.mk txB 0 alice (alice ++ bob) []]
    [Output.mk 1 bob; Output.mk 8 alice] 1700000000.

Definition voteBlock : Block.t :=
  Block.mk (Header.mk (bytes_of_string "hash-1") (bytes_of_string "hash-0")
              1 1700000000 bob)
           (Body.mk [voteTx]).


(** A block whose hash is the key of the tip. *)
Definition blockAtTipKey : Block.t :=
  Block.mk (Header.mk tipKey (bytes_of_string "hash-0") 1 1700000000 bob)
           (Body.mk []).


(** A block-forged body announcing height [h]. *)
Definition forgedBlock : Block.t :=
  Block.mk (Header.mk (bytes_of_string "hash-1") (bytes_of_string "hash-0")
              1 1700000000 bob)
           (Body.mk []).

Definition forgedBody (h : Z) : blockForgedBody.t :=
  blockForgedBody.mk h forgedBlock.

Definition forgedPing : Ping.t :=
  Ping.mk BlockForgedMessage (Some (bytes_of_string "{}"))
    EmptyString EmptyString.

End Fixture.

(** ** Vocabulary of the properties *)

Definition result_map {A B} (f : A -> B) (r : result A) : result B :=
  match r with
  | Ok a => Ok (f a)
  | Err e => Err e
  end.

(** [receiver] is the first output of [outs] that does not pay [sender]. *)
Definition pairedOutput (outs : Outputs) (sender : bytes)
  (receiver : Output.t) : Prop :=
  exists before after,
    outs = before ++ receiver :: after
    /\ Output.PublicKeyHash receiver <> sender
    /\ Forall (fun o => Output.PublicKeyHash o = sender) before.

(** The checks an input goes through. *)
Definition inputPasses (getTransactionUTXO : GetTransactionUTXO)
  (verifier : VerifierFn) (transaction : Transaction.t) (input : Input.t)
  : Prop :=
  exists receiver utxo,
    pairedOutput (Transaction.Outputs transaction)
      (Input.PublicKeyHash input) receiver
    /\ getTransactionUTXO (Input.TransactionID input) (Input.Vout input)
       = Ok (Some utxo)
    /\ verifier
         (signable.mk (Output.PublicKeyHash receiver)
            (Input.PublicKeyHash input) (UTXO.Value utxo))
         (Base64.EncodeToString (Input.Signature input))
         (Base64.EncodeToString (Input.Verifier input))
       = (true, None).

(** The value of [sum] after the loop of [UTXOs.Sum] has gone through
    [utxos], starting from [sum]. *)
Definition runningSum (sum : Z) (utxos : UTXOs) : Z :=
  fold_left (fun sum u => GoInt.add sum (UTXO.Value u)) utxos sum.

(** [input] spends [utxo] for the stake: it carries the creator's
    signature over [{stakeholder, creator, utxo.Value}]. *)
Definition stakeInputOf {signer : Signer} (stakeCreator : Wallet.t)
  (stakeholder : bytes) (utxo : UTXO.t) (input : Input.t) : Prop :=
  exists signature,
    SignRaw (signable.mk stakeholder (Wallet.PublicKeyHash stakeCreator)
               (UTXO.Value utxo)) = Ok signature
    /\ input = Input.mk (UTXO.TransactionID utxo) (UTXO.Vout utxo)
                 (Wallet.PublicKeyHash stakeCreator) signature
                 (Wallet.PublicKey stakeCreator).

(** [consumed] is the shortest non-empty prefix of [utxos], in index
    order, whose running sum reaches [target]. *)
Definition shortestPrefixReaching (target : Z) (utxos consumed : UTXOs)
  : Prop :=
  (exists rest, utxos = consumed ++ rest)
  /\ consumed <> []
  /\ target <= UTXOs_Sum consumed
  /\ forall before after,
       consumed = before ++ after -> before <> [] -> after <> [] ->
       UTXOs_Sum before < target.

(** [x] is in the list stored in bucket [name] under [key]. *)
Definition indexed (tx : boltTx) (name key : bytes) (x : utxo.t) : Prop :=
  exists saved,
    bolt.Get tx name key = Some (DocUTXOs saved) /\ In x saved.

(** The two saving loops are the same loop, up to the bucket and the key
    of a UTXO. *)
Fixpoint appendEach (name : bytes) (keyOf : UTXO.t -> bytes) (msg : string)
  (tx : boltTx) (utxos : UTXOs) : result boltTx :=
  match utxos with
  | [] => Ok tx
  | u :: utxos' =>
      saved <- readSaved tx name (keyOf u);;
      tx <- wrapErr (bolt.Put tx name (keyOf u)
                       (DocUTXOs (saved ++ [newUTXO u]))) msg;;
      appendEach name keyOf msg tx utxos'
  end.

(** The input as it comes back from the store: without its [Verifier]. *)
Definition withoutVerifier (input : Input.t) : Input.t :=
  Input.mk (Input.TransactionID input) (Input.Vout input)
    (Input.PublicKeyHash input) (Input.Signature input) [].

(** The exact sum of a list of integers. *)
Definition total (values : list Z) : Z := fold_right Z.add 0 values.

(** Whether a call returned without error, and what it returned. *)
Definition isOk {A} (r : result A) : bool :=
  match r with
  | Ok _ => true
  | Err _ => false
  end.

Definition getOk {A} (default : A) (r : result A) : A :=
  match r with
  | Ok a => a
  | Err _ => default
  end.

(** The list stored in bucket [name] under [key], empty when there is
    none. *)
Definition savedAt (tx : boltTx) (name key : bytes) : utxos :=
  match bolt.Get tx name key with
  | Some (DocUTXOs saved) => saved
  | _ => []
  end.

(** Bucket [name] holds nothing under [key], or a list of UTXOs. *)
Definition holdsUTXOs (tx : boltTx) (name key : bytes) : Prop :=
  bolt.Get tx name key = None
  \/ exists saved, bolt.Get tx name key = Some (DocUTXOs saved).

(** A key bolt accepts. *)
Definition validKey (key : bytes) : Prop :=
  key <> [] /\ Z.of_nat (length key) <= bolt.MaxKeySize.

(** The UTXOs of [utxos] whose key is [key]. *)
Definition withKey (keyOf : UTXO.t -> bytes) (key : bytes) (utxos : UTXOs)
  : UTXOs :=
  List.filter (fun u => bool_decide (keyOf u = key)) utxos.

Definition isReturns {A} (o : outcome A) : bool :=
  match o with
  | Returns _ => true
  | _ => false
  end.

Definition getReturns {A} (default : A) (o : outcome A) : A :=
  match o with
  | Returns a => a
  | _ => default
  end.








(* ===================================================================== *)
(** * Properties *)
(* ===================================================================== *)

(** ** Go's [int] *)
Module GoIntFacts.
Import GoInt.

Lemma wrap_in_range z : in_range (wrap z).
Proof.
  unfold in_range, wrap.
  pose proof (Z.mod_pos_bound (z + 2 ^ 63) (2 ^ 64) ltac:(lia)). lia.
Qed.

Lemma wrap_small z : in_range z -> wrap z = z.
Proof.
  unfold in_range, wrap. intros H.
  rewrite Z.mod_small by lia. lia.
Qed.

End GoIntFacts.

(** ** base64 *)

Example base64_hello :
  Base64.EncodeToString (bytes_of_string "hello") = "aGVsbG8="%string
  /\ Base64.DecodeString "aGVsbG8=" = (bytes_of_string "hello", false)
  /\ Base64.DecodeString "aGVs*bG8=" = (bytes_of_string "hel", true).
Proof. repeat split; vm_compute; reflexivity. Qed.

Module Base64Facts.
Import Base64.

Lemma decodeMap_encodeAt (i : N) :
  (i < 64)%N -> decodeMap (encodeAt i) = Some i.
Proof.
  intros Hi. rewrite <- (N2Nat.id i).
  assert (Hn : (N.to_nat i < 64)%nat) by lia.
  generalize dependent (N.to_nat i). clear i Hi. intros n Hn.
  do 64 (destruct n as [|n]; [vm_compute; reflexivity|]).
  lia.
Qed.

Lemma lor_disjoint_add (x b : N) (k : N) :
  (x mod 2 ^ k = 0)%N -> (b < 2 ^ k)%N -> N.lor x b = (x + b)%N.
Proof.
  intros Hx Hb.
  assert (Hland : N.land x b = 0%N).
  { apply N.bits_inj. intros n. rewrite N.land_spec, N.bits_0.
    destruct (N.lt_ge_cases n k) as [Hlt | Hge].
    - replace (N.testbit x n) with false; [reflexivity|].
      rewrite <- (N.mod_pow2_bits_low x k n Hlt), Hx. symmetry. apply N.bits_0.
    - replace (N.testbit b n) with false; [apply andb_false_r|].
      symmetry. rewrite <- (N.mod_small b (2 ^ k) Hb).
      apply N.mod_pow2_bits_high. exact Hge. }
  rewrite <- N.lxor_lor by exact Hland.
  symmetry. apply N.add_nocarry_lxor. exact Hland.
Qed.

Lemma land_63 (v : N) : N.land v 63 = (v mod 64)%N.
Proof. change 63%N with (N.ones 6). rewrite N.land_ones. reflexivity. Qed.

Lemma land_255 (v : N) : N.land v 255 = (v mod 256)%N.
Proof. change 255%N with (N.ones 8). rewrite N.land_ones. reflexivity. Qed.

Lemma byte_of_N_to_N (b : byte) (v : N) :
  (v mod 256 = Byte.to_N b)%N -> byte_of_N v = b.
Proof.
  intros H. unfold byte_of_N. rewrite land_255, H, Byte.of_to_N. reflexivity.
Qed.

(** Shifts and masks of the codec as arithmetic. *)
Ltac shifts_to_arith :=
  rewrite ?N.shiftr_div_pow2, ?N.shiftl_mul_pow2, ?land_63, ?land_255;
  change (2 ^ 18)%N with 262144%N; change (2 ^ 16)%N with 65536%N;
  change (2 ^ 12)%N with 4096%N; change (2 ^ 8)%N with 256%N;
  change (2 ^ 6)%N with 64%N; change (2 ^ 0)%N with 1%N.

Definition six (v shift : N) : N := N.land (N.shiftr v shift) 63.

Lemma six_lt v shift : (six v shift < 64)%N.
Proof. unfold six. rewrite land_63. apply N.mod_upper_bound. lia. Qed.

Lemma quantumVal_arith (s0 s1 s2 s3 : N) :
  (s0 < 64)%N -> (s1 < 64)%N -> (s2 < 64)%N -> (s3 < 64)%N ->
  N.lor (N.lor (N.lor (N.shiftl s0 18) (N.shiftl s1 12)) (N.shiftl s2 6)) s3
  = (s0 * 262144 + s1 * 4096 + s2 * 64 + s3)%N.
Proof.
  intros H0 H1 H2 H3. shifts_to_arith.
  rewrite (lor_disjoint_add (s0 * 262144) (s1 * 4096) 18).
  2:{ change (2 ^ 18)%N with 262144%N. apply N.Div0.mod_mul. }
  2:{ change (2 ^ 18)%N with 262144%N. lia. }
  rewrite (lor_disjoint_add _ (s2 * 64) 12).
  2:{ change (2 ^ 12)%N with 4096%N.
      replace (s0 * 262144 + s1 * 4096)%N with ((s0 * 64 + s1) * 4096)%N by lia.
      apply N.Div0.mod_mul. }
  2:{ change (2 ^ 12)%N with 4096%N. lia. }
  rewrite (lor_disjoint_add _ s3 6).
  2:{ change (2 ^ 6)%N with 64%N.
      replace (s0 * 262144 + s1 * 4096 + s2 * 64)%N
        with ((s0 * 4096 + s1 * 64 + s2) * 64)%N by lia.
      apply N.Div0.mod_mul. }
  2:{ exact H3. }
  reflexivity.
Qed.

Lemma val3_arith (b0 b1 b2 : byte) :
  N.lor (N.lor (N.shiftl (Byte.to_N b0) 16) (N.shiftl (Byte.to_N b1) 8))
        (Byte.to_N b2)
  = (Byte.to_N b0 * 65536 + Byte.to_N b1 * 256 + Byte.to_N b2)%N.
Proof.
  pose proof (Byte.to_N_bounded b0). pose proof (Byte.to_N_bounded b1).
  pose proof (Byte.to_N_bounded b2). shifts_to_arith.
  rewrite (lor_disjoint_add (_ * 65536) (_ * 256) 16).
  2:{ change (2 ^ 16)%N with 65536%N. apply N.Div0.mod_mul. }
  2:{ change (2 ^ 16)%N with 65536%N. lia. }
  rewrite (lor_disjoint_add _ (Byte.to_N b2) 8).
  2:{ change (2 ^ 8)%N with 256%N.
      replace (Byte.to_N b0 * 65536 + Byte.to_N b1 * 256)%N
        with ((Byte.to_N b0 * 256 + Byte.to_N b1) * 256)%N by lia.
      apply N.Div0.mod_mul. }
  2:{ change (2 ^ 8)%N with 256%N. lia. }
  reflexivity.
Qed.

Ltac divmod_lia := zify; Z.to_euclidean_division_equations; lia.

Lemma six_recompose_4 (v : N) :
  (v < 16777216)%N ->
  (six v 18 * 262144 + six v 12 * 4096 + six v 6 * 64 + six v 0 = v)%N.
Proof. intros H. unfold six. shifts_to_arith. divmod_lia. Qed.

Lemma six_recompose_3 (v : N) :
  (v < 16777216)%N ->
  (six v 18 * 262144 + six v 12 * 4096 + six v 6 * 64 + 0 = v / 64 * 64)%N.
Proof. intros H. unfold six. shifts_to_arith. divmod_lia. Qed.

Lemma six_recompose_2 (v : N) :
  (v < 16777216)%N ->
  (six v 18 * 262144 + six v 12 * 4096 + 0 * 64 + 0 = v / 4096 * 4096)%N.
Proof. intros H. unfold six. shifts_to_arith. divmod_lia. Qed.

Lemma quantumBytes_4 (b0 b1 b2 : byte) (v : N) :
  v = (Byte.to_N b0 * 65536 + Byte.to_N b1 * 256 + Byte.to_N b2)%N ->
  quantumBytes [six v 18; six v 12; six v 6; six v 0] = [b0; b1; b2].
Proof.
  intros Hv.
  pose proof (Byte.to_N_bounded b0). pose proof (Byte.to_N_bounded b1).
  pose proof (Byte.to_N_bounded b2).
  unfold quantumBytes, quantumVal. cbn [nth length Nat.sub take].
  rewrite quantumVal_arith by apply six_lt.
  rewrite six_recompose_4 by lia.
  f_equal; [|f_equal; [|f_equal]]; apply byte_of_N_to_N; subst v;
    shifts_to_arith; divmod_lia.
Qed.

Lemma quantumBytes_3 (b0 b1 : byte) (v : N) :
  v = (Byte.to_N b0 * 65536 + Byte.to_N b1 * 256)%N ->
  quantumBytes [six v 18; six v 12; six v 6] = [b0; b1].
Proof.
  intros Hv.
  pose proof (Byte.to_N_bounded b0). pose proof (Byte.to_N_bounded b1).
  unfold quantumBytes, quantumVal. cbn [nth length Nat.sub take].
  rewrite quantumVal_arith by (apply six_lt || lia).
  rewrite six_recompose_3 by lia.
  f_equal; [|f_equal]; apply byte_of_N_to_N; subst v;
    shifts_to_arith; divmod_lia.
Qed.

Lemma quantumBytes_2 (b0 : byte) (v : N) :
  v = (Byte.to_N b0 * 65536)%N ->
  quantumBytes [six v 18; six v 12] = [b0].
Proof.
  intros Hv. pose proof (Byte.to_N_bounded b0).
  unfold quantumBytes, quantumVal. cbn [nth length Nat.sub take].
  rewrite quantumVal_arith by (apply six_lt || lia).
  rewrite six_recompose_2 by lia.
  f_equal; apply byte_of_N_to_N; subst v; shifts_to_arith; divmod_lia.
Qed.

Lemma decodeFrom_sextet (val shift : N) rest dbuf dst :
  decodeFrom (String (sextet val shift) rest) dbuf dst
  = if (length (dbuf ++ [six val shift]) =? 4)%nat
    then decodeFrom rest [] (dst ++ quantumBytes (dbuf ++ [six val shift]))
    else decodeFrom rest (dbuf ++ [six val shift]) dst.
Proof.
  cbn [decodeFrom]. unfold sextet. fold (six val shift).
  rewrite decodeMap_encodeAt by apply six_lt. reflexivity.
Qed.

Lemma decodeFrom_pad_2 (s0 s1 : N) dst :
  decodeFrom (String padChar (String padChar EmptyString)) [s0; s1] dst
  = (dst ++ quantumBytes [s0; s1], false).
Proof. reflexivity. Qed.

Lemma decodeFrom_pad_3 (s0 s1 s2 : N) dst :
  decodeFrom (String padChar EmptyString) [s0; s1; s2] dst
  = (dst ++ quantumBytes [s0; s1; s2], false).
Proof. reflexivity. Qed.

(** Induction over a byte string three bytes at a time, the way the
    encoder consumes it. *)
Lemma bytes_ind3 (P : bytes -> Prop) :
  P [] -> (forall a, P [a]) -> (forall a b, P [a; b]) ->
  (forall a b c l, P l -> P (a :: b :: c :: l)) ->
  forall l, P l.
Proof.
  intros H0 H1 H2 H3 l.
  enough (P l /\ (forall a, P (a :: l)) /\ (forall a b, P (a :: b :: l)))
    by tauto.
  induction l as [|x l (IHa & IHb & IHc)]; [auto|].
  repeat split; auto.
Qed.

Lemma decodeFrom_EncodeToString (src : bytes) :
  forall dst, decodeFrom (EncodeToString src) [] dst = (dst ++ src, false).
Proof.
  induction src as [|b0|b0 b1|b0 b1 b2 rest IH] using bytes_ind3; intros dst.
  - cbn. rewrite app_nil_r. reflexivity.
  - cbn [EncodeToString string_of_chars fold_right].
    rewrite !decodeFrom_sextet. cbn [app length Nat.eqb].
    rewrite decodeFrom_pad_2, (quantumBytes_2 b0).
    + reflexivity.
    + rewrite N.shiftl_mul_pow2. reflexivity.
  - cbn [EncodeToString string_of_chars fold_right].
    rewrite !decodeFrom_sextet. cbn [app length Nat.eqb].
    rewrite decodeFrom_pad_3, (quantumBytes_3 b0 b1).
    + reflexivity.
    + pose proof (val3_arith b0 b1 x00) as Hv. cbn [Byte.to_N] in Hv.
      rewrite N.lor_0_r, N.add_0_r in Hv. exact Hv.
  - cbn [EncodeToString].
    rewrite !decodeFrom_sextet. cbn [app length Nat.eqb].
    rewrite (quantumBytes_4 b0 b1 b2) by apply val3_arith.
    rewrite IH, <- app_assoc. reflexivity.
Qed.

(** Decoding an encoded byte string gives it back, without error. *)
Lemma DecodeString_EncodeToString (src : bytes) :
  DecodeString (EncodeToString src) = (src, false).
Proof. unfold DecodeString. apply decodeFrom_EncodeToString. Qed.

End Base64Facts.

(** ** Transactions *)

(** C6. The ID [NewTransaction] sets is the SHA-256 digest of the encoding
    of the inputs and the outputs (the [hashable] value, whose timestamp
    stays zero): the same inputs and outputs give the same ID whatever
    the time of the call, and the transaction's [Timestamp] has no part
    in it. *)
Theorem NewTransaction_ID_digest_of_inputs_outputs
  (digest : Digest) (inputs : Inputs) (outputs : Outputs) (now now' : Z) :
  NewTransaction now inputs outputs
  = match json_Marshal (hashable.mk inputs outputs 0) with
    | Ok raw => Ok (Transaction.mk (sha256_Sum256 raw) inputs outputs now)
    | Err err => Err (Wrap (Wrap err "Failed to serialize data %#v")
                        "Failed to create id")
    end
  /\ result_map Transaction.ID (NewTransaction now inputs outputs)
     = result_map Transaction.ID (NewTransaction now' inputs outputs).
Proof.
  unfold NewTransaction, newID, hash.
  destruct (json_Marshal _) as [raw | err]; split; reflexivity.
Qed.

Example NewTransaction_fixture :
  result_map Transaction.ID
    (@NewTransaction Fixture.digest 1700000000 [] [Output.mk 1 Fixture.bob])
  = Ok [x53; x7c; x2b].
Proof. reflexivity. Qed.

(** *** [VerifyTransactions] *)

Lemma bytes_differ_true (a b : bytes) : bytes_differ a b = true <-> a <> b.
Proof. unfold bytes_differ. apply bool_decide_eq_true. Qed.

Lemma bytes_differ_false (a b : bytes) : bytes_differ a b = false <-> a = b.
Proof.
  unfold bytes_differ. rewrite bool_decide_eq_false.
  split; [apply dec_stable | auto].
Qed.

Lemma Outputs_Find_found (outs : Outputs) (sender : bytes) (receiver : Output.t) :
  Outputs_Find outs
    (fun o => bytes_differ (Output.PublicKeyHash o) sender) = (receiver, true)
  <-> pairedOutput outs sender receiver.
Proof.
  induction outs as [|out outs IH]; cbn [Outputs_Find].
  - split; [discriminate|].
    intros (before & after & Heq & _). destruct before; discriminate.
  - destruct (bytes_differ (Output.PublicKeyHash out) sender) eqn:Hd.
    + apply bytes_differ_true in Hd. split.
      * intros [= <-]. exists [], outs. auto.
      * intros (before & after & Heq & Hne & Hall).
        destruct before as [|o before]; cbn in Heq.
        -- injection Heq as -> _. reflexivity.
        -- injection Heq as -> _. apply Forall_cons in Hall as [Ho _].
           contradiction.
    + apply bytes_differ_false in Hd. rewrite IH. split.
      * intros (before & after & -> & Hne & Hall).
        exists (out :: before), after. auto.
      * intros (before & after & Heq & Hne & Hall).
        destruct before as [|o before]; cbn in Heq.
        -- injection Heq as -> _. contradiction.
        -- injection Heq as _ ->. apply Forall_cons in Hall as [_ Hall].
           exists before, after. auto.
Qed.

Lemma Outputs_Find_not_found (outs : Outputs) (criteria : Output.t -> bool) o :
  Outputs_Find outs criteria = (o, false) ->
  Forall (fun o => criteria o = false) outs.
Proof.
  induction outs as [|out outs IH]; cbn [Outputs_Find]; [constructor|].
  destruct (criteria out) eqn:Hc; [discriminate|]. auto.
Qed.

Lemma verifyInput_true getTransactionUTXO verifier transaction input :
  verifyInput getTransactionUTXO verifier transaction input = true
  <-> inputPasses getTransactionUTXO verifier transaction input.
Proof.
  unfold verifyInput, inputPasses.
  destruct (Outputs_Find _ _) as [receiver found] eqn:Hfind.
  destruct found; cbn [negb].
  - apply Outputs_Find_found in Hfind.
    assert (Huniq : forall r, pairedOutput (Transaction.Outputs transaction)
                                (Input.PublicKeyHash input) r -> r = receiver).
    { intros r Hr. apply Outputs_Find_found in Hr, Hfind. congruence. }
    destruct (getTransactionUTXO _ _) as [[utxo|]|err] eqn:Hget.
    + destruct (verifier _ _ _) as [ok [e|]] eqn:Hver.
      * split; [discriminate|]. intros (r & u & Hr & [= <-] & Hv).
        rewrite (Huniq r Hr) in Hv. congruence.
      * split.
        -- intros ->. eauto.
        -- intros (r & u & Hr & [= <-] & Hv).
           rewrite (Huniq r Hr) in Hv. congruence.
    + split; [discriminate|]. intros (r & u & _ & [=] & _).
    + split; [discriminate|]. intros (r & u & _ & [=] & _).
  - split; [discriminate|]. intros (r & u & Hr & _).
    apply Outputs_Find_found in Hr. congruence.
Qed.

(** C1 (as the code has it). The verifier accepts a transaction exactly
    when every input passes three checks: there is a first output whose
    [PublicKeyHash] differs from the input's, the referenced UTXO is
    found without error, and the signature verifies with the input's
    [Verifier] over [{Recipient, Sender, Value}].  It returns [false] as
    soon as one input fails one of them.  That the [Verifier] hashes to
    the input's [PublicKeyHash] is not among the checks. *)
Theorem VerifyTransactions_true_iff
  (getTransactionUTXO : GetTransactionUTXO) (verifier : VerifierFn)
  (transaction : Transaction.t) :
  VerifyTransactions getTransactionUTXO verifier transaction = true
  <-> Forall (inputPasses getTransactionUTXO verifier transaction)
        (Transaction.Inputs transaction).
Proof.
  unfold VerifyTransactions.
  induction (Transaction.Inputs transaction) as [|input inputs IH];
    cbn [verifyInputs].
  - split; [constructor | reflexivity].
  - rewrite Forall_cons, <- IH, <- verifyInput_true.
    destruct (verifyInput _ _ _ _); [tauto|].
    split; [discriminate | intros [[=] _]].
Qed.

(** C1, the claim as stated fails: a transaction whose input carries a
    [Verifier] that does not hash to the input's [PublicKeyHash] is
    accepted as soon as the signature verifies. *)
Lemma VerifyTransactions_ignores_verifier_hash :
  ~ (forall (HashedPublicKey : bytes -> bytes)
            (getTransactionUTXO : GetTransactionUTXO) (verifier : VerifierFn)
            (transaction : Transaction.t),
        (exists input,
            In input (Transaction.Inputs transaction)
            /\ HashedPublicKey (Input.Verifier input)
               <> Input.PublicKeyHash input) ->
        VerifyTransactions getTransactionUTXO verifier transaction = false).
Proof.
  intros H.
  pose (input := Input.mk Fixture.txA 0 Fixture.alice
                   (Fixture.alice ++ Fixture.bob) Fixture.carol).
  specialize (H (fun pk => pk)
                (fun _ _ => Ok (Some (UTXO.mk Fixture.txA Fixture.alice 10 0)))
                Fixture.verifier
                (Transaction.mk Fixture.txB [input]
                   [Output.mk 1 Fixture.bob; Output.mk 9 Fixture.alice] 0)).
  assert (Hacc : exists i, In i [input]
                   /\ Input.Verifier i <> Input.PublicKeyHash i).
  { exists input. split; [left; reflexivity | discriminate]. }
  specialize (H Hacc). vm_compute in H. discriminate.
Qed.

(** ** The signed envelopes *)

Lemma members_signablePing (p : Ping.t) :
  json.members (signablePing p)
  = [("body"%string, json.RawMessage (Ping.Body p))]
    ++ (if String.eqb (Ping.Sender p) EmptyString then []
        else [("sender"%string, json.String_ (Ping.Sender p))])
    ++ (if Ping.Message p =? 0 then []
        else [("message"%string, json.Int_ (Ping.Message p))]).
Proof.
  unfold json.members, signablePing. cbn.
  destruct (String.eqb _ _), (Ping.Message p =? 0); reflexivity.
Qed.

Lemma members_signablePong (p : Pong.t) :
  json.members (signablePong p)
  = [("body"%string, json.Encoded (Pong.Body p))]
    ++ (if String.eqb (Pong.Sender p) EmptyString then []
        else [("sender"%string, json.String_ (Pong.Sender p))])
    ++ [("message"%string, json.Int_ (Pong.Message p))].
Proof.
  unfold json.members, signablePong. cbn.
  destruct (String.eqb _ _); reflexivity.
Qed.

(** The keys of the members [Signable()] writes, in the order of the
    struct declaration: [body], then [sender], then [message]; [sender]
    is left out when empty, and for a [Ping] [message] is left out when
    zero.  There is no [signature] among them. *)
Lemma Signable_keys_body_sender_message
  (text : json.Text) (ping : Ping.t) (pong : Pong.t) :
  Ping_Signable ping
  = json.Marshal (signablePing ping)
  /\ Pong_Signable pong
     = json.Marshal (signablePong pong)
  /\ json.keys (signablePing ping)
     = ["body"%string]
       ++ (if String.eqb (Ping.Sender ping) EmptyString then []
           else ["sender"%string])
       ++ (if Ping.Message ping =? 0 then [] else ["message"%string])
  /\ json.keys (signablePong pong)
     = ["body"%string]
       ++ (if String.eqb (Pong.Sender pong) EmptyString then []
           else ["sender"%string])
       ++ ["message"%string]
  /\ ~ In "signature"%string (json.keys (signablePing ping))
  /\ ~ In "signature"%string (json.keys (signablePong pong)).
Proof.
  unfold json.keys. rewrite members_signablePing, members_signablePong.
  repeat split; try reflexivity.
  - destruct (String.eqb _ _), (Ping.Message ping =? 0); reflexivity.
  - destruct (String.eqb _ _); reflexivity.
  - destruct (String.eqb _ _), (Ping.Message ping =? 0); cbn;
      intuition discriminate.
  - destruct (String.eqb _ _); cbn; intuition discriminate.
Qed.

(** *** The text of the payload *)













(** ** The [BlockForged] handler *)

Lemma BlockForged_GetHeight_fails unmarshalBody verifyBlock addNewBlock
  ping body err :
  unmarshalBody (Ping.Body ping) = Ok body ->
  BlockForged unmarshalBody (Err err) verifyBlock addNewBlock ping
  = Err (Wrap err "Failed to get height").
Proof. intros Hbody. unfold BlockForged. rewrite Hbody. reflexivity. Qed.

Lemma BlockForged_height_too_low unmarshalBody verifyBlock addNewBlock
  ping body height :
  unmarshalBody (Ping.Body ping) = Ok body ->
  GoInt.add height 1 < blockForgedBody.Height body ->
  BlockForged unmarshalBody (Ok height) verifyBlock addNewBlock ping
  = Err (Errorf "Blockchain height is too low %d").
Proof.
  intros Hbody Hlow. unfold BlockForged. rewrite Hbody. cbn.
  apply Z.ltb_lt in Hlow. rewrite Hlow. reflexivity.
Qed.

(** C8 (as the code has it). For a block-forged message whose body
    parses, once the chain height has been read and the announced height
    is at most that height plus one, the handler replies with a
    disconnect Pong when the block fails [VerifyBlock] or when
    [AddNewBlock] returns [InvalidBlock] (no error is returned), and
    with a no-action Pong when [AddNewBlock] succeeds; another error of
    [AddNewBlock] is returned wrapped. *)
Theorem BlockForged_replies
  (unmarshalBody : option bytes -> result blockForgedBody.t)
  (GetHeight : result Z) (verifyBlock : Block.t -> bool)
  (addNewBlock : Block.t -> option error)
  (ping : Ping.t) (body : blockForgedBody.t) (height : Z) :
  unmarshalBody (Ping.Body ping) = Ok body ->
  GetHeight = Ok height ->
  blockForgedBody.Height body <= GoInt.add height 1 ->
  let block := blockForgedBody.Block body in
  let reply := BlockForged unmarshalBody GetHeight verifyBlock addNewBlock ping in
  (verifyBlock block = false -> reply = Ok NewDisconnectPong)
  /\ (forall err, verifyBlock block = true -> addNewBlock block = Some err ->
        errors_Is err ErrInvalidBlock = true -> reply = Ok NewDisconnectPong)
  /\ (verifyBlock block = true -> addNewBlock block = None ->
        reply = Ok NewNoActionPong)
  /\ (forall err, verifyBlock block = true -> addNewBlock block = Some err ->
        errors_Is err ErrInvalidBlock = false ->
        reply = Err (Wrap err "Failed to add new block to blockchain")).
Proof.
  intros Hbody Hheight Hle block reply. subst block reply.
  unfold BlockForged. rewrite Hbody, Hheight. cbn [wrapErr rbind].
  apply Z.ltb_ge in Hle. rewrite Hle.
  repeat split.
  - intros ->. reflexivity.
  - intros err -> -> ->. reflexivity.
  - intros -> ->. reflexivity.
  - intros err -> -> ->. reflexivity.
Qed.

Lemma BlockForged_replies_witness :
  (fun _ : option bytes => Ok (Fixture.forgedBody 1))
    (Ping.Body Fixture.forgedPing) = Ok (Fixture.forgedBody 1)
  /\ Ok 0 = Ok 0
  /\ blockForgedBody.Height (Fixture.forgedBody 1) <= GoInt.add 0 1
  /\ BlockForged (fun _ => Ok (Fixture.forgedBody 1)) (Ok 0)
       (fun _ => true) (fun _ => Some (Wrap ErrInvalidBlock "tip moved"))
       Fixture.forgedPing
     = Ok NewDisconnectPong.
Proof.
  assert (Hle : blockForgedBody.Height (Fixture.forgedBody 1) <= GoInt.add 0 1)
    by (vm_compute; discriminate).
  split; [reflexivity|]. split; [reflexivity|]. split; [exact Hle|].
  exact (proj1 (proj2
    (BlockForged_replies (fun _ => Ok (Fixture.forgedBody 1)) (Ok 0)
       (fun _ => true) (fun _ => Some (Wrap ErrInvalidBlock "tip moved"))
       Fixture.forgedPing (Fixture.forgedBody 1) 0 eq_refl eq_refl Hle))
    (Wrap ErrInvalidBlock "tip moved") eq_refl eq_refl eq_refl).
Defined.

(** C8, the claim as stated fails: a block that fails [VerifyBlock] but
    announces a height beyond the next one is answered with an error, not
    with a disconnect Pong. *)
Lemma BlockForged_height_check_comes_first :
  ~ (forall (unmarshalBody : option bytes -> result blockForgedBody.t)
            (GetHeight : result Z) (verifyBlock : Block.t -> bool)
            (addNewBlock : Block.t -> option error)
            (ping : Ping.t) (body : blockForgedBody.t),
        unmarshalBody (Ping.Body ping) = Ok body ->
        verifyBlock (blockForgedBody.Block body) = false ->
        BlockForged unmarshalBody GetHeight verifyBlock addNewBlock ping
        = Ok NewDisconnectPong).
Proof.
  intros H.
  specialize (H (fun _ => Ok (Fixture.forgedBody 5)) (Ok 0) (fun _ => false)
                (fun _ => None) Fixture.forgedPing (Fixture.forgedBody 5)
                eq_refl eq_refl).
  vm_compute in H. discriminate.
Qed.

(** *** [NewStakeTransaction] *)

Section StakeFacts.
Context {digest : Digest} {signer : Signer}.
Variables (stakeCreator : Wallet.t) (stakeholder : bytes) (target : Z).

Lemma runningSum_in_range (utxos : UTXOs) (sum : Z) :
  GoInt.in_range sum -> GoInt.in_range (runningSum sum utxos).
Proof.
  revert sum. induction utxos as [|u utxos IH]; intros sum Hsum; [exact Hsum|].
  apply IH, GoIntFacts.wrap_in_range.
Qed.

Lemma UTXOs_Sum_in_range (utxos : UTXOs) : GoInt.in_range (UTXOs_Sum utxos).
Proof. apply runningSum_in_range. unfold GoInt.in_range. lia. Qed.

Lemma stakeInputs_Ok (utxos : UTXOs) :
  forall sum inputs sum' inputs',
    stakeInputs stakeCreator stakeholder target utxos sum inputs
    = Ok (sum', inputs') ->
    exists consumed rest news,
      utxos = consumed ++ rest
      /\ sum' = runningSum sum consumed
      /\ inputs' = inputs ++ news
      /\ Forall2 (stakeInputOf stakeCreator stakeholder) consumed news
      /\ (rest = [] \/ (consumed <> [] /\ target <= sum'))
      /\ forall before after,
           consumed = before ++ after -> before <> [] -> after <> [] ->
           runningSum sum before < target.
Proof.
  induction utxos as [|utxo utxos IH]; intros sum inputs sum' inputs' Hrun.
  - injection Hrun as <- <-. exists [], [], [].
    rewrite !app_nil_r. repeat split; auto.
    intros before after Heq Hb _. destruct before; [congruence | discriminate].
  - cbn [stakeInputs] in Hrun.
    destruct (SignRaw _) as [signature | err] eqn:Hsign; [|discriminate].
    pose (input := Input.mk (UTXO.TransactionID utxo) (UTXO.Vout utxo)
                     (Wallet.PublicKeyHash stakeCreator) signature
                     (Wallet.PublicKey stakeCreator)).
    fold input in Hrun.
    destruct (GoInt.add sum (UTXO.Value utxo) >=? target) eqn:Hge.
    + injection Hrun as <- <-. exists [utxo], utxos, [input].
      repeat split; auto.
      * constructor; [|constructor]. exists signature. auto.
      * right. split; [discriminate|]. rewrite Z.geb_leb in Hge. lia.
      * intros before after Heq Hb Ha.
        destruct before as [|b [|b' before]]; try congruence;
          destruct after; try congruence; discriminate.
    + apply IH in Hrun
        as (consumed & rest & news & -> & -> & -> & Hall & Hstop & Hmin).
      exists (utxo :: consumed), rest, (input :: news).
      repeat split; auto.
      * rewrite <- app_assoc. reflexivity.
      * constructor; [|exact Hall]. exists signature. auto.
      * destruct Hstop as [-> | [_ Hle]]; [left; reflexivity|].
        right. split; [discriminate | exact Hle].
      * intros before after Heq Hb Ha.
        destruct before as [|b before]; [congruence|].
        injection Heq as <- ->. cbn [runningSum fold_left].
        destruct before as [|b' before].
        -- cbn. rewrite Z.geb_leb in Hge. lia.
        -- apply (Hmin (b' :: before) after eq_refl); [discriminate | exact Ha].
Qed.

Lemma stakeInputs_signs (utxos : UTXOs) :
  (forall s, exists signature, SignRaw s = Ok signature) ->
  forall sum inputs,
    exists sum' inputs',
      stakeInputs stakeCreator stakeholder target utxos sum inputs
      = Ok (sum', inputs').
Proof.
  intros Hsigner. induction utxos as [|utxo utxos IH]; intros sum inputs.
  - eauto.
  - cbn [stakeInputs].
    destruct (Hsigner (signable.mk stakeholder
                         (Wallet.PublicKeyHash stakeCreator)
                         (UTXO.Value utxo))) as [signature ->].
    destruct (_ >=? target); eauto.
Qed.

Lemma stakeInputs_Err (utxos : UTXOs) :
  forall sum inputs err,
    stakeInputs stakeCreator stakeholder target utxos sum inputs = Err err ->
    exists cause msg, err = Wrap cause msg.
Proof.
  induction utxos as [|utxo utxos IH]; intros sum inputs err Hrun;
    [discriminate|].
  cbn [stakeInputs] in Hrun.
  destruct (SignRaw _) as [signature | e]; [|injection Hrun as <-; eauto].
  destruct (_ >=? target); [discriminate | eauto].
Qed.

End StakeFacts.

Lemma quot_2_in_range (T : Z) :
  GoInt.in_range T -> GoInt.quot T 2 = Z.quot T 2.
Proof.
  intros HT. unfold GoInt.quot. apply GoIntFacts.wrap_small.
  unfold GoInt.in_range in *. Z.to_euclidean_division_equations. lia.
Qed.

(** C4. With [T] the total of the stake creator's UTXOs and
    [target = T / 2] (integer division), [NewStakeTransaction] fails with
    [CantForge] exactly when [target < 5]; a transaction it returns
    spends the shortest prefix of the UTXOs, in index order, whose
    running sum reaches [target], pays [target] to the stakeholder and,
    exactly when the sum exceeds [target], the difference back to the
    stake creator, so that the outputs total the consumed inputs; and it
    does return a transaction when [target >= 5], the signer signs and
    the encoder encodes. *)
Theorem NewStakeTransaction_stakes_half
  (digest : Digest) (signer : Signer) (getUTXOs : GetUTXOsByPublicKeyFn)
  (stakeCreator : Wallet.t) (stakeholder : bytes) (now : Z) (utxos : UTXOs) :
  getUTXOs (Wallet.PublicKeyHash stakeCreator) = Ok utxos ->
  let target := Z.quot (UTXOs_Sum utxos) 2 in
  let r := NewStakeTransaction getUTXOs stakeCreator stakeholder now in
  (r = Err ErrCantForge <-> target < 5)
  /\ (forall tr, r = Ok tr ->
        exists consumed,
          shortestPrefixReaching target utxos consumed
          /\ Forall2 (stakeInputOf stakeCreator stakeholder) consumed
               (Transaction.Inputs tr)
          /\ Transaction.Outputs tr
             = Output.mk target stakeholder
               :: (if target <? UTXOs_Sum consumed
                   then [Output.mk (UTXOs_Sum consumed - target)
                           (Wallet.PublicKeyHash stakeCreator)]
                   else [])
          /\ Outputs_Sum (Transaction.Outputs tr) = UTXOs_Sum consumed)
  /\ (5 <= target ->
      (forall s, exists signature, SignRaw s = Ok signature) ->
      (forall h, exists raw, json_Marshal h = Ok raw) ->
      exists tr, r = Ok tr).
Proof.
  intros Hget target r. subst r. unfold NewStakeTransaction. rewrite Hget.
  rewrite (quot_2_in_range _ (UTXOs_Sum_in_range utxos)). fold target.
  change (GoInt.quot VoteValue 2) with 5.
  destruct (target <? 5) eqn:Hlow.
  { apply Z.ltb_lt in Hlow. repeat split; auto; try discriminate. lia. }
  apply Z.ltb_ge in Hlow.
  destruct (stakeInputs stakeCreator stakeholder target utxos 0 [])
    as [[sum inputs] | err] eqn:Hloop.
  - apply stakeInputs_Ok in Hloop
      as (consumed & rest & news & Hutxos & Hsum & Hinputs & Hall & Hstop & Hmin).
    cbn [app] in Hinputs. subst inputs.
    change (runningSum 0 consumed) with (UTXOs_Sum consumed) in Hsum.
    assert (Hreach : consumed <> [] /\ target <= sum).
    { destruct Hstop as [-> | Hreach]; [|exact Hreach].
      rewrite app_nil_r in Hutxos. subst consumed sum.
      split.
      - intros ->. subst target. change (UTXOs_Sum []) with 0 in Hlow.
        rewrite Z.quot_0_l in Hlow by lia. lia.
      - subst target. pose proof (UTXOs_Sum_in_range utxos) as Hr.
        unfold GoInt.in_range in Hr.
        change (runningSum 0 utxos) with (UTXOs_Sum utxos).
        revert Hlow. Z.to_euclidean_division_equations. lia. }
    destruct Hreach as [Hne Hle].
    assert (Hrange : GoInt.in_range sum)
      by (subst sum; apply UTXOs_Sum_in_range).
    assert (Hsub : GoInt.sub sum target = sum - target).
    { apply GoIntFacts.wrap_small. unfold GoInt.in_range in *. lia. }
    unfold NewTransaction, newID, hash.
    split; [split; [destruct (sum >? target), (json_Marshal _); discriminate
                   | lia]|].
    split.
    + intros tr Htr. exists consumed.
      assert (Hshort : shortestPrefixReaching target utxos consumed).
      { split; [eauto|]. split; [exact Hne|]. split; [lia|].
        intros before after Heq Hb Ha. apply (Hmin before after Heq Hb Ha). }
      rewrite Z.gtb_ltb in Htr. rewrite <- Hsum.
      destruct (target <? sum) eqn:Hgt;
        destruct (json_Marshal _) as [raw | e]; try discriminate;
        injection Htr as <-; cbn [Transaction.Inputs Transaction.Outputs];
        (split; [exact Hshort|]); (split; [exact Hall|]); split.
      * cbn [app]. rewrite Hsub. reflexivity.
      * unfold Outputs_Sum. cbn [app fold_left Output.Value].
        rewrite Hsub. unfold GoInt.add. rewrite Z.add_0_l.
        unfold GoInt.in_range in *.
        rewrite (GoIntFacts.wrap_small target)
          by (unfold GoInt.in_range; lia).
        replace (target + (sum - target)) with sum by lia.
        apply GoIntFacts.wrap_small. unfold GoInt.in_range. lia.
      * reflexivity.
      * unfold Outputs_Sum. cbn [fold_left Output.Value].
        apply Z.ltb_ge in Hgt.
        unfold GoInt.add. rewrite Z.add_0_l.
        replace target with sum by lia. apply GoIntFacts.wrap_small.
        unfold GoInt.in_range in *. lia.
    + intros _ _ Hmarshal.
      destruct (Hmarshal (hashable.mk news
                  (if sum >? target
                   then [Output.mk target stakeholder]
                        ++ [Output.mk (GoInt.sub sum target)
                              (Wallet.PublicKeyHash stakeCreator)]
                   else [Output.mk target stakeholder]) 0)) as [raw ->].
      eauto.
  - split; [split; [|lia]|].
    + intros Herr. apply stakeInputs_Err in Hloop as (cause & msg & ->).
      discriminate.
    + split; [discriminate|].
      intros _ Hsigner _.
      destruct (stakeInputs_signs stakeCreator stakeholder target utxos
                  Hsigner 0 []) as (sum & inputs & Hok).
      congruence.
Qed.

Lemma NewStakeTransaction_stakes_half_witness :
  Fixture.getMasterUTXOs (Wallet.PublicKeyHash Fixture.master)
  = Ok Fixture.masterUTXOs
  /\ (@NewStakeTransaction Fixture.digest Fixture.signer
        Fixture.getMasterUTXOs Fixture.master Fixture.bob 1700000000
      = Err ErrCantForge
      <-> 11 < 5).
Proof.
  split; [reflexivity|].
  exact (proj1 (NewStakeTransaction_stakes_half Fixture.digest Fixture.signer
                  Fixture.getMasterUTXOs Fixture.master Fixture.bob
                  1700000000 Fixture.masterUTXOs eq_refl)).
Defined.

Example NewStakeTransaction_fixture :
  result_map Transaction.Outputs
    (@NewStakeTransaction Fixture.digest Fixture.signer
       Fixture.getMasterUTXOs Fixture.master Fixture.bob 1700000000)
  = Ok [Output.mk 11 Fixture.bob; Output.mk 2 Fixture.alice]
  /\ result_map (fun tr => length (Transaction.Inputs tr))
       (@NewStakeTransaction Fixture.digest Fixture.signer
          Fixture.getMasterUTXOs Fixture.master Fixture.bob 1700000000)
     = Ok 2%nat.
Proof. split; vm_compute; reflexivity. Qed.

(** ** The bolt store *)
Module boltFacts.
Import bolt.

Lemma hasBucket_true (tx : boltTx) (name : bytes) :
  hasBucket tx name = true <-> exists b, tx !! name = Some b.
Proof. unfold hasBucket. rewrite bool_decide_eq_true. reflexivity. Qed.

Lemma hasBucket_false (tx : boltTx) (name : bytes) :
  hasBucket tx name = false <-> tx !! name = None.
Proof.
  unfold hasBucket. rewrite bool_decide_eq_false, <- eq_None_not_Some.
  reflexivity.
Qed.

Lemma Get_Some_hasBucket (tx : boltTx) (name key : bytes) (v : document) :
  Get tx name key = Some v -> hasBucket tx name = true.
Proof.
  unfold Get. intros H. apply hasBucket_true.
  destruct (tx !! name); [eauto | discriminate].
Qed.

Lemma Put_Ok (tx tx' : boltTx) (name key : bytes) (v : document) :
  Put tx name key v = Ok tx' ->
  key <> [] /\ exists b, tx !! name = Some b /\ tx' = <[name := <[key := v]> b]> tx.
Proof.
  unfold Put. intros H.
  destruct (bool_decide (key = [])) eqn:Hk; [discriminate|].
  apply bool_decide_eq_false in Hk.
  destruct (MaxKeySize <? _); [discriminate|].
  destruct (tx !! name) as [b|]; [|discriminate].
  injection H as <-. eauto.
Qed.

Lemma Put_succeeds (tx : boltTx) (name key : bytes) (v : document) :
  hasBucket tx name = true -> key <> [] ->
  Z.of_nat (length key) <= MaxKeySize ->
  exists tx', Put tx name key v = Ok tx'.
Proof.
  intros Hb Hk Hlen. apply hasBucket_true in Hb as [b Hb]. unfold Put.
  rewrite bool_decide_eq_false_2 by exact Hk.
  apply Z.ltb_ge in Hlen. rewrite Hlen, Hb. eauto.
Qed.

Lemma Put_Get_same (tx tx' : boltTx) (name key : bytes) (v : document) :
  Put tx name key v = Ok tx' -> Get tx' name key = Some v.
Proof.
  intros H. apply Put_Ok in H as (_ & b & _ & ->).
  unfold Get. rewrite lookup_insert_eq. apply lookup_insert_eq.
Qed.

Lemma Put_Get_other_key (tx tx' : boltTx) (name key key' : bytes) v :
  Put tx name key v = Ok tx' -> key' <> key ->
  Get tx' name key' = Get tx name key'.
Proof.
  intros H Hne. apply Put_Ok in H as (_ & b & Hb & ->).
  unfold Get. rewrite lookup_insert_eq, Hb. apply lookup_insert_ne. auto.
Qed.

Lemma Put_other_bucket (tx tx' : boltTx) (name name' key : bytes) v :
  Put tx name key v = Ok tx' -> name' <> name -> tx' !! name' = tx !! name'.
Proof.
  intros H Hne. apply Put_Ok in H as (_ & b & _ & ->).
  apply lookup_insert_ne. auto.
Qed.

Lemma Put_Get_other_bucket (tx tx' : boltTx) (name name' key key' : bytes) v :
  Put tx name key v = Ok tx' -> name' <> name ->
  Get tx' name' key' = Get tx name' key'.
Proof.
  intros H Hne. unfold Get. rewrite (Put_other_bucket _ _ _ _ _ _ H Hne).
  reflexivity.
Qed.

Lemma Put_hasBucket (tx tx' : boltTx) (name name' key : bytes) v :
  Put tx name key v = Ok tx' -> hasBucket tx' name' = hasBucket tx name'.
Proof.
  intros H. destruct (decide (name' = name)) as [-> | Hne].
  - apply Put_Ok in H as (_ & b & Hb & ->).
    transitivity true; [|symmetry]; apply hasBucket_true; eauto.
    rewrite lookup_insert_eq. eauto.
  - unfold hasBucket. rewrite (Put_other_bucket _ _ _ _ _ _ H Hne).
    reflexivity.
Qed.

Lemma CreateBucket_Ok (tx tx' : boltTx) (name : bytes) :
  CreateBucket tx name = Ok tx' ->
  tx !! name = None /\ tx' = <[name := ∅]> tx.
Proof.
  unfold CreateBucket. intros H.
  destruct (hasBucket tx name) eqn:Hb; [discriminate|].
  apply hasBucket_false in Hb.
  destruct (bool_decide (name = [])); [discriminate|].
  injection H as <-. auto.
Qed.

(** Creating a bucket changes no reading. *)
Lemma CreateBucket_Get (tx tx' : boltTx) (name name' key : bytes) :
  CreateBucket tx name = Ok tx' -> Get tx' name' key = Get tx name' key.
Proof.
  intros H. apply CreateBucket_Ok in H as [Hnone ->]. unfold Get.
  destruct (decide (name' = name)) as [-> | Hne].
  - rewrite lookup_insert_eq, Hnone. apply lookup_empty.
  - rewrite lookup_insert_ne by auto. reflexivity.
Qed.

Lemma CreateBucket_hasBucket (tx tx' : boltTx) (name name' : bytes) :
  CreateBucket tx name = Ok tx' ->
  hasBucket tx' name' = bool_decide (name' = name) || hasBucket tx name'.
Proof.
  intros H. apply CreateBucket_Ok in H as [Hnone ->].
  destruct (decide (name' = name)) as [-> | Hne].
  - rewrite bool_decide_eq_true_2 by reflexivity. cbn.
    apply hasBucket_true. rewrite lookup_insert_eq. eauto.
  - rewrite bool_decide_eq_false_2 by exact Hne. cbn.
    unfold hasBucket. rewrite lookup_insert_ne by auto. reflexivity.
Qed.

Lemma Delete_Ok (tx tx' : boltTx) (name key : bytes) :
  Delete tx name key = Ok tx' ->
  exists b, tx !! name = Some b /\ tx' = <[name := delete key b]> tx.
Proof.
  unfold Delete. destruct (tx !! name) as [b|]; [|discriminate].
  intros [= <-]. eauto.
Qed.

Lemma Delete_Get_same (tx tx' : boltTx) (name key : bytes) :
  Delete tx name key = Ok tx' -> Get tx' name key = None.
Proof.
  intros H. apply Delete_Ok in H as (b & _ & ->).
  unfold Get. rewrite lookup_insert_eq. apply lookup_delete_eq.
Qed.

Lemma Delete_Get_other_key (tx tx' : boltTx) (name key key' : bytes) :
  Delete tx name key = Ok tx' -> key' <> key ->
  Get tx' name key' = Get tx name key'.
Proof.
  intros H Hne. apply Delete_Ok in H as (b & Hb & ->).
  unfold Get. rewrite lookup_insert_eq, Hb. apply lookup_delete_ne. auto.
Qed.

Lemma Delete_other_bucket (tx tx' : boltTx) (name name' key : bytes) :
  Delete tx name key = Ok tx' -> name' <> name -> tx' !! name' = tx !! name'.
Proof.
  intros H Hne. apply Delete_Ok in H as (b & _ & ->).
  apply lookup_insert_ne. auto.
Qed.

Lemma Delete_hasBucket (tx tx' : boltTx) (name name' key : bytes) :
  Delete tx name key = Ok tx' -> hasBucket tx' name' = hasBucket tx name'.
Proof.
  intros H. destruct (decide (name' = name)) as [-> | Hne].
  - apply Delete_Ok in H as (b & Hb & ->).
    transitivity true; [|symmetry]; apply hasBucket_true; eauto.
    rewrite lookup_insert_eq. eauto.
  - unfold hasBucket. rewrite (Delete_other_bucket _ _ _ _ _ H Hne).
    reflexivity.
Qed.

End boltFacts.

(** ** The UTXO indices *)

Lemma wrapErr_Ok {A} (r : result A) (msg : string) (a : A) :
  wrapErr r msg = Ok a <-> r = Ok a.
Proof. destruct r; cbn; split; congruence. Qed.

Lemma rbind_Ok {A B} (r : result A) (k : A -> result B) (b : B) :
  rbind r k = Ok b <-> exists a, r = Ok a /\ k a = Ok b.
Proof.
  destruct r as [a | e]; cbn.
  - split; [eauto | intros (a' & [= <-] & H); exact H].
  - split; [discriminate | intros (a' & [=] & _)].
Qed.

Lemma toUTXO_newUTXO (u : UTXO.t) : toUTXO (newUTXO u) = u.
Proof.
  destruct u as [id pkh value vout]. unfold toUTXO, newUTXO.
  cbn [utxo.TransactionID utxo.PublicKeyHash utxo.Value utxo.Vout
       UTXO.TransactionID UTXO.PublicKeyHash UTXO.Value UTXO.Vout].
  rewrite !Base64Facts.DecodeString_EncodeToString. reflexivity.
Qed.

Lemma toUTXOs_newUTXOs (ut : UTXOs) : toUTXOs (newUTXOs ut) = ut.
Proof.
  unfold toUTXOs, newUTXOs. rewrite map_map.
  induction ut as [|u ut IH]; cbn; [reflexivity|].
  rewrite toUTXO_newUTXO, IH. reflexivity.
Qed.

Lemma UTXOs_Filter_filter (utxos : UTXOs) (criteria : UTXO.t -> bool) :
  UTXOs_Filter utxos criteria = List.filter criteria utxos.
Proof.
  induction utxos as [|u utxos IH]; cbn; [reflexivity|].
  rewrite IH. reflexivity.
Qed.

Lemma bucket_names_differ :
  utxoByTxBucket <> utxoByPublicKeyBucket
  /\ transactionsBucket <> utxoByPublicKeyBucket
  /\ transactionsBucket <> utxoByTxBucket
  /\ blocksBucket <> utxoByPublicKeyBucket
  /\ blocksBucket <> utxoByTxBucket
  /\ blocksBucket <> transactionsBucket.
Proof. repeat split; discriminate. Qed.

(** What a reader returns depends on the reading of the key alone. *)
Lemma readUTXOs_Get (tx : boltTx) (name key : bytes) :
  readUTXOs tx name key
  = match bolt.Get tx name key with
    | None => Ok []
    | Some raw => wrapErr (unmarshal_utxos raw) "Failed to unmarshal utxos"
    end.
Proof.
  unfold readUTXOs. destruct (bolt.hasBucket tx name) eqn:Hb; [reflexivity|].
  apply boltFacts.hasBucket_false in Hb. unfold bolt.Get. rewrite Hb.
  reflexivity.
Qed.

Lemma openBucket_Ok (tx tx' : boltTx) (name : bytes) (msg : string) :
  openBucket tx name msg = Ok tx' ->
  bolt.hasBucket tx' name = true
  /\ (forall name' key, bolt.Get tx' name' key = bolt.Get tx name' key)
  /\ (forall name', bolt.hasBucket tx name' = true ->
                    bolt.hasBucket tx' name' = true).
Proof.
  unfold openBucket. destruct (bolt.hasBucket tx name) eqn:Hb.
  - intros [= <-]. auto.
  - rewrite wrapErr_Ok. intros Hc. repeat split.
    + rewrite (boltFacts.CreateBucket_hasBucket _ _ _ _ Hc).
      rewrite bool_decide_eq_true_2 by reflexivity. reflexivity.
    + intros name' key. apply (boltFacts.CreateBucket_Get _ _ _ _ _ Hc).
    + intros name' Hn. rewrite (boltFacts.CreateBucket_hasBucket _ _ _ _ Hc).
      rewrite Hn. apply orb_true_r.
Qed.

(** The by-pkey half of a deletion, when it changes the store: the list
    of the owner is read, filtered on the transaction ID and put back. *)
Lemma deleteUTXOByPublicKey_Ok (tx tx' : boltTx) (utxo : UTXO.t) :
  deleteUTXOByPublicKey tx utxo = Ok tx' ->
  (bolt.hasBucket tx utxoByPublicKeyBucket = false /\ tx' = tx)
  \/ exists utxos,
       getUTXOsByPublicKey tx (UTXO.PublicKeyHash utxo) = Ok utxos
       /\ bolt.Put tx utxoByPublicKeyBucket (UTXO.PublicKeyHash utxo)
            (DocUTXOs (newUTXOs
               (List.filter
                  (fun u => bytes_differ (UTXO.TransactionID utxo)
                              (UTXO.TransactionID u)) utxos)))
          = Ok tx'.
Proof.
  unfold deleteUTXOByPublicKey.
  destruct (bolt.hasBucket tx utxoByPublicKeyBucket) eqn:Hb; cbn [negb].
  - rewrite rbind_Ok. intros (utxos & Hget & Hput).
    apply wrapErr_Ok in Hget, Hput. rewrite UTXOs_Filter_filter in Hput.
    right. eauto.
  - intros [= <-]. left. auto.
Qed.

(** The by-tx half: the list is the one of the by-tx index, the bucket
    written is the by-pkey one. *)
Lemma deleteUTXOByTransactionID_Ok (tx tx' : boltTx) (utxo : UTXO.t) :
  deleteUTXOByTransactionID tx utxo = Ok tx' ->
  (bolt.hasBucket tx utxoByPublicKeyBucket = false /\ tx' = tx)
  \/ exists utxos,
       getUTXOByTransactionID tx (UTXO.TransactionID utxo) = Ok utxos
       /\ bolt.Put tx utxoByPublicKeyBucket (UTXO.TransactionID utxo)
            (DocUTXOs (newUTXOs
               (List.filter
                  (fun u => negb (UTXO.Vout u =? UTXO.Vout utxo)
                            || bytes_differ (UTXO.PublicKeyHash utxo)
                                 (UTXO.PublicKeyHash u)) utxos)))
          = Ok tx'.
Proof.
  unfold deleteUTXOByTransactionID.
  destruct (bolt.hasBucket tx utxoByPublicKeyBucket) eqn:Hb; cbn [negb].
  - rewrite rbind_Ok. intros (utxos & Hget & Hput).
    apply wrapErr_Ok in Hget, Hput. rewrite UTXOs_Filter_filter in Hput.
    right. eauto.
  - intros [= <-]. left. auto.
Qed.

(** A deletion leaves the by-tx bucket as it was. *)
Lemma deleteUTXO_keeps_byTx (tx tx' : boltTx) (utxo : UTXO.t) :
  deleteUTXO tx utxo = Ok tx' ->
  tx' !! utxoByTxBucket = tx !! utxoByTxBucket.
Proof.
  unfold deleteUTXO. rewrite rbind_Ok. intros (tx1 & H1 & H2).
  apply wrapErr_Ok in H1, H2.
  pose proof bucket_names_differ as (Hne & _).
  apply deleteUTXOByPublicKey_Ok in H1 as [[_ ->] | (l1 & _ & Hput1)];
    apply deleteUTXOByTransactionID_Ok in H2 as [[_ ->] | (l2 & _ & Hput2)];
    try reflexivity.
  - apply (boltFacts.Put_other_bucket _ _ _ _ _ _ Hput2 Hne).
  - apply (boltFacts.Put_other_bucket _ _ _ _ _ _ Hput1 Hne).
  - rewrite (boltFacts.Put_other_bucket _ _ _ _ _ _ Hput2 Hne).
    apply (boltFacts.Put_other_bucket _ _ _ _ _ _ Hput1 Hne).
Qed.

Lemma getTransactionUTXO_byTx (tx tx' : boltTx) (id : bytes) (vout : Z) :
  tx' !! utxoByTxBucket = tx !! utxoByTxBucket ->
  getTransactionUTXO tx' id vout = getTransactionUTXO tx id vout.
Proof.
  intros H. unfold getTransactionUTXO. rewrite !readUTXOs_Get.
  unfold bolt.Get. rewrite H. reflexivity.
Qed.

Lemma getUTXOByTransactionID_byTx (tx tx' : boltTx) (id : bytes) :
  tx' !! utxoByTxBucket = tx !! utxoByTxBucket ->
  getUTXOByTransactionID tx' id = getUTXOByTransactionID tx id.
Proof.
  intros H. unfold getUTXOByTransactionID. rewrite !readUTXOs_Get.
  unfold bolt.Get. rewrite H. reflexivity.
Qed.

Example store_fixture :
  getUTXOsByPublicKey Fixture.store Fixture.alice = Ok Fixture.masterUTXOs
  /\ getUTXOByTransactionID Fixture.store Fixture.txA
     = Ok [UTXO.mk Fixture.txA Fixture.alice 6 0;
           UTXO.mk Fixture.txA Fixture.alice 7 1]
  /\ getTransactionUTXO Fixture.store Fixture.txB 0
     = Ok (Some (UTXO.mk Fixture.txB Fixture.alice 9 0))
  /\ getTransactionUTXO Fixture.store Fixture.txB 1 = Ok None.
Proof. repeat split; vm_compute; reflexivity. Qed.

Lemma getUTXOsByPublicKey_Get (tx : boltTx) (pkh : bytes) (saved : utxos) :
  bolt.Get tx utxoByPublicKeyBucket pkh = Some (DocUTXOs saved) ->
  getUTXOsByPublicKey tx pkh = Ok (toUTXOs saved).
Proof.
  intros H. unfold getUTXOsByPublicKey. rewrite readUTXOs_Get, H. reflexivity.
Qed.


Lemma getUTXOsByPublicKey_no_bucket (tx : boltTx) (pkh : bytes) :
  bolt.hasBucket tx utxoByPublicKeyBucket = false ->
  getUTXOsByPublicKey tx pkh = Ok [].
Proof.
  intros H. unfold getUTXOsByPublicKey, readUTXOs. rewrite H. reflexivity.
Qed.

(** C9. [deleteUTXOByPublicKey] filters the owner's list on the
    transaction ID alone: after it, the list under the owner's key is the
    former one without any UTXO of the same transaction, whatever its
    [Vout], so the sibling outputs of the owner go with the deleted one.
    It succeeds for every key bolt accepts. *)
Theorem deleteUTXOByPublicKey_drops_siblings
  (tx : boltTx) (utxo : UTXO.t) (utxos : UTXOs) :
  getUTXOsByPublicKey tx (UTXO.PublicKeyHash utxo) = Ok utxos ->
  (UTXO.PublicKeyHash utxo <> [] ->
   Z.of_nat (length (UTXO.PublicKeyHash utxo)) <= bolt.MaxKeySize ->
   exists tx', deleteUTXOByPublicKey tx utxo = Ok tx')
  /\ forall tx',
       deleteUTXOByPublicKey tx utxo = Ok tx' ->
       exists utxos',
         getUTXOsByPublicKey tx' (UTXO.PublicKeyHash utxo) = Ok utxos'
         /\ utxos'
            = List.filter
                (fun u => bytes_differ (UTXO.TransactionID utxo)
                            (UTXO.TransactionID u)) utxos
         /\ (forall u, In u utxos' <->
                       In u utxos
                       /\ UTXO.TransactionID u <> UTXO.TransactionID utxo)
         /\ (forall sibling,
               In sibling utxos ->
               UTXO.TransactionID sibling = UTXO.TransactionID utxo ->
               ~ In sibling utxos').
Proof.
  intros Hget. split.
  - intros Hkey Hlen. unfold deleteUTXOByPublicKey.
    destruct (bolt.hasBucket tx utxoByPublicKeyBucket) eqn:Hb; cbn [negb];
      [|eauto].
    rewrite Hget. cbn [wrapErr rbind].
    destruct (boltFacts.Put_succeeds tx utxoByPublicKeyBucket
                (UTXO.PublicKeyHash utxo)
                (DocUTXOs (newUTXOs
                   (UTXOs_Filter utxos
                      (fun u => bytes_differ (UTXO.TransactionID utxo)
                                  (UTXO.TransactionID u)))))
                Hb Hkey Hlen) as [tx' ->].
    eauto.
  - intros tx' Hdel.
    assert (Hin : forall u,
               In u (List.filter
                       (fun u => bytes_differ (UTXO.TransactionID utxo)
                                   (UTXO.TransactionID u)) utxos)
               <-> In u utxos
                   /\ UTXO.TransactionID u <> UTXO.TransactionID utxo).
    { intros u. rewrite filter_In, bytes_differ_true. intuition congruence. }
    eexists. split; [|split; [reflexivity | split; [exact Hin|]]].
    + apply deleteUTXOByPublicKey_Ok in Hdel
        as [[Hb ->] | (l & Hl & Hput)].
      * rewrite getUTXOsByPublicKey_no_bucket in Hget |- * by exact Hb.
        injection Hget as <-. reflexivity.
      * rewrite Hget in Hl. injection Hl as <-.
        rewrite (getUTXOsByPublicKey_Get _ _ _
                   (boltFacts.Put_Get_same _ _ _ _ _ Hput)).
        rewrite toUTXOs_newUTXOs. reflexivity.
    + intros sibling _ Hsame Hs. apply Hin in Hs as [_ Hne]. contradiction.
Qed.

Lemma deleteUTXOByPublicKey_drops_siblings_witness :
  getUTXOsByPublicKey Fixture.store Fixture.alice = Ok Fixture.masterUTXOs
  /\ exists tx',
       deleteUTXOByPublicKey Fixture.store
         (UTXO.mk Fixture.txA Fixture.alice 6 0) = Ok tx'.
Proof.
  assert (H : getUTXOsByPublicKey Fixture.store Fixture.alice
              = Ok Fixture.masterUTXOs) by (vm_compute; reflexivity).
  split; [exact H|].
  apply (proj1 (deleteUTXOByPublicKey_drops_siblings Fixture.store
                  (UTXO.mk Fixture.txA Fixture.alice 6 0)
                  Fixture.masterUTXOs H)).
  - discriminate.
  - vm_compute. discriminate.
Defined.

Example deleteUTXOByPublicKey_fixture :
  rbind (deleteUTXOByPublicKey Fixture.store
           (UTXO.mk Fixture.txA Fixture.alice 6 0))
    (fun tx' => getUTXOsByPublicKey tx' Fixture.alice)
  = Ok [UTXO.mk Fixture.txB Fixture.alice 9 0].
Proof. vm_compute. reflexivity. Qed.

(** A deletion changes no reading of the by-tx index. *)
Lemma deleteUTXO_keeps_byTx_readings (tx tx' : boltTx) (utxo : UTXO.t) :
  deleteUTXO tx utxo = Ok tx' ->
  forall id,
    getUTXOByTransactionID tx' id = getUTXOByTransactionID tx id
    /\ forall vout, getTransactionUTXO tx' id vout = getTransactionUTXO tx id vout.
Proof.
  intros H id. apply deleteUTXO_keeps_byTx in H. split.
  - apply getUTXOByTransactionID_byTx, H.
  - intros vout. apply getTransactionUTXO_byTx, H.
Qed.

(** C2, on the store of the fixture: the UTXO of [tx-b] is in both
    indices; after [deleteUTXO] it has left the by-pkey index but is
    still in the by-tx index, the filtered list having been written to
    the by-pkey bucket under the transaction ID. *)
Theorem deleteUTXO_leaves_byTx_index :
  getUTXOsByPublicKey Fixture.store Fixture.alice
  = Ok [UTXO.mk Fixture.txA Fixture.alice 6 0;
        UTXO.mk Fixture.txA Fixture.alice 7 1; Fixture.spent]
  /\ getUTXOByTransactionID Fixture.store Fixture.txB = Ok [Fixture.spent]
  /\ bolt.Get Fixture.store utxoByPublicKeyBucket Fixture.txB = None
  /\ (tx' <- deleteUTXO Fixture.store Fixture.spent;;
      getUTXOsByPublicKey tx' Fixture.alice)
     = Ok [UTXO.mk Fixture.txA Fixture.alice 6 0;
           UTXO.mk Fixture.txA Fixture.alice 7 1]
  /\ (tx' <- deleteUTXO Fixture.store Fixture.spent;;
      getUTXOByTransactionID tx' Fixture.txB)
     = Ok [Fixture.spent]
  /\ (tx' <- deleteUTXO Fixture.store Fixture.spent;;
      getTransactionUTXO tx' Fixture.txB 0)
     = Ok (Some Fixture.spent)
  /\ result_map (fun tx' => bolt.Get tx' utxoByPublicKeyBucket Fixture.txB)
       (deleteUTXO Fixture.store Fixture.spent)
     = Ok (Some (DocUTXOs [])).
Proof. repeat split; vm_compute; reflexivity. Qed.

(** ** [deleteTransactionUTXOs] *)

Lemma deleteInputUTXO_keeps_byTx (tx tx' : boltTx) (input : Input.t) :
  deleteInputUTXO tx input = Returns tx' ->
  tx' !! utxoByTxBucket = tx !! utxoByTxBucket.
Proof.
  unfold deleteInputUTXO.
  destruct (getTransactionUTXO tx _ _) as [[utxo|]|err]; try discriminate.
  destruct (deleteUTXO tx utxo) as [tx1|err] eqn:Hdel; [|discriminate].
  intros [= <-]. apply (deleteUTXO_keeps_byTx _ _ _ Hdel).
Qed.

Lemma deleteInputsUTXOs_keeps_byTx (inputs : Inputs) :
  forall tx tx',
    deleteInputsUTXOs tx inputs = Returns tx' ->
    tx' !! utxoByTxBucket = tx !! utxoByTxBucket.
Proof.
  induction inputs as [|input inputs IH]; intros tx tx' H; cbn in H.
  - injection H as <-. reflexivity.
  - destruct (deleteInputUTXO tx input) as [tx1| |] eqn:H1; try discriminate.
    rewrite (IH _ _ H). apply (deleteInputUTXO_keeps_byTx _ _ _ H1).
Qed.

Lemma deleteInputUTXO_Panics (tx : boltTx) (input : Input.t) :
  deleteInputUTXO tx input = Panics
  <-> getTransactionUTXO tx (Input.TransactionID input) (Input.Vout input)
      = Ok None.
Proof.
  unfold deleteInputUTXO.
  destruct (getTransactionUTXO tx _ _) as [[utxo|]|err].
  - destruct (deleteUTXO tx utxo); split; discriminate.
  - split; reflexivity.
  - split; discriminate.
Qed.

Lemma deleteInputsUTXOs_no_panic (inputs : Inputs) :
  forall tx,
    (forall input, In input inputs ->
       exists utxo,
         getTransactionUTXO tx (Input.TransactionID input) (Input.Vout input)
         = Ok (Some utxo)) ->
    deleteInputsUTXOs tx inputs <> Panics.
Proof.
  induction inputs as [|input inputs IH]; intros tx Hall; cbn; [discriminate|].
  destruct (deleteInputUTXO tx input) as [tx1| |] eqn:H1; [|discriminate|].
  - apply IH. intros input' Hin.
    rewrite (getTransactionUTXO_byTx _ _ _ _
               (deleteInputUTXO_keeps_byTx _ _ _ H1)).
    apply Hall. right. exact Hin.
  - apply deleteInputUTXO_Panics in H1.
    destruct (Hall input (or_introl eq_refl)) as [utxo Hu]. congruence.
Qed.

Lemma deleteInputsUTXOs_Returns (inputs : Inputs) :
  forall tx tx',
    deleteInputsUTXOs tx inputs = Returns tx' ->
    forall input, In input inputs ->
      exists utxo,
        getTransactionUTXO tx (Input.TransactionID input) (Input.Vout input)
        = Ok (Some utxo).
Proof.
  induction inputs as [|input inputs IH]; intros tx tx' H input' Hin;
    [destruct Hin|].
  cbn in H.
  destruct (deleteInputUTXO tx input) as [tx1| |] eqn:H1; try discriminate.
  destruct Hin as [<- | Hin].
  - unfold deleteInputUTXO in H1.
    destruct (getTransactionUTXO tx _ _) as [[utxo|]|err]; try discriminate.
    eauto.
  - rewrite <- (getTransactionUTXO_byTx _ _ _ _
                  (deleteInputUTXO_keeps_byTx _ _ _ H1)).
    apply (IH _ _ H). exact Hin.
Qed.

Lemma deleteInputsUTXOs_app (before after : Inputs) :
  forall tx tx1,
    deleteInputsUTXOs tx before = Returns tx1 ->
    deleteInputsUTXOs tx (before ++ after) = deleteInputsUTXOs tx1 after.
Proof.
  induction before as [|input before IH]; intros tx tx1 H; cbn in H |- *.
  - injection H as <-. reflexivity.
  - destruct (deleteInputUTXO tx input) as [tx2| |]; try discriminate.
    apply IH, H.
Qed.

(** C10. [deleteTransactionUTXOs] dereferences the result of
    [getTransactionUTXO] unchecked.  It does not panic when every input
    references a UTXO present in the by-tx index, and it returns normally
    only then; an input whose referenced UTXO is absent makes the
    iteration that handles it panic, and with it the call once the inputs
    before have been handled. *)
Theorem deleteTransactionUTXOs_nil_dereference
  (tx : boltTx) (transaction : Transaction.t) :
  ((forall input, In input (Transaction.Inputs transaction) ->
      exists utxo,
        getTransactionUTXO tx (Input.TransactionID input) (Input.Vout input)
        = Ok (Some utxo)) ->
   deleteTransactionUTXOs tx transaction <> Panics)
  /\ (forall tx',
        deleteTransactionUTXOs tx transaction = Returns tx' ->
        forall input, In input (Transaction.Inputs transaction) ->
          exists utxo,
            getTransactionUTXO tx (Input.TransactionID input)
              (Input.Vout input) = Ok (Some utxo))
  /\ (forall input,
        getTransactionUTXO tx (Input.TransactionID input) (Input.Vout input)
        = Ok None ->
        deleteInputUTXO tx input = Panics)
  /\ (forall before input after tx1,
        Transaction.Inputs transaction = before ++ input :: after ->
        deleteInputsUTXOs tx before = Returns tx1 ->
        getTransactionUTXO tx (Input.TransactionID input) (Input.Vout input)
        = Ok None ->
        deleteTransactionUTXOs tx transaction = Panics).
Proof.
  unfold deleteTransactionUTXOs. repeat split.
  - apply deleteInputsUTXOs_no_panic.
  - apply deleteInputsUTXOs_Returns.
  - intros input. apply deleteInputUTXO_Panics.
  - intros before input after tx1 -> Hbefore Habsent.
    rewrite (deleteInputsUTXOs_app _ _ _ _ Hbefore). cbn.
    rewrite <- (getTransactionUTXO_byTx _ _ _ _
                  (deleteInputsUTXOs_keeps_byTx _ _ _ Hbefore)) in Habsent.
    apply deleteInputUTXO_Panics in Habsent. rewrite Habsent. reflexivity.
Qed.

Example deleteTransactionUTXOs_fixture :
  deleteTransactionUTXOs Fixture.store
    (Transaction.mk Fixture.txB
       [Input.mk Fixture.txA 0 Fixture.alice [] [];
        Input.mk Fixture.txB 1 Fixture.alice [] []] [] 0)
  = Panics.
Proof. vm_compute. reflexivity. Qed.

(** ** Saving UTXOs *)

Lemma saveUTXOsByPublicKey_loop_appendEach (utxos : UTXOs) (tx : boltTx) :
  saveUTXOsByPublicKey_loop tx utxos
  = appendEach utxoByPublicKeyBucket UTXO.PublicKeyHash
      "Failed to save utxo set for %x" tx utxos.
Proof.
  revert tx. induction utxos as [|u utxos IH]; intros tx; cbn; [reflexivity|].
  destruct (readSaved tx _ _) as [saved|e]; cbn; [|reflexivity].
  destruct (bolt.Put tx _ _ _) as [tx1|e]; cbn; [apply IH | reflexivity].
Qed.

Lemma saveUTXOsByTransactionID_loop_appendEach (utxos : UTXOs) (tx : boltTx) :
  saveUTXOsByTransactionID_loop tx utxos
  = appendEach utxoByTxBucket UTXO.TransactionID
      "Failed to save utxo set for tx id %x" tx utxos.
Proof.
  revert tx. induction utxos as [|u utxos IH]; intros tx; cbn; [reflexivity|].
  destruct (readSaved tx _ _) as [saved|e]; cbn; [|reflexivity].
  destruct (bolt.Put tx _ _ _) as [tx1|e]; cbn; [apply IH | reflexivity].
Qed.

Lemma readSaved_Get (tx : boltTx) (name key : bytes) (saved saved' : utxos) :
  bolt.Get tx name key = Some (DocUTXOs saved) ->
  readSaved tx name key = Ok saved' -> saved' = saved.
Proof. unfold readSaved. intros ->. cbn. congruence. Qed.

Section AppendEach.
Variables (name : bytes) (keyOf : UTXO.t -> bytes) (msg : string).

Lemma appendEach_spec (utxos : UTXOs) :
  forall tx tx',
    appendEach name keyOf msg tx utxos = Ok tx' ->
    (forall name' key, name' <> name ->
       bolt.Get tx' name' key = bolt.Get tx name' key)
    /\ (forall name', bolt.hasBucket tx' name' = bolt.hasBucket tx name')
    /\ (forall key x, indexed tx name key x -> indexed tx' name key x)
    /\ (forall u, In u utxos -> indexed tx' name (keyOf u) (newUTXO u)).
Proof.
  induction utxos as [|u utxos IH]; intros tx tx' H; cbn [appendEach] in H.
  - injection H as <-. repeat split; auto. intros u [].
  - apply rbind_Ok in H as (saved & Hread & H).
    apply rbind_Ok in H as (tx1 & Hput & H).
    apply wrapErr_Ok in Hput.
    apply IH in H as (Hother & Hbuckets & Hmono & Hnew).
    assert (Hstep : forall key x, indexed tx name key x ->
                                  indexed tx1 name key x).
    { intros key x (s & Hs & Hx).
      destruct (decide (key = keyOf u)) as [-> | Hne].
      - rewrite (readSaved_Get _ _ _ _ _ Hs Hread) in Hput.
        exists (s ++ [newUTXO u]). split.
        + apply (boltFacts.Put_Get_same _ _ _ _ _ Hput).
        + apply in_or_app. left. exact Hx.
      - exists s. split; [|exact Hx].
        rewrite (boltFacts.Put_Get_other_key _ _ _ _ _ _ Hput Hne). exact Hs. }
    repeat split.
    + intros name' key Hne. rewrite (Hother name' key Hne).
      apply (boltFacts.Put_Get_other_bucket _ _ _ _ _ _ _ Hput Hne).
    + intros name'. rewrite Hbuckets.
      apply (boltFacts.Put_hasBucket _ _ _ _ _ _ Hput).
    + intros key x Hx. apply Hmono, Hstep, Hx.
    + intros u' [<- | Hin]; [|apply Hnew, Hin].
      apply Hmono. exists (saved ++ [newUTXO u]). split.
      * apply (boltFacts.Put_Get_same _ _ _ _ _ Hput).
      * apply in_or_app. right. left. reflexivity.
Qed.

End AppendEach.

Lemma indexed_Get_eq (tx tx' : boltTx) (name key : bytes) (x : utxo.t) :
  bolt.Get tx' name key = bolt.Get tx name key ->
  indexed tx name key x -> indexed tx' name key x.
Proof. intros H (s & Hs & Hx). exists s. rewrite H. auto. Qed.

(** What [saveUTXOs] does to the store: the UTXOs are in both indices,
    what was indexed stays indexed, the other buckets are not touched. *)
Lemma saveUTXOs_spec (tx tx' : boltTx) (utxos : UTXOs) :
  saveUTXOs tx utxos = Ok tx' ->
  (forall u, In u utxos ->
     indexed tx' utxoByPublicKeyBucket (UTXO.PublicKeyHash u) (newUTXO u)
     /\ indexed tx' utxoByTxBucket (UTXO.TransactionID u) (newUTXO u))
  /\ (forall name key x, indexed tx name key x -> indexed tx' name key x)
  /\ (forall name key,
        name <> utxoByPublicKeyBucket -> name <> utxoByTxBucket ->
        bolt.Get tx' name key = bolt.Get tx name key).
Proof.
  unfold saveUTXOs, saveUTXOsByPublicKey, saveUTXOsByTransactionID.
  intros H. apply rbind_Ok in H as (tx2 & H1 & H2).
  apply wrapErr_Ok in H1, H2.
  apply rbind_Ok in H1 as (tx1 & Ho1 & H1).
  apply rbind_Ok in H2 as (tx3 & Ho2 & H2).
  rewrite saveUTXOsByPublicKey_loop_appendEach in H1.
  rewrite saveUTXOsByTransactionID_loop_appendEach in H2.
  apply openBucket_Ok in Ho1 as (_ & Hg1 & _).
  apply openBucket_Ok in Ho2 as (_ & Hg2 & _).
  apply appendEach_spec in H1 as (Hother1 & _ & Hmono1 & Hnew1).
  apply appendEach_spec in H2 as (Hother2 & _ & Hmono2 & Hnew2).
  pose proof bucket_names_differ as (Hne & _).
  assert (Hmono : forall name key x,
             indexed tx name key x -> indexed tx' name key x).
  { intros name key x Hx.
    apply (indexed_Get_eq tx tx1 _ _ _ (Hg1 _ _)) in Hx.
    assert (Hx2 : indexed tx2 name key x).
    { destruct (decide (name = utxoByPublicKeyBucket)) as [-> | Hn].
      - apply Hmono1, Hx.
      - apply (indexed_Get_eq tx1 tx2 _ _ _ (Hother1 _ _ Hn)), Hx. }
    apply (indexed_Get_eq tx2 tx3 _ _ _ (Hg2 _ _)) in Hx2.
    destruct (decide (name = utxoByTxBucket)) as [-> | Hn].
    - apply Hmono2, Hx2.
    - apply (indexed_Get_eq tx3 tx' _ _ _ (Hother2 _ _ Hn)), Hx2. }
  repeat split.
  - apply (indexed_Get_eq tx3 tx').
    + apply Hother2. auto.
    + apply (indexed_Get_eq tx2 tx3 _ _ _ (Hg2 _ _)). apply Hnew1, H.
  - apply Hnew2, H.
  - exact Hmono.
  - intros name key Hn1 Hn2.
    rewrite (Hother2 _ _ Hn2), Hg2, (Hother1 _ _ Hn1), Hg1. reflexivity.
Qed.

Lemma indexed_getUTXOsByPublicKey (tx : boltTx) (u : UTXO.t) :
  indexed tx utxoByPublicKeyBucket (UTXO.PublicKeyHash u) (newUTXO u) ->
  exists utxos,
    getUTXOsByPublicKey tx (UTXO.PublicKeyHash u) = Ok utxos /\ In u utxos.
Proof.
  intros (saved & Hs & Hin). exists (toUTXOs saved). split.
  - apply getUTXOsByPublicKey_Get, Hs.
  - rewrite <- (toUTXO_newUTXO u). apply in_map, Hin.
Qed.


(** ** The chain *)

Lemma deleteTransaction_spec (tx tx' : boltTx) (transaction : Transaction.t) :
  deleteTransaction tx transaction = Ok tx' ->
  bolt.Get tx' transactionsBucket (Transaction.ID transaction) = None
  /\ (forall key, bolt.Get tx transactionsBucket key = None ->
                  bolt.Get tx' transactionsBucket key = None)
  /\ (forall name key, name <> transactionsBucket ->
                       bolt.Get tx' name key = bolt.Get tx name key).
Proof.
  unfold deleteTransaction.
  destruct (bolt.hasBucket tx transactionsBucket) eqn:Hb; cbn [negb].
  - rewrite wrapErr_Ok. intros Hdel. repeat split.
    + apply (boltFacts.Delete_Get_same _ _ _ _ Hdel).
    + intros key Hnone.
      destruct (decide (key = Transaction.ID transaction)) as [-> | Hne].
      * apply (boltFacts.Delete_Get_same _ _ _ _ Hdel).
      * rewrite (boltFacts.Delete_Get_other_key _ _ _ _ _ Hdel Hne).
        exact Hnone.
    + intros name key Hne. unfold bolt.Get.
      rewrite (boltFacts.Delete_other_bucket _ _ _ _ _ Hdel Hne). reflexivity.
  - intros [= <-]. repeat split; auto.
    apply boltFacts.hasBucket_false in Hb. unfold bolt.Get. rewrite Hb.
    reflexivity.
Qed.

Lemma addBlock_spec (tx tx' : boltTx) (block : Block.t) (created : bytes) :
  addBlock tx block = Ok (tx', created) ->
  created = Header.Hash (Block.Header block)
  /\ bolt.Get tx' blocksBucket tipKey
     = Some (DocBytes (Header.Hash (Block.Header block)))
  /\ (Header.Hash (Block.Header block) <> tipKey ->
      bolt.Get tx' blocksBucket (Header.Hash (Block.Header block))
      = Some (DocBlock block))
  /\ (forall name key, name <> blocksBucket ->
                       bolt.Get tx' name key = bolt.Get tx name key).
Proof.
  unfold addBlock. intros H.
  apply rbind_Ok in H as (tx1 & Hopen & H).
  apply rbind_Ok in H as (tx2 & Hput1 & H).
  apply rbind_Ok in H as (tx3 & Hput2 & H).
  injection H as <- <-. apply wrapErr_Ok in Hput1, Hput2.
  apply openBucket_Ok in Hopen as (_ & Hg & _).
  repeat split.
  - apply (boltFacts.Put_Get_same _ _ _ _ _ Hput2).
  - intros Hne.
    rewrite (boltFacts.Put_Get_other_key _ _ _ _ _ _ Hput2 Hne).
    apply (boltFacts.Put_Get_same _ _ _ _ _ Hput1).
  - intros name key Hne.
    rewrite (boltFacts.Put_Get_other_bucket _ _ _ _ _ _ _ Hput2 Hne).
    rewrite (boltFacts.Put_Get_other_bucket _ _ _ _ _ _ _ Hput1 Hne).
    apply Hg.
Qed.

Lemma AddBlock_loop_spec (transactions : list Transaction.t) :
  forall tx tx',
    AddBlock_loop saveUTXOs tx transactions = Ok tx' ->
    (forall key, bolt.Get tx' blocksBucket key = bolt.Get tx blocksBucket key)
    /\ (forall key, bolt.Get tx transactionsBucket key = None ->
                    bolt.Get tx' transactionsBucket key = None)
    /\ (forall name key x, name <> transactionsBucket ->
          indexed tx name key x -> indexed tx' name key x)
    /\ (forall transaction, In transaction transactions ->
          bolt.Get tx' transactionsBucket (Transaction.ID transaction) = None
          /\ forall u, In u (Transaction_UTXOs transaction) ->
               indexed tx' utxoByPublicKeyBucket (UTXO.PublicKeyHash u)
                 (newUTXO u)
               /\ indexed tx' utxoByTxBucket (UTXO.TransactionID u)
                    (newUTXO u)).
Proof.
  pose proof bucket_names_differ as (_ & Hep & Het & Hbp & Hbt & Hbe).
  induction transactions as [|t transactions IH]; intros tx tx' H;
    cbn [AddBlock_loop] in H.
  - injection H as <-. repeat split; auto; destruct H.
  - apply rbind_Ok in H as (tx1 & Hdel & H).
    apply rbind_Ok in H as (tx2 & Hsave & H).
    apply deleteTransaction_spec in Hdel as (Hgone & Hnone1 & Hother1).
    apply saveUTXOs_spec in Hsave as (Hnew & Hmono2 & Hother2).
    apply IH in H as (Hblocks & Hnone3 & Hmono3 & Hall).
    assert (Hnone : forall key, bolt.Get tx transactionsBucket key = None ->
                                bolt.Get tx' transactionsBucket key = None).
    { intros key Hk. apply Hnone3. rewrite (Hother2 _ _ Hep Het).
      apply Hnone1, Hk. }
    repeat split.
    + intros key. rewrite Hblocks, (Hother2 _ _ Hbp Hbt).
      apply Hother1, Hbe.
    + exact Hnone.
    + intros name key x Hn Hx. apply (Hmono3 _ _ _ Hn), Hmono2.
      apply (indexed_Get_eq tx tx1 _ _ _ (Hother1 _ _ Hn)), Hx.
    + destruct H as [<- | Hin]; [|apply Hall, Hin].
      apply Hnone3. rewrite (Hother2 _ _ Hep Het). exact Hgone.
    + destruct H as [<- | Hin]; [|apply (Hall _ Hin), H0].
      apply Hmono3; [auto|]. apply Hnew, H0.
    + destruct H as [<- | Hin]; [|apply (Hall _ Hin), H0].
      apply Hmono3; [auto|]. apply Hnew, H0.
Qed.




Example AddBlock_fixture :
  getUTXOsByPublicKey
    (fst (AddBlock saveUTXOs Fixture.store Fixture.voteBlock)) Fixture.bob
  = Ok [UTXO.mk (bytes_of_string "tx-c") Fixture.bob 1 0].
Proof. vm_compute. reflexivity. Qed.

(** The key [l] is shared with the tip: a block whose hash were that one
    byte would be appended without error, and the blocks bucket would
    hold the tip under its hash, not the block.  No SHA-256 digest is
    that key. *)
Example AddBlock_tip_key_overwrites_block :
  snd (AddBlock saveUTXOs ∅ Fixture.blockAtTipKey) = (tipKey, None)
  /\ bolt.Get (fst (AddBlock saveUTXOs ∅ Fixture.blockAtTipKey)) blocksBucket
       (Header.Hash (Block.Header Fixture.blockAtTipKey))
     = Some (DocBytes tipKey)
  /\ bolt.Get (fst (AddBlock saveUTXOs ∅ Fixture.blockAtTipKey)) blocksBucket
       (Header.Hash (Block.Header Fixture.blockAtTipKey))
     <> Some (DocBlock Fixture.blockAtTipKey).
Proof.
  assert (H : bolt.Get (fst (AddBlock saveUTXOs ∅ Fixture.blockAtTipKey))
                blocksBucket (Header.Hash (Block.Header Fixture.blockAtTipKey))
              = Some (DocBytes tipKey)) by (vm_compute; reflexivity).
  split; [vm_compute; reflexivity|]. split; [exact H|].
  rewrite H. discriminate.
Qed.

(** ** [CastVote] *)

Lemma NewTransaction_Ok {digest : Digest} now inputs outputs tr :
  NewTransaction now inputs outputs = Ok tr ->
  Transaction.Inputs tr = inputs /\ Transaction.Outputs tr = outputs
  /\ Transaction.Timestamp tr = now.
Proof.
  unfold NewTransaction. destruct (newID inputs outputs); [|discriminate].
  intros [= <-]. auto.
Qed.

Lemma saveTransaction_spec (tx tx' : boltTx) (transaction : Transaction.t) :
  saveTransaction tx transaction = Ok tx' ->
  bolt.Get tx' transactionsBucket (Transaction.ID transaction)
  = Some (DocTX (newTX transaction)).
Proof.
  unfold saveTransaction. rewrite rbind_Ok. intros (tx1 & _ & Hput).
  apply wrapErr_Ok in Hput. apply (boltFacts.Put_Get_same _ _ _ _ _ Hput).
Qed.

Lemma voteOutputs_spec (from to : bytes) (usedUTXO : UTXO.t) :
  GoInt.in_range (UTXO.Value usedUTXO) ->
  voteOutputs from to usedUTXO
  = Output.mk 1 to
    :: (if 1 <? UTXO.Value usedUTXO
        then [Output.mk (UTXO.Value usedUTXO - 1) from]
        else []).
Proof.
  intros Hr. unfold voteOutputs. rewrite Z.gtb_ltb.
  destruct (1 <? UTXO.Value usedUTXO) eqn:Hgt; [|reflexivity].
  apply Z.ltb_lt in Hgt. cbn [app]. unfold GoInt.sub.
  rewrite GoIntFacts.wrap_small; [reflexivity|].
  unfold GoInt.in_range in *. lia.
Qed.

(** The steps of [CastVote] on the first UTXO of [from]: the error
    [InsufficientVotes] is that of an empty lookup, and what a successful
    call has saved is the transaction built from that UTXO. *)
Lemma CastVote_spends_first_UTXO
  (digest : Digest)
  (getUTXOs : boltTx -> bytes -> result UTXOs)
  (overwriteUTXOs : boltTx -> bytes -> UTXOs -> result boltTx)
  (db : boltTx) (now : Z) (from to signature : bytes) :
  (snd (CastVote getUTXOs overwriteUTXOs db now from to signature)
   = Some ErrInsufficientVotes
   <-> getUTXOs db from = Ok [])
  /\ forall usedUTXO others,
       getUTXOs db from = Ok (usedUTXO :: others) ->
       GoInt.in_range (UTXO.Value usedUTXO) ->
       let inputs := [Input.mk (UTXO.TransactionID usedUTXO)
                        (UTXO.Vout usedUTXO) from signature []] in
       let outputs := Output.mk 1 to
                      :: (if 1 <? UTXO.Value usedUTXO
                          then [Output.mk (UTXO.Value usedUTXO - 1) from]
                          else []) in
       CastVote_update getUTXOs overwriteUTXOs now from to signature db
       = (tr <- wrapErr (NewTransaction now inputs outputs)
                  "Failed to create new transaction";;
          tx <- wrapErr (overwriteUTXOs db (UTXO.PublicKeyHash usedUTXO)
                           [usedUTXO])
                  "Failed to overwrite transaction";;
          tx <- wrapErr (saveTransaction tx tr) "Failed to save transaction";;
          wrapErr (saveUTXOs tx (Transaction_UTXOs tr)) "Failed to save UTXOs")
       /\ forall db',
            CastVote getUTXOs overwriteUTXOs db now from to signature
            = (db', None) ->
            exists tr,
              NewTransaction now inputs outputs = Ok tr
              /\ Transaction.Inputs tr = inputs
              /\ Transaction.Outputs tr = outputs
              /\ bolt.Get db' transactionsBucket (Transaction.ID tr)
                 = Some (DocTX (newTX tr)).
Proof.
  split.
  - unfold CastVote, bolt.Update, CastVote_update.
    destruct (getUTXOs db from) as [[|usedUTXO others]|err]; cbn.
    + split; reflexivity.
    + split; [|discriminate].
      destruct (NewTransaction _ _ _) as [tr|e]; cbn; [|discriminate].
      destruct (overwriteUTXOs _ _ _) as [tx1|e]; cbn; [|discriminate].
      destruct (saveTransaction _ _) as [tx2|e]; cbn; [|discriminate].
      destruct (saveUTXOs _ _) as [tx3|e]; cbn; discriminate.
    + split; discriminate.
  - intros usedUTXO others Hget Hrange inputs outputs.
    assert (Heq : CastVote_update getUTXOs overwriteUTXOs now from to
                    signature db
                  = (tr <- wrapErr (NewTransaction now inputs outputs)
                             "Failed to create new transaction";;
                     tx <- wrapErr (overwriteUTXOs db
                                      (UTXO.PublicKeyHash usedUTXO) [usedUTXO])
                             "Failed to overwrite transaction";;
                     tx <- wrapErr (saveTransaction tx tr)
                             "Failed to save transaction";;
                     wrapErr (saveUTXOs tx (Transaction_UTXOs tr))
                       "Failed to save UTXOs")).
    { unfold CastVote_update. rewrite Hget.
      rewrite (voteOutputs_spec from to usedUTXO Hrange). reflexivity. }
    split; [exact Heq|].
    intros db' Hcast. unfold CastVote, bolt.Update in Hcast. rewrite Heq in Hcast.
    destruct (rbind _ _) as [tx3|e] eqn:Hrun in Hcast; [|discriminate].
    injection Hcast as <-.
    apply rbind_Ok in Hrun as (tr & Hnew & Hrun).
    apply rbind_Ok in Hrun as (tx1 & _ & Hrun).
    apply rbind_Ok in Hrun as (tx2 & Hsave & Hutxos).
    apply wrapErr_Ok in Hnew, Hsave, Hutxos.
    exists tr. split; [exact Hnew|].
    destruct (NewTransaction_Ok _ _ _ _ Hnew) as (Hin & Hout & _).
    split; [exact Hin|]. split; [exact Hout|].
    apply saveTransaction_spec in Hsave.
    apply saveUTXOs_spec in Hutxos as (_ & _ & Hother).
    pose proof bucket_names_differ as (_ & Hep & Het & _).
    rewrite (Hother _ _ Hep Het). exact Hsave.
Qed.

Example CastVote_fixture :
  snd (@CastVote Fixture.digest Fixture.getUTXOs Fixture.overwriteUTXOs
         Fixture.store 1700000000 Fixture.alice Fixture.bob
         (Fixture.alice ++ Fixture.bob))
  = None
  /\ snd (@CastVote Fixture.digest Fixture.getUTXOs Fixture.overwriteUTXOs
            Fixture.store 1700000000 Fixture.carol Fixture.bob [])
     = Some ErrInsufficientVotes
  /\ getUTXOsByPublicKey
       (fst (@CastVote Fixture.digest Fixture.getUTXOs Fixture.overwriteUTXOs
               Fixture.store 1700000000 Fixture.alice Fixture.bob
               (Fixture.alice ++ Fixture.bob)))
       Fixture.bob
     = Ok [UTXO.mk [x53; x2a; x7c; x2b; x2b] Fixture.bob 1 0].
Proof. repeat split; vm_compute; reflexivity. Qed.

(* ===================================================================== *)
(** * Further properties of the code *)
(* ===================================================================== *)

Lemma isOk_getOk {A} (default : A) (r : result A) :
  isOk r = true -> r = Ok (getOk default r).
Proof. destruct r; [reflexivity | discriminate]. Qed.

(** ** Stored records *)

(** X1. A UTXO written to the store is read back as it was: [toUTXO]
    undoes [newUTXO] (the base64 fields decode to the bytes that were
    encoded), for one UTXO and for a list, and two UTXOs stored alike are
    the same UTXO. *)
Theorem UTXO_storage_round_trip (u u' : UTXO.t) (ut : UTXOs) :
  toUTXO (newUTXO u) = u
  /\ toUTXOs (newUTXOs ut) = ut
  /\ (newUTXO u = newUTXO u' -> u = u').
Proof.
  split; [apply toUTXO_newUTXO|]. split; [apply toUTXOs_newUTXOs|].
  intros H. rewrite <- (toUTXO_newUTXO u), H. apply toUTXO_newUTXO.
Qed.

Lemma toInput_newTransactionInput (input : Input.t) :
  toInput (newTransactionInput input) = withoutVerifier input.
Proof.
  unfold toInput, newTransactionInput, withoutVerifier.
  cbn [transactionInput.TransactionID transactionInput.Vout
       transactionInput.PublicKeyHash transactionInput.Signature].
  rewrite !Base64Facts.DecodeString_EncodeToString. reflexivity.
Qed.

Lemma toOutput_newTransactionOutput (output : Output.t) :
  toOutput (newTransactionOutput output) = output.
Proof.
  destruct output as [value pkh]. unfold toOutput, newTransactionOutput.
  cbn [transactionOutput.Value transactionOutput.PublicKeyHash
       Output.Value Output.PublicKeyHash].
  rewrite Base64Facts.DecodeString_EncodeToString. reflexivity.
Qed.

(** X2. A transaction written to the mempool comes back with its ID, its
    outputs and the rest of its inputs, but without the [Verifier] of any
    input and with a zero [Timestamp]: it is read back unchanged exactly
    when it had none of these. *)
Theorem toTransaction_newTX (t : Transaction.t) :
  toTransaction (newTX t)
  = Transaction.mk (Transaction.ID t)
      (map withoutVerifier (Transaction.Inputs t))
      (Transaction.Outputs t) 0
  /\ (toTransaction (newTX t) = t
      <-> Transaction.Timestamp t = 0
          /\ Forall (fun input => Input.Verifier input = [])
               (Transaction.Inputs t)).
Proof.
  assert (Heq : toTransaction (newTX t)
                = Transaction.mk (Transaction.ID t)
                    (map withoutVerifier (Transaction.Inputs t))
                    (Transaction.Outputs t) 0).
  { unfold toTransaction, newTX. cbn [tx.ID tx.Inputs tx.Outputs].
    rewrite Base64Facts.DecodeString_EncodeToString, !map_map. cbn [fst].
    f_equal.
    - apply List.map_ext. intros input. apply toInput_newTransactionInput.
    - etransitivity; [|apply List.map_id].
      apply List.map_ext. intros output. apply toOutput_newTransactionOutput. }
  assert (Hmap : forall inputs,
             map withoutVerifier inputs = inputs
             <-> Forall (fun input => Input.Verifier input = []) inputs).
  { induction inputs as [|input inputs IH]; cbn [map].
    - split; [constructor | reflexivity].
    - rewrite Forall_cons, <- IH. destruct input as [a b c d verifier].
      unfold withoutVerifier at 1. cbn. split.
      + intros H. injection H as Hv Hm. split; [symmetry; exact Hv | exact Hm].
      + intros [Hv Hm]. rewrite Hv, Hm. reflexivity. }
  split; [exact Heq|]. split.
  - intros H. rewrite Heq in H. destruct t as [id inputs outputs timestamp].
    cbn in H |- *. injection H as Hin Ht.
    split; [symmetry; exact Ht | apply Hmap, Hin].
  - intros [Ht Hall]. rewrite Heq. destruct t as [id inputs outputs timestamp].
    cbn in Ht, Hall |- *. rewrite Ht. f_equal. apply Hmap, Hall.
Qed.

(** ** Transactions and sums *)

Lemma UTXOs_from_nth_error (id : bytes) (outs : Outputs) :
  forall (k : Z) (i : nat),
    nth_error (UTXOs_from id k outs) i
    = option_map
        (fun out => UTXO.mk id (Output.PublicKeyHash out) (Output.Value out)
                      (k + Z.of_nat i))
        (nth_error outs i).
Proof.
  induction outs as [|o outs IH]; intros k i.
  - destruct i; reflexivity.
  - destruct i as [|i]; cbn [nth_error UTXOs_from option_map].
    + rewrite Z.add_0_r. reflexivity.
    + rewrite IH. replace (k + 1 + Z.of_nat i) with (k + Z.of_nat (S i)) by lia.
      reflexivity.
Qed.

Lemma UTXOs_from_length (id : bytes) (outs : Outputs) (k : Z) :
  length (UTXOs_from id k outs) = length outs.
Proof.
  revert k. induction outs as [|o outs IH]; intros k; cbn; [reflexivity|].
  rewrite IH. reflexivity.
Qed.

Lemma UTXOs_from_sum (id : bytes) (outs : Outputs) :
  forall (k sum : Z),
    runningSum sum (UTXOs_from id k outs)
    = fold_left (fun sum out => GoInt.add sum (Output.Value out)) outs sum.
Proof.
  induction outs as [|o outs IH]; intros k sum; cbn; [reflexivity|].
  apply IH.
Qed.

(** X12. [Transaction.UTXOs] gives one UTXO per output, in order: the
    UTXO number [i] carries the transaction's ID, the recipient and the
    value of output [i], and [i] as [Vout].  Two of them differ in their
    [Vout], and their sum is the sum of the outputs. *)
Theorem Transaction_UTXOs_one_per_output (t : Transaction.t) :
  length (Transaction_UTXOs t) = length (Transaction.Outputs t)
  /\ (forall i : nat,
        nth_error (Transaction_UTXOs t) i
        = option_map
            (fun out => UTXO.mk (Transaction.ID t) (Output.PublicKeyHash out)
                          (Output.Value out) (Z.of_nat i))
            (nth_error (Transaction.Outputs t) i))
  /\ List.NoDup (map UTXO.Vout (Transaction_UTXOs t))
  /\ UTXOs_Sum (Transaction_UTXOs t) = Outputs_Sum (Transaction.Outputs t).
Proof.
  unfold Transaction_UTXOs.
  assert (Hnth : forall i : nat,
             nth_error (UTXOs_from (Transaction.ID t) 0 (Transaction.Outputs t)) i
             = option_map
                 (fun out => UTXO.mk (Transaction.ID t)
                               (Output.PublicKeyHash out) (Output.Value out)
                               (Z.of_nat i))
                 (nth_error (Transaction.Outputs t) i)).
  { intros i. apply (UTXOs_from_nth_error _ _ 0 i). }
  split; [apply UTXOs_from_length|]. split; [exact Hnth|]. split.
  - apply (proj2 (List.NoDup_nth_error _)). intros i j Hi Hij.
    rewrite !nth_error_map, !Hnth in Hij.
    rewrite length_map, UTXOs_from_length in Hi.
    destruct (nth_error (Transaction.Outputs t) i) as [oi|] eqn:Hoi.
    + destruct (nth_error (Transaction.Outputs t) j) as [oj|];
        cbn in Hij; [|discriminate].
      injection Hij as Hij. lia.
    + apply nth_error_None in Hoi. lia.
  - apply (UTXOs_from_sum _ _ 0 0).
Qed.

Lemma wrap_add_wrap (a b : Z) :
  GoInt.wrap (GoInt.wrap a + b) = GoInt.wrap (a + b).
Proof.
  unfold GoInt.wrap.
  replace ((a + 2 ^ 63) mod 2 ^ 64 - 2 ^ 63 + b + 2 ^ 63)
    with ((a + 2 ^ 63) mod 2 ^ 64 + b) by lia.
  rewrite Zplus_mod_idemp_l. f_equal. f_equal. lia.
Qed.

Lemma fold_add_wraps {A} (value : A -> Z) (l : list A) :
  forall sum,
    GoInt.wrap (fold_left (fun sum x => GoInt.add sum (value x)) l sum)
    = GoInt.wrap (sum + total (map value l)).
Proof.
  induction l as [|x l IH]; intros sum; cbn [fold_left map total fold_right].
  - rewrite Z.add_0_r. reflexivity.
  - rewrite IH. unfold GoInt.add. rewrite wrap_add_wrap. f_equal.
    fold (total (map value l)). lia.
Qed.

Lemma fold_add_in_range {A} (value : A -> Z) (l : list A) :
  forall sum,
    GoInt.in_range sum ->
    GoInt.in_range (fold_left (fun sum x => GoInt.add sum (value x)) l sum).
Proof.
  induction l as [|x l IH]; intros sum Hsum; [exact Hsum|].
  apply IH, GoIntFacts.wrap_in_range.
Qed.

(** X13. [UTXOs.Sum] and [Outputs.Sum] are the exact totals reduced to
    the 64-bit range: they equal the exact total whenever that total is a
    Go [int], and wrap around otherwise. *)
Theorem Sum_is_total_modulo_int (utxos : UTXOs) (outs : Outputs) :
  UTXOs_Sum utxos = GoInt.wrap (total (map UTXO.Value utxos))
  /\ Outputs_Sum outs = GoInt.wrap (total (map Output.Value outs))
  /\ (GoInt.in_range (total (map UTXO.Value utxos)) ->
      UTXOs_Sum utxos = total (map UTXO.Value utxos))
  /\ (GoInt.in_range (total (map Output.Value outs)) ->
      Outputs_Sum outs = total (map Output.Value outs)).
Proof.
  assert (H0 : GoInt.in_range 0) by (unfold GoInt.in_range; lia).
  assert (Hu : UTXOs_Sum utxos = GoInt.wrap (total (map UTXO.Value utxos))).
  { unfold UTXOs_Sum.
    rewrite <- (GoIntFacts.wrap_small _ (fold_add_in_range UTXO.Value utxos 0 H0)).
    apply (fold_add_wraps UTXO.Value utxos 0). }
  assert (Ho : Outputs_Sum outs = GoInt.wrap (total (map Output.Value outs))).
  { unfold Outputs_Sum.
    rewrite <- (GoIntFacts.wrap_small _ (fold_add_in_range Output.Value outs 0 H0)).
    apply (fold_add_wraps Output.Value outs 0). }
  split; [exact Hu|]. split; [exact Ho|]. split.
  - intros Hr. rewrite Hu. apply GoIntFacts.wrap_small, Hr.
  - intros Hr. rewrite Ho. apply GoIntFacts.wrap_small, Hr.
Qed.

Example Sum_wraps_fixture :
  UTXOs_Sum [UTXO.mk Fixture.txA Fixture.alice (2 ^ 63 - 1) 0;
             UTXO.mk Fixture.txA Fixture.alice 1 1]
  = - 2 ^ 63.
Proof. reflexivity. Qed.

(** ** Verification *)

Lemma Outputs_Find_recipients (outs outs' : Outputs) (sender : bytes) :
  map Output.PublicKeyHash outs = map Output.PublicKeyHash outs' ->
  let criteria := fun o => bytes_differ (Output.PublicKeyHash o) sender in
  Output.PublicKeyHash (fst (Outputs_Find outs criteria))
  = Output.PublicKeyHash (fst (Outputs_Find outs' criteria))
  /\ snd (Outputs_Find outs criteria) = snd (Outputs_Find outs' criteria).
Proof.
  revert outs'. induction outs as [|o outs IH]; intros outs' Hmap criteria;
    destruct outs' as [|o' outs']; try discriminate.
  - split; reflexivity.
  - cbn [map] in Hmap. injection Hmap as Ho Hmap.
    cbn [Outputs_Find]. unfold criteria at 1 3 5 7. rewrite Ho.
    destruct (bytes_differ (Output.PublicKeyHash o') sender).
    + cbn [fst snd]. auto.
    + apply IH, Hmap.
Qed.

(** X16. The verdict of [VerifyTransactions] depends on the inputs and on
    the recipients of the outputs only: two transactions with the same
    inputs and the same sequence of recipients get the same verdict,
    whatever the values of their outputs, their IDs and their timestamps.
    The values paid out are never compared with the values consumed. *)
Theorem VerifyTransactions_ignores_output_values
  (getTransactionUTXO : GetTransactionUTXO) (verifier : VerifierFn)
  (t t' : Transaction.t) :
  Transaction.Inputs t = Transaction.Inputs t' ->
  map Output.PublicKeyHash (Transaction.Outputs t)
  = map Output.PublicKeyHash (Transaction.Outputs t') ->
  VerifyTransactions getTransactionUTXO verifier t
  = VerifyTransactions getTransactionUTXO verifier t'.
Proof.
  intros Hin Hout. unfold VerifyTransactions. rewrite <- Hin. clear Hin.
  induction (Transaction.Inputs t) as [|input inputs IH];
    cbn [verifyInputs]; [reflexivity|].
  rewrite IH.
  replace (verifyInput getTransactionUTXO verifier t' input)
    with (verifyInput getTransactionUTXO verifier t input); [reflexivity|].
  unfold verifyInput.
  destruct (Outputs_Find_recipients _ _ (Input.PublicKeyHash input) Hout)
    as [Hpkh Hfound].
  destruct (Outputs_Find (Transaction.Outputs t) _) as [r found].
  destruct (Outputs_Find (Transaction.Outputs t') _) as [r' found'].
  cbn [fst snd] in Hpkh, Hfound. rewrite Hfound, Hpkh. reflexivity.
Qed.

Lemma VerifyTransactions_ignores_output_values_witness :
  VerifyTransactions
    (fun _ _ => Ok (Some (UTXO.mk Fixture.txB Fixture.alice 9 0)))
    Fixture.verifier Fixture.voteTx
  = VerifyTransactions
      (fun _ _ => Ok (Some (UTXO.mk Fixture.txB Fixture.alice 9 0)))
      Fixture.verifier
      (Transaction.mk (bytes_of_string "tx-d")
         (Transaction.Inputs Fixture.voteTx)
         [Output.mk 1000 Fixture.bob; Output.mk 1000 Fixture.alice] 0).
Proof.
  apply VerifyTransactions_ignores_output_values; reflexivity.
Defined.

(** ** [CastVote] and its outputs *)

(** X17. The outputs [CastVote] builds total the value of the UTXO it
    spends when that value is at least 1; for a UTXO worth 0 or less they
    still total 1. *)
Theorem CastVote_outputs_total (from to : bytes) (usedUTXO : UTXO.t) :
  GoInt.in_range (UTXO.Value usedUTXO) ->
  (1 <= UTXO.Value usedUTXO ->
   Outputs_Sum (voteOutputs from to usedUTXO) = UTXO.Value usedUTXO)
  /\ (UTXO.Value usedUTXO < 1 ->
      Outputs_Sum (voteOutputs from to usedUTXO) = 1).
Proof.
  intros Hr. rewrite (voteOutputs_spec from to usedUTXO Hr).
  unfold Outputs_Sum, GoInt.add. unfold GoInt.in_range in Hr.
  destruct (1 <? UTXO.Value usedUTXO) eqn:Hgt;
    [apply Z.ltb_lt in Hgt | apply Z.ltb_ge in Hgt];
    cbn [fold_left Output.Value]; rewrite Z.add_0_l;
    rewrite (GoIntFacts.wrap_small 1) by (unfold GoInt.in_range; lia).
  - split; [|lia]. intros _.
    replace (1 + (UTXO.Value usedUTXO - 1)) with (UTXO.Value usedUTXO) by lia.
    apply GoIntFacts.wrap_small. exact Hr.
  - split; lia.
Qed.

Lemma CastVote_outputs_total_witness :
  GoInt.in_range (UTXO.Value Fixture.spent)
  /\ Outputs_Sum (voteOutputs Fixture.alice Fixture.bob Fixture.spent) = 9.
Proof.
  assert (Hr : GoInt.in_range (UTXO.Value Fixture.spent))
    by (unfold GoInt.in_range; cbn; lia).
  split; [exact Hr|].
  apply (proj1 (CastVote_outputs_total Fixture.alice Fixture.bob
                  Fixture.spent Hr)).
  cbn. lia.
Defined.

(** ** Saving and reading UTXOs *)

Lemma readSaved_savedAt (tx : boltTx) (name key : bytes) (saved : utxos) :
  readSaved tx name key = Ok saved -> saved = savedAt tx name key.
Proof.
  unfold readSaved, savedAt. destruct (bolt.Get tx name key) as [[s| | |]|];
    cbn; congruence.
Qed.

Lemma readSaved_Ok_iff (tx : boltTx) (name key : bytes) :
  isOk (readSaved tx name key) = true <-> holdsUTXOs tx name key.
Proof.
  unfold readSaved, holdsUTXOs.
  destruct (bolt.Get tx name key) as [[s| | |]|]; cbn; split;
    try discriminate; eauto;
    intros [H | [s' H]]; discriminate.
Qed.

Section AppendExact.
Variables (name : bytes) (keyOf : UTXO.t -> bytes) (msg : string).

Lemma appendEach_exact (utxos : UTXOs) :
  forall tx tx',
    appendEach name keyOf msg tx utxos = Ok tx' ->
    forall key,
      bolt.Get tx' name key
      = match withKey keyOf key utxos with
        | [] => bolt.Get tx name key
        | news => Some (DocUTXOs (savedAt tx name key ++ map newUTXO news))
        end.
Proof.
  induction utxos as [|u utxos IH]; intros tx tx' H key; cbn [appendEach] in H.
  - injection H as <-. reflexivity.
  - apply rbind_Ok in H as (saved & Hread & H).
    apply rbind_Ok in H as (tx1 & Hput & H).
    apply wrapErr_Ok in Hput. apply readSaved_savedAt in Hread. subst saved.
    rewrite (IH _ _ H key). unfold withKey. cbn [List.filter].
    destruct (decide (keyOf u = key)) as [<- | Hne].
    + rewrite bool_decide_eq_true_2 by reflexivity.
      assert (Hs : savedAt tx1 name (keyOf u)
                   = savedAt tx name (keyOf u) ++ [newUTXO u]).
      { unfold savedAt at 1.
        rewrite (boltFacts.Put_Get_same _ _ _ _ _ Hput). reflexivity. }
      destruct (List.filter _ utxos) as [|u' news].
      * apply (boltFacts.Put_Get_same _ _ _ _ _ Hput).
      * rewrite Hs, <- app_assoc. reflexivity.
    + rewrite bool_decide_eq_false_2 by exact Hne.
      assert (Hg : bolt.Get tx1 name key = bolt.Get tx name key).
      { apply (boltFacts.Put_Get_other_key _ _ _ _ _ _ Hput). auto. }
      unfold savedAt. rewrite Hg. reflexivity.
Qed.

Lemma appendEach_Ok_iff (utxos : UTXOs) :
  forall tx,
    bolt.hasBucket tx name = true ->
    (isOk (appendEach name keyOf msg tx utxos) = true
     <-> Forall (fun u => validKey (keyOf u) /\ holdsUTXOs tx name (keyOf u))
           utxos).
Proof.
  induction utxos as [|u utxos IH]; intros tx Hb; cbn [appendEach].
  - split; [constructor | reflexivity].
  - rewrite Forall_cons, <- readSaved_Ok_iff.
    destruct (readSaved tx name (keyOf u)) as [saved|e] eqn:Hread; cbn;
      [|split; [discriminate | intros [[_ [=]] _]]].
    destruct (bolt.Put tx name (keyOf u) (DocUTXOs (saved ++ [newUTXO u])))
      as [tx1|e] eqn:Hput; cbn.
    + assert (Hvalid : validKey (keyOf u)).
      { unfold validKey. unfold bolt.Put in Hput.
        destruct (bool_decide (keyOf u = [])) eqn:Hk; [discriminate|].
        apply bool_decide_eq_false in Hk.
        destruct (bolt.MaxKeySize <? _) eqn:Hlen; [discriminate|].
        apply Z.ltb_ge in Hlen. auto. }
      rewrite (IH tx1)
        by (rewrite (boltFacts.Put_hasBucket _ _ _ _ _ _ Hput); exact Hb).
      assert (Hsame : forall u',
                 holdsUTXOs tx1 name (keyOf u') <-> holdsUTXOs tx name (keyOf u')).
      { intros u'. unfold holdsUTXOs.
        destruct (decide (keyOf u' = keyOf u)) as [-> | Hne].
        - rewrite (boltFacts.Put_Get_same _ _ _ _ _ Hput).
          assert (Hh : holdsUTXOs tx name (keyOf u)).
          { apply readSaved_Ok_iff. rewrite Hread. reflexivity. }
          unfold holdsUTXOs in Hh. split; [intros _; exact Hh | eauto].
        - rewrite (boltFacts.Put_Get_other_key _ _ _ _ _ _ Hput Hne).
          reflexivity. }
      split.
      * intros Hall. split; [auto|].
        eapply Forall_impl; [exact Hall|]. cbn. intros u' [Hv Hh].
        split; [exact Hv | apply Hsame, Hh].
      * intros [_ Hall]. eapply Forall_impl; [exact Hall|]. cbn.
        intros u' [Hv Hh]. split; [exact Hv | apply Hsame, Hh].
    + split; [discriminate|]. intros [[[Hk Hlen] _] _].
      destruct (boltFacts.Put_succeeds tx name (keyOf u)
                  (DocUTXOs (saved ++ [newUTXO u])) Hb Hk Hlen) as [tx1 Hok].
      congruence.
Qed.

End AppendExact.

Lemma openBucket_succeeds (tx : boltTx) (name : bytes) (msg : string) :
  name <> [] -> exists tx', openBucket tx name msg = Ok tx'.
Proof.
  intros Hname. unfold openBucket, bolt.CreateBucket.
  destruct (bolt.hasBucket tx name); [eauto|].
  rewrite bool_decide_eq_false_2 by exact Hname. cbn. eauto.
Qed.

Lemma savedAt_Get_eq (tx tx' : boltTx) (name key : bytes) :
  bolt.Get tx' name key = bolt.Get tx name key ->
  savedAt tx' name key = savedAt tx name key.
Proof. unfold savedAt. intros ->. reflexivity. Qed.

(** What [saveUTXOs] leaves under every key of the two indices. *)
Lemma saveUTXOs_exact (tx tx' : boltTx) (utxos : UTXOs) :
  saveUTXOs tx utxos = Ok tx' ->
  (forall key,
     bolt.Get tx' utxoByPublicKeyBucket key
     = match withKey UTXO.PublicKeyHash key utxos with
       | [] => bolt.Get tx utxoByPublicKeyBucket key
       | news => Some (DocUTXOs (savedAt tx utxoByPublicKeyBucket key
                                 ++ map newUTXO news))
       end)
  /\ (forall key,
        bolt.Get tx' utxoByTxBucket key
        = match withKey UTXO.TransactionID key utxos with
          | [] => bolt.Get tx utxoByTxBucket key
          | news => Some (DocUTXOs (savedAt tx utxoByTxBucket key
                                    ++ map newUTXO news))
          end).
Proof.
  unfold saveUTXOs, saveUTXOsByPublicKey, saveUTXOsByTransactionID.
  intros H. apply rbind_Ok in H as (tx2 & H1 & H2).
  apply wrapErr_Ok in H1, H2.
  apply rbind_Ok in H1 as (tx1 & Ho1 & H1).
  apply rbind_Ok in H2 as (tx3 & Ho2 & H2).
  rewrite saveUTXOsByPublicKey_loop_appendEach in H1.
  rewrite saveUTXOsByTransactionID_loop_appendEach in H2.
  apply openBucket_Ok in Ho1 as (_ & Hg1 & _).
  apply openBucket_Ok in Ho2 as (_ & Hg2 & _).
  pose proof (appendEach_exact _ _ _ _ _ _ H1) as Hex1.
  pose proof (appendEach_exact _ _ _ _ _ _ H2) as Hex2.
  apply appendEach_spec in H1 as (Hother1 & _).
  apply appendEach_spec in H2 as (Hother2 & _).
  pose proof bucket_names_differ as (Hne & _).
  split; intros key.
  - rewrite (Hother2 utxoByPublicKeyBucket key) by auto.
    rewrite Hg2, Hex1, Hg1, (savedAt_Get_eq _ _ _ _ (Hg1 _ _)). reflexivity.
  - rewrite Hex2, Hg2, (Hother1 utxoByTxBucket key Hne), Hg1.
    rewrite (savedAt_Get_eq tx3 tx).
    + reflexivity.
    + rewrite Hg2, (Hother1 utxoByTxBucket key Hne), Hg1. reflexivity.
Qed.

(** Reading a key of an index to which [news] have been appended. *)
Lemma read_appended (tx tx' : boltTx) (name key : bytes) (news : UTXOs)
  (before : UTXOs) :
  bolt.Get tx' name key
  = match news with
    | [] => bolt.Get tx name key
    | _ => Some (DocUTXOs (savedAt tx name key ++ map newUTXO news))
    end ->
  rbind (readUTXOs tx name key) (fun utxos => Ok (toUTXOs utxos)) = Ok before ->
  rbind (readUTXOs tx' name key) (fun utxos => Ok (toUTXOs utxos))
  = Ok (before ++ news).
Proof.
  intros Hget Hbefore. rewrite readUTXOs_Get in Hbefore |- *. rewrite Hget.
  destruct news as [|u news].
  - rewrite app_nil_r. exact Hbefore.
  - assert (Happ : forall s,
               toUTXOs (s ++ map newUTXO (u :: news))
               = toUTXOs s ++ u :: news).
    { intros s. change (map newUTXO (u :: news)) with (newUTXOs (u :: news)).
      unfold toUTXOs at 1. rewrite map_app. fold (toUTXOs s).
      fold (toUTXOs (newUTXOs (u :: news))). rewrite toUTXOs_newUTXOs.
      reflexivity. }
    unfold savedAt.
    destruct (bolt.Get tx name key) as [[s| | |]|];
      cbn [unmarshal_utxos wrapErr rbind] in Hbefore |- *;
      try discriminate; injection Hbefore as <-; rewrite Happ; reflexivity.
Qed.

(** X3. [saveUTXOs] appends: after a successful call, what
    [getUTXOsByPublicKey] returns for a key is what it returned before
    followed by the saved UTXOs of that owner, in the order given, and
    likewise for [getUTXOByTransactionID] and the saved UTXOs of that
    transaction.  Nothing that could be read is lost or reordered. *)
Theorem saveUTXOs_appends_in_order
  (tx tx' : boltTx) (utxos : UTXOs) :
  saveUTXOs tx utxos = Ok tx' ->
  (forall publicKeyHash before,
     getUTXOsByPublicKey tx publicKeyHash = Ok before ->
     getUTXOsByPublicKey tx' publicKeyHash
     = Ok (before ++ withKey UTXO.PublicKeyHash publicKeyHash utxos))
  /\ (forall transactionID before,
        getUTXOByTransactionID tx transactionID = Ok before ->
        getUTXOByTransactionID tx' transactionID
        = Ok (before ++ withKey UTXO.TransactionID transactionID utxos)).
Proof.
  intros H. apply saveUTXOs_exact in H as [Hp Ht]. split.
  - intros pkh before Hb. apply (read_appended tx tx'); [|exact Hb].
    rewrite Hp. destruct (withKey _ _ _); reflexivity.
  - intros id before Hb. apply (read_appended tx tx'); [|exact Hb].
    rewrite Ht. destruct (withKey _ _ _); reflexivity.
Qed.

Lemma Fixture_store_saved :
  saveUTXOs ∅ Fixture.masterUTXOs = Ok Fixture.store.
Proof.
  assert (H : isOk (saveUTXOs ∅ Fixture.masterUTXOs) = true)
    by (vm_compute; reflexivity).
  apply (isOk_getOk ∅) in H. exact H.
Defined.

Lemma saveUTXOs_appends_in_order_witness :
  saveUTXOs ∅ Fixture.masterUTXOs = Ok Fixture.store
  /\ getUTXOsByPublicKey Fixture.store Fixture.alice
     = Ok ([] ++ withKey UTXO.PublicKeyHash Fixture.alice Fixture.masterUTXOs).
Proof.
  split; [exact Fixture_store_saved|].
  apply (proj1 (saveUTXOs_appends_in_order ∅ Fixture.store
                  Fixture.masterUTXOs Fixture_store_saved) Fixture.alice []).
  vm_compute. reflexivity.
Defined.

Lemma isOk_wrapErr {A} (r : result A) (msg : string) :
  isOk (wrapErr r msg) = isOk r.
Proof. destruct r; reflexivity. Qed.

Lemma holdsUTXOs_Get_eq (tx tx' : boltTx) (name key : bytes) :
  bolt.Get tx' name key = bolt.Get tx name key ->
  holdsUTXOs tx' name key <-> holdsUTXOs tx name key.
Proof. unfold holdsUTXOs. intros ->. reflexivity. Qed.

Lemma bucket_names_nonempty :
  utxoByPublicKeyBucket <> [] /\ utxoByTxBucket <> []
  /\ transactionsBucket <> [] /\ blocksBucket <> [].
Proof. repeat split; discriminate. Qed.

(** X4. [saveUTXOs] succeeds exactly when, for every UTXO to save, the
    owner's hash and the transaction ID are keys bolt accepts (not empty,
    at most [MaxKeySize] bytes) and each index holds under that key
    nothing or a list of UTXOs.  A UTXO with an empty owner or an empty
    transaction ID makes the whole call fail. *)
Theorem saveUTXOs_succeeds_iff (tx : boltTx) (utxos : UTXOs) :
  isOk (saveUTXOs tx utxos) = true
  <-> Forall (fun u =>
                (validKey (UTXO.PublicKeyHash u)
                 /\ holdsUTXOs tx utxoByPublicKeyBucket (UTXO.PublicKeyHash u))
                /\ validKey (UTXO.TransactionID u)
                   /\ holdsUTXOs tx utxoByTxBucket (UTXO.TransactionID u))
       utxos.
Proof.
  pose proof bucket_names_nonempty as (HnP & HnT & _).
  pose proof bucket_names_differ as (Hne & _).
  rewrite Forall_and.
  unfold saveUTXOs, saveUTXOsByPublicKey, saveUTXOsByTransactionID.
  destruct (openBucket_succeeds tx utxoByPublicKeyBucket
              "Failed to create bucket %s" HnP) as [tx1 Ho1].
  rewrite Ho1. cbn [rbind].
  rewrite saveUTXOsByPublicKey_loop_appendEach.
  apply openBucket_Ok in Ho1 as (Hb1 & Hg1 & _).
  pose proof (appendEach_Ok_iff utxoByPublicKeyBucket UTXO.PublicKeyHash
                "Failed to save utxo set for %x" utxos tx1 Hb1) as Hiff1.
  assert (HP : Forall (fun u => validKey (UTXO.PublicKeyHash u)
                                /\ holdsUTXOs tx1 utxoByPublicKeyBucket
                                     (UTXO.PublicKeyHash u)) utxos
               <-> Forall (fun u => validKey (UTXO.PublicKeyHash u)
                                    /\ holdsUTXOs tx utxoByPublicKeyBucket
                                         (UTXO.PublicKeyHash u)) utxos).
  { apply Forall_iff. intros u.
    rewrite (holdsUTXOs_Get_eq tx tx1 _ _ (Hg1 _ _)). reflexivity. }
  rewrite HP in Hiff1. clear HP.
  destruct (appendEach utxoByPublicKeyBucket _ _ tx1 utxos) as [tx2|e] eqn:H1;
    cbn [wrapErr rbind isOk] in Hiff1 |- *.
  2:{ split; [discriminate|]. intros [HP _]. apply Hiff1 in HP. discriminate. }
  destruct (openBucket_succeeds tx2 utxoByTxBucket
              "Failed to create bucket %s" HnT) as [tx3 Ho2].
  rewrite Ho2. cbn [rbind]. rewrite isOk_wrapErr.
  rewrite saveUTXOsByTransactionID_loop_appendEach.
  apply openBucket_Ok in Ho2 as (Hb2 & Hg2 & _).
  apply appendEach_spec in H1 as (Hother1 & _).
  rewrite (appendEach_Ok_iff utxoByTxBucket UTXO.TransactionID
             "Failed to save utxo set for tx id %x" utxos tx3 Hb2).
  assert (HT : Forall (fun u => validKey (UTXO.TransactionID u)
                                /\ holdsUTXOs tx3 utxoByTxBucket
                                     (UTXO.TransactionID u)) utxos
               <-> Forall (fun u => validKey (UTXO.TransactionID u)
                                    /\ holdsUTXOs tx utxoByTxBucket
                                         (UTXO.TransactionID u)) utxos).
  { apply Forall_iff. intros u.
    rewrite (holdsUTXOs_Get_eq tx tx3); [reflexivity|].
    rewrite Hg2, (Hother1 _ _ Hne), Hg1. reflexivity. }
  rewrite HT. split; [intros H; split; [apply Hiff1; reflexivity | exact H]|].
  intros [_ H]. exact H.
Qed.

Example saveUTXOs_empty_owner :
  result_map (fun _ : boltTx => tt)
    (saveUTXOs ∅ [UTXO.mk Fixture.txA [] 1 0])
  = Err (Wrap (Wrap ErrKeyRequired "Failed to save utxo set for %x")
           "Failed to save utxo by public key").
Proof. vm_compute. reflexivity. Qed.

Lemma findVout_find (saved : utxos) (vout : Z) :
  findVout saved vout
  = List.find (fun u => UTXO.Vout u =? vout) (toUTXOs saved).
Proof.
  induction saved as [|u saved IH]; cbn; [reflexivity|].
  destruct (utxo.Vout u =? vout); [reflexivity | exact IH].
Qed.

(** X5. [getTransactionUTXO] agrees with [getUTXOByTransactionID]: it
    fails with the same error, and otherwise returns the first UTXO of
    that list whose [Vout] is the one asked for, nil when there is none.
    The UTXO it returns therefore has the [Vout] asked for and belongs to
    the list of the transaction. *)
Theorem getTransactionUTXO_first_of_list
  (tx : boltTx) (transactionID : bytes) (vout : Z) :
  getTransactionUTXO tx transactionID vout
  = (utxos <- getUTXOByTransactionID tx transactionID;;
     Ok (List.find (fun u => UTXO.Vout u =? vout) utxos))
  /\ forall u,
       getTransactionUTXO tx transactionID vout = Ok (Some u) ->
       UTXO.Vout u = vout
       /\ exists utxos,
            getUTXOByTransactionID tx transactionID = Ok utxos /\ In u utxos.
Proof.
  assert (Heq : getTransactionUTXO tx transactionID vout
                = (utxos <- getUTXOByTransactionID tx transactionID;;
                   Ok (List.find (fun u => UTXO.Vout u =? vout) utxos))).
  { unfold getTransactionUTXO, getUTXOByTransactionID.
    destruct (readUTXOs tx utxoByTxBucket transactionID) as [saved|e];
      cbn [rbind]; [|reflexivity].
    rewrite findVout_find. reflexivity. }
  split; [exact Heq|]. intros u Hu. rewrite Heq in Hu.
  destruct (getUTXOByTransactionID tx transactionID) as [utxos|e];
    cbn [rbind] in Hu; [|discriminate].
  injection Hu as Hfind. apply find_some in Hfind as [Hin Hv].
  split; [apply Z.eqb_eq, Hv | eauto].
Qed.

(** ** Deleting UTXOs *)

Lemma Put_validKey (tx tx' : boltTx) (name key : bytes) (v : document) :
  bolt.Put tx name key v = Ok tx' -> validKey key.
Proof.
  unfold bolt.Put, validKey. intros H.
  destruct (bool_decide (key = [])) eqn:Hk; [discriminate|].
  apply bool_decide_eq_false in Hk.
  destruct (bolt.MaxKeySize <? _) eqn:Hlen; [discriminate|].
  apply Z.ltb_ge in Hlen. auto.
Qed.

Lemma Put_same_value (tx : boltTx) (name key : bytes) (v : document) :
  bolt.Get tx name key = Some v -> validKey key ->
  bolt.Put tx name key v = Ok tx.
Proof.
  unfold bolt.Get, bolt.Put. intros Hget [Hk Hlen].
  rewrite bool_decide_eq_false_2 by exact Hk.
  apply Z.ltb_ge in Hlen. rewrite Hlen.
  destruct (tx !! name) as [b|] eqn:Hb; [|discriminate].
  rewrite (insert_id b key v Hget), (insert_id tx name b Hb). reflexivity.
Qed.

Lemma Put_Put_back (tx tx1 : boltTx) (name key : bytes) (v1 v2 : document) :
  bolt.Put tx name key v1 = Ok tx1 ->
  bolt.Get tx name key = Some v2 ->
  bolt.Put tx1 name key v2 = Ok tx.
Proof.
  intros Hput Hget. pose proof (Put_validKey _ _ _ _ _ Hput) as [Hk Hlen].
  apply boltFacts.Put_Ok in Hput as (_ & b & Hb & ->).
  unfold bolt.Get in Hget. rewrite Hb in Hget. unfold bolt.Put.
  rewrite bool_decide_eq_false_2 by exact Hk.
  apply Z.ltb_ge in Hlen. rewrite Hlen, lookup_insert_eq.
  rewrite !insert_insert_eq.
  rewrite (insert_id b key v2 Hget), (insert_id tx name b Hb). reflexivity.
Qed.

Lemma filter_idem {A} (f : A -> bool) (l : list A) :
  List.filter f (List.filter f l) = List.filter f l.
Proof.
  induction l as [|x l IH]; cbn; [reflexivity|].
  destruct (f x) eqn:Hf; cbn; rewrite ?Hf, IH; reflexivity.
Qed.

(** X6. [deleteUTXO] is idempotent: once a call has succeeded, a second
    call with the same UTXO succeeds and leaves the store exactly as the
    first call left it. *)
Theorem deleteUTXO_idempotent (tx tx' : boltTx) (utxo : UTXO.t) :
  deleteUTXO tx utxo = Ok tx' -> deleteUTXO tx' utxo = Ok tx'.
Proof.
  intros H. pose proof H as H0. unfold deleteUTXO in H.
  apply rbind_Ok in H as (tx1 & H1 & H2). apply wrapErr_Ok in H1, H2.
  pose proof bucket_names_differ as (Hne & _).
  apply deleteUTXOByPublicKey_Ok in H1 as [[Hb ->] | (l1 & Hl1 & Hput1)].
  { apply deleteUTXOByTransactionID_Ok in H2 as [[_ ->] | (l2 & _ & Hput2)];
      [exact H0|].
    apply boltFacts.Put_Ok in Hput2 as (_ & b & Hsome & _).
    apply boltFacts.hasBucket_false in Hb. congruence. }
  assert (Hb1 : bolt.hasBucket tx1 utxoByPublicKeyBucket = true).
  { apply (boltFacts.Get_Some_hasBucket _ _ _ _
             (boltFacts.Put_Get_same _ _ _ _ _ Hput1)). }
  apply deleteUTXOByTransactionID_Ok in H2 as [[Hb _] | (l2 & Hl2 & Hput2)];
    [congruence|].
  assert (Hb' : bolt.hasBucket tx' utxoByPublicKeyBucket = true).
  { apply (boltFacts.Get_Some_hasBucket _ _ _ _
             (boltFacts.Put_Get_same _ _ _ _ _ Hput2)). }
  assert (HT' : tx' !! utxoByTxBucket = tx1 !! utxoByTxBucket)
    by apply (boltFacts.Put_other_bucket _ _ _ _ _ _ Hput2 Hne).
  pose proof (Put_validKey _ _ _ _ _ Hput1) as Hv1.
  pose proof (Put_validKey _ _ _ _ _ Hput2) as Hv2.
  pose proof (boltFacts.Put_Get_same _ _ _ _ _ Hput2) as Hget2.
  unfold deleteUTXO, deleteUTXOByPublicKey. rewrite Hb'. cbn [negb].
  destruct (decide (UTXO.PublicKeyHash utxo = UTXO.TransactionID utxo))
    as [Heq | Hdiff].
  - assert (Hget2' : bolt.Get tx' utxoByPublicKeyBucket
                         (UTXO.PublicKeyHash utxo)
                       = bolt.Get tx' utxoByPublicKeyBucket
                           (UTXO.TransactionID utxo))
      by (rewrite Heq; reflexivity).
    rewrite Hget2 in Hget2'.
    rewrite (getUTXOsByPublicKey_Get _ _ _ Hget2'), toUTXOs_newUTXOs.
    cbn [wrapErr rbind].
    match goal with
    | |- context [bolt.Put tx' ?n ?k ?v] =>
        destruct (boltFacts.Put_succeeds tx' n k v Hb' (proj1 Hv1) (proj2 Hv1))
          as [tx2 Hput3]
    end.
    rewrite Hput3. cbn [wrapErr rbind].
    unfold deleteUTXOByTransactionID.
    rewrite (boltFacts.Put_hasBucket _ _ _ _ _ _ Hput3), Hb'. cbn [negb].
    rewrite (getUTXOByTransactionID_byTx tx1 tx2), Hl2.
    2:{ rewrite (boltFacts.Put_other_bucket _ _ _ _ _ _ Hput3 Hne). exact HT'. }
    cbn [wrapErr rbind]. rewrite UTXOs_Filter_filter.
    rewrite Heq in Hput3.
    rewrite (Put_Put_back _ _ _ _ _ _ Hput3 Hget2). reflexivity.
  - assert (Hget1 : bolt.Get tx' utxoByPublicKeyBucket (UTXO.PublicKeyHash utxo)
                    = Some (DocUTXOs (newUTXOs
                         (List.filter
                            (fun u => bytes_differ (UTXO.TransactionID utxo)
                                        (UTXO.TransactionID u)) l1)))).
    { rewrite (boltFacts.Put_Get_other_key _ _ _ _ _ _ Hput2 Hdiff).
      apply (boltFacts.Put_Get_same _ _ _ _ _ Hput1). }
    rewrite (getUTXOsByPublicKey_Get _ _ _ Hget1), toUTXOs_newUTXOs.
    cbn [wrapErr rbind]. rewrite UTXOs_Filter_filter, filter_idem.
    rewrite (Put_same_value _ _ _ _ Hget1 Hv1). cbn [wrapErr rbind].
    unfold deleteUTXOByTransactionID. rewrite Hb'. cbn [negb].
    rewrite (getUTXOByTransactionID_byTx tx1 tx' _ HT'), Hl2.
    cbn [wrapErr rbind]. rewrite UTXOs_Filter_filter.
    rewrite (Put_same_value _ _ _ _ Hget2 Hv2). reflexivity.
Qed.

Lemma deleteUTXO_idempotent_witness :
  deleteUTXO Fixture.store Fixture.spent
  = Ok (getOk ∅ (deleteUTXO Fixture.store Fixture.spent))
  /\ deleteUTXO (getOk ∅ (deleteUTXO Fixture.store Fixture.spent))
       Fixture.spent
     = Ok (getOk ∅ (deleteUTXO Fixture.store Fixture.spent)).
Proof.
  assert (H : deleteUTXO Fixture.store Fixture.spent
              = Ok (getOk ∅ (deleteUTXO Fixture.store Fixture.spent))).
  { apply isOk_getOk. vm_compute. reflexivity. }
  split; [exact H|]. exact (deleteUTXO_idempotent _ _ _ H).
Defined.

Lemma deleteTransactionsUTXOs_keeps_byTx (transactions : list Transaction.t) :
  forall tx tx',
    deleteTransactionsUTXOs tx transactions = Returns tx' ->
    tx' !! utxoByTxBucket = tx !! utxoByTxBucket.
Proof.
  induction transactions as [|tr transactions IH]; intros tx tx' H;
    cbn [deleteTransactionsUTXOs] in H.
  - injection H as <-. reflexivity.
  - destruct (deleteTransactionUTXOs tx tr) as [tx1| |] eqn:H1;
      try discriminate.
    rewrite (IH _ _ H).
    apply (deleteInputsUTXOs_keeps_byTx _ _ _ H1).
Qed.

Lemma deleteTransactionsUTXOs_inputs (transactions : list Transaction.t) :
  forall tx tx',
    deleteTransactionsUTXOs tx transactions = Returns tx' ->
    forall tr input,
      In tr transactions -> In input (Transaction.Inputs tr) ->
      exists utxo,
        getTransactionUTXO tx (Input.TransactionID input) (Input.Vout input)
        = Ok (Some utxo).
Proof.
  induction transactions as [|t transactions IH]; intros tx tx' H tr input Htr Hin;
    [destruct Htr|].
  cbn [deleteTransactionsUTXOs] in H.
  destruct (deleteTransactionUTXOs tx t) as [tx1| |] eqn:H1; try discriminate.
  destruct Htr as [<- | Htr].
  - apply (deleteInputsUTXOs_Returns _ _ _ H1 input Hin).
  - rewrite <- (getTransactionUTXO_byTx _ _ _ _
                  (deleteInputsUTXOs_keeps_byTx _ _ _ H1)).
    apply (IH _ _ H tr input Htr Hin).
Qed.

(** X7. When [deleteTransactionsUTXOs] returns normally, every input of
    every transaction referenced a UTXO of the by-tx index, and that
    index reads as before the call: [getTransactionUTXO] still returns
    each of the UTXOs that have just been consumed. *)
Theorem deleteTransactionsUTXOs_leaves_outputs_spendable
  (tx tx' : boltTx) (transactions : list Transaction.t) :
  deleteTransactionsUTXOs tx transactions = Returns tx' ->
  (forall transactionID vout,
     getTransactionUTXO tx' transactionID vout
     = getTransactionUTXO tx transactionID vout)
  /\ forall tr input,
       In tr transactions -> In input (Transaction.Inputs tr) ->
       exists utxo,
         getTransactionUTXO tx' (Input.TransactionID input) (Input.Vout input)
         = Ok (Some utxo).
Proof.
  intros H.
  pose proof (deleteTransactionsUTXOs_keeps_byTx _ _ _ H) as Hkeep.
  split.
  - intros id vout. apply getTransactionUTXO_byTx, Hkeep.
  - intros tr input Htr Hin. rewrite (getTransactionUTXO_byTx _ _ _ _ Hkeep).
    apply (deleteTransactionsUTXOs_inputs _ _ _ H tr input Htr Hin).
Qed.

Example deleteTransactionsUTXOs_fixture :
  match deleteTransactionsUTXOs Fixture.store [Fixture.voteTx] with
  | Returns tx' => getTransactionUTXO tx' Fixture.txB 0
  | Fails err => Err err
  | Panics => Ok None
  end
  = Ok (Some Fixture.spent).
Proof. vm_compute. reflexivity. Qed.

Lemma isReturns_getReturns {A} (default : A) (o : outcome A) :
  isReturns o = true -> o = Returns (getReturns default o).
Proof. destruct o; [reflexivity | discriminate | discriminate]. Qed.

Lemma deleteTransactionsUTXOs_leaves_outputs_spendable_witness :
  deleteTransactionsUTXOs Fixture.store [Fixture.voteTx]
  = Returns (getReturns ∅
               (deleteTransactionsUTXOs Fixture.store [Fixture.voteTx]))
  /\ getTransactionUTXO
       (getReturns ∅ (deleteTransactionsUTXOs Fixture.store [Fixture.voteTx]))
       Fixture.txB 0
     = getTransactionUTXO Fixture.store Fixture.txB 0.
Proof.
  assert (H : deleteTransactionsUTXOs Fixture.store [Fixture.voteTx]
              = Returns (getReturns ∅
                           (deleteTransactionsUTXOs Fixture.store
                              [Fixture.voteTx]))).
  { apply isReturns_getReturns. vm_compute. reflexivity. }
  split; [exact H|].
  exact (proj1 (deleteTransactionsUTXOs_leaves_outputs_spendable _ _ _ H)
           Fixture.txB 0).
Defined.

(** ** The mempool *)

Lemma Put_Ok_iff (tx : boltTx) (name key : bytes) (v : document) :
  bolt.hasBucket tx name = true ->
  (isOk (bolt.Put tx name key v) = true <-> validKey key).
Proof.
  intros Hb. split.
  - destruct (bolt.Put tx name key v) as [tx'|e] eqn:Hput; [|discriminate].
    intros _. apply (Put_validKey _ _ _ _ _ Hput).
  - intros [Hk Hlen].
    destruct (boltFacts.Put_succeeds tx name key v Hb Hk Hlen) as [tx' ->].
    reflexivity.
Qed.

Lemma Delete_succeeds (tx : boltTx) (name key : bytes) :
  bolt.hasBucket tx name = true -> exists tx', bolt.Delete tx name key = Ok tx'.
Proof.
  intros Hb. apply boltFacts.hasBucket_true in Hb as [b Hb].
  unfold bolt.Delete. rewrite Hb. eauto.
Qed.

(** X8. [saveTransaction] succeeds exactly when the transaction's ID is a
    key bolt accepts; it then holds the stored form of the transaction
    under its ID, replacing what was there, and touches no other entry of
    the mempool.  [deleteTransaction] of a saved transaction always
    succeeds, removes that entry and leaves the others as they were
    before the save. *)
Theorem saveTransaction_then_deleteTransaction
  (tx : boltTx) (transaction : Transaction.t) :
  (isOk (saveTransaction tx transaction) = true
   <-> validKey (Transaction.ID transaction))
  /\ forall tx1,
       saveTransaction tx transaction = Ok tx1 ->
       bolt.Get tx1 transactionsBucket (Transaction.ID transaction)
       = Some (DocTX (newTX transaction))
       /\ (forall key, key <> Transaction.ID transaction ->
             bolt.Get tx1 transactionsBucket key
             = bolt.Get tx transactionsBucket key)
       /\ exists tx2,
            deleteTransaction tx1 transaction = Ok tx2
            /\ bolt.Get tx2 transactionsBucket (Transaction.ID transaction)
               = None
            /\ forall key, key <> Transaction.ID transaction ->
                 bolt.Get tx2 transactionsBucket key
                 = bolt.Get tx transactionsBucket key.
Proof.
  pose proof bucket_names_nonempty as (_ & _ & HnE & _).
  unfold saveTransaction.
  destruct (openBucket_succeeds tx transactionsBucket
              "Failed to create bucket %s" HnE) as [tx0 Ho].
  rewrite Ho. cbn [rbind].
  apply openBucket_Ok in Ho as (Hb0 & Hg0 & _).
  split.
  - rewrite isOk_wrapErr. apply Put_Ok_iff, Hb0.
  - intros tx1 Hput. apply wrapErr_Ok in Hput.
    assert (Hb1 : bolt.hasBucket tx1 transactionsBucket = true).
    { rewrite (boltFacts.Put_hasBucket _ _ _ _ _ _ Hput). exact Hb0. }
    assert (Hother : forall key, key <> Transaction.ID transaction ->
                       bolt.Get tx1 transactionsBucket key
                       = bolt.Get tx transactionsBucket key).
    { intros key Hne.
      rewrite (boltFacts.Put_Get_other_key _ _ _ _ _ _ Hput Hne). apply Hg0. }
    split; [apply (boltFacts.Put_Get_same _ _ _ _ _ Hput)|].
    split; [exact Hother|].
    unfold deleteTransaction. rewrite Hb1. cbn [negb].
    destruct (Delete_succeeds tx1 transactionsBucket
                (Transaction.ID transaction) Hb1) as [tx2 Hdel].
    rewrite Hdel. exists tx2. split; [reflexivity|]. split.
    + apply (boltFacts.Delete_Get_same _ _ _ _ Hdel).
    + intros key Hne.
      rewrite (boltFacts.Delete_Get_other_key _ _ _ _ _ Hdel Hne).
      apply Hother, Hne.
Qed.

Example saveTransaction_fixture :
  result_map
    (fun tx1 => bolt.Get tx1 transactionsBucket (bytes_of_string "tx-c"))
    (saveTransaction ∅ Fixture.voteTx)
  = Ok (Some (DocTX (newTX Fixture.voteTx)))
  /\ isOk (saveTransaction ∅ (Transaction.mk [] [] [] 0)) = false.
Proof. split; vm_compute; reflexivity. Qed.

(** ** Initialising the chain *)

Lemma tipKey_valid : validKey tipKey.
Proof. split; [discriminate | vm_compute; discriminate]. Qed.

Lemma InitBlockchain_Ok (db db' : boltTx) (genesis : Block.t) :
  snd (InitBlockchain_update genesis db) = Ok db' ->
  bolt.hasBucket db blocksBucket = false
  /\ validKey (Header.Hash (Block.Header genesis))
  /\ fst (InitBlockchain_update genesis db) = Header.Hash (Block.Header genesis)
  /\ bolt.Get db' blocksBucket tipKey
     = Some (DocBytes (Header.Hash (Block.Header genesis)))
  /\ (Header.Hash (Block.Header genesis) <> tipKey ->
      bolt.Get db' blocksBucket (Header.Hash (Block.Header genesis))
      = Some (DocBlock genesis))
  /\ (forall name key, name <> blocksBucket ->
        bolt.Get db' name key = bolt.Get db name key).
Proof.
  unfold InitBlockchain_update.
  destruct (rbind _ _) as [tx3|e] eqn:Hrun; cbn [fst snd]; [|discriminate].
  intros [= <-].
  apply rbind_Ok in Hrun as (tx1 & Hc & Hrun).
  apply rbind_Ok in Hrun as (tx2 & Hput1 & Hput2).
  apply wrapErr_Ok in Hc, Hput1, Hput2.
  pose proof (Put_validKey _ _ _ _ _ Hput1) as Hvalid.
  assert (Hg : forall name key, bolt.Get tx1 name key = bolt.Get db name key)
    by (intros name key; apply (boltFacts.CreateBucket_Get _ _ _ _ _ Hc)).
  apply boltFacts.CreateBucket_Ok in Hc as [Hnone _].
  split; [apply boltFacts.hasBucket_false, Hnone|].
  split; [exact Hvalid|]. split; [reflexivity|].
  split; [apply (boltFacts.Put_Get_same _ _ _ _ _ Hput2)|]. split.
  - intros Hne.
    rewrite (boltFacts.Put_Get_other_key _ _ _ _ _ _ Hput2 Hne).
    apply (boltFacts.Put_Get_same _ _ _ _ _ Hput1).
  - intros name key Hne.
    rewrite (boltFacts.Put_Get_other_bucket _ _ _ _ _ _ _ Hput2 Hne).
    rewrite (boltFacts.Put_Get_other_bucket _ _ _ _ _ _ _ Hput1 Hne).
    apply Hg.
Qed.

Lemma InitBlockchain_update_succeeds (db : boltTx) (genesis : Block.t) :
  bolt.hasBucket db blocksBucket = false ->
  validKey (Header.Hash (Block.Header genesis)) ->
  exists db', snd (InitBlockchain_update genesis db) = Ok db'.
Proof.
  intros Hb [Hk Hlen]. pose proof bucket_names_nonempty as (_ & _ & _ & HnB).
  pose proof tipKey_valid as [Htk Htlen].
  unfold InitBlockchain_update, bolt.CreateBucket. rewrite Hb.
  rewrite bool_decide_eq_false_2 by exact HnB. cbn [wrapErr rbind].
  assert (Hb1 : bolt.hasBucket (<[blocksBucket := ∅]> db) blocksBucket = true).
  { apply boltFacts.hasBucket_true. rewrite lookup_insert_eq. eauto. }
  destruct (boltFacts.Put_succeeds _ blocksBucket _ (DocBlock genesis)
              Hb1 Hk Hlen) as [tx2 Hput1].
  rewrite Hput1. cbn [wrapErr rbind].
  assert (Hb2 : bolt.hasBucket tx2 blocksBucket = true).
  { rewrite (boltFacts.Put_hasBucket _ _ _ _ _ _ Hput1). exact Hb1. }
  destruct (boltFacts.Put_succeeds tx2 blocksBucket tipKey
              (DocBytes (Header.Hash (Block.Header genesis)))
              Hb2 Htk Htlen) as [tx3 Hput2].
  rewrite Hput2. cbn. eauto.
Qed.

(** X9. [InitBlockchain] succeeds exactly when the store has no blocks
    bucket yet and the hash of the genesis block is a key bolt accepts.
    It then returns that hash, which [GetTip] reads back, and changes no
    other bucket; when it fails it returns a nil tip and leaves the store
    as it was. *)
Theorem InitBlockchain_succeeds_iff (db : boltTx) (genesis : Block.t) :
  (snd (snd (InitBlockchain db genesis)) = None
   <-> bolt.hasBucket db blocksBucket = false
       /\ validKey (Header.Hash (Block.Header genesis)))
  /\ (snd (snd (InitBlockchain db genesis)) = None ->
      fst (snd (InitBlockchain db genesis))
      = Header.Hash (Block.Header genesis)
      /\ GetTip (fst (InitBlockchain db genesis))
         = Some (DocBytes (Header.Hash (Block.Header genesis)))
      /\ forall name key, name <> blocksBucket ->
           bolt.Get (fst (InitBlockchain db genesis)) name key
           = bolt.Get db name key)
  /\ (snd (snd (InitBlockchain db genesis)) <> None ->
      fst (InitBlockchain db genesis) = db
      /\ fst (snd (InitBlockchain db genesis)) = []).
Proof.
  unfold InitBlockchain, bolt.Update.
  destruct (InitBlockchain_update genesis db) as [tip r] eqn:Hrun.
  assert (Hr : snd (InitBlockchain_update genesis db) = r)
    by (rewrite Hrun; reflexivity).
  assert (Ht : fst (InitBlockchain_update genesis db) = tip)
    by (rewrite Hrun; reflexivity).
  destruct r as [db'|e]; cbn [fst snd].
  - apply InitBlockchain_Ok in Hr as (Hb & Hv & Htip & Hget & _ & Hother).
    split; [split; auto|]. split; [|intros H; congruence].
    intros _. split; [congruence|]. split; [|exact Hother].
    unfold GetTip. rewrite (boltFacts.Get_Some_hasBucket _ _ _ _ Hget).
    exact Hget.
  - split; [split; [discriminate|]|].
    + intros [Hb Hv].
      destruct (InitBlockchain_update_succeeds db genesis Hb Hv) as [db' Hok].
      congruence.
    + split; [discriminate|]. intros _. split; [reflexivity|].
      unfold InitBlockchain_update in Hrun.
      destruct (rbind _ _); congruence.
Qed.

Lemma AddBlock_Ok_inv (db db' : boltTx) (block : Block.t) (tip : bytes) :
  AddBlock saveUTXOs db block = (db', (tip, None)) ->
  exists tx1,
    addBlock db block = Ok (tx1, tip)
    /\ AddBlock_loop saveUTXOs tx1 (Body.Transactions (Block.Body block))
       = Ok db'.
Proof.
  unfold AddBlock, AddBlock_update, bolt.Update. intros H.
  destruct (addBlock db block) as [[tx1 created]|err]; [|discriminate].
  destruct (AddBlock_loop saveUTXOs tx1 _) as [tx2|err] eqn:Hloop;
    [|discriminate].
  injection H as <- <-. exists tx1. split; [reflexivity|exact Hloop].
Qed.

Lemma InitBlockchain_Ok_inv (db db' : boltTx) (genesis : Block.t) (tip : bytes) :
  InitBlockchain db genesis = (db', (tip, None)) ->
  snd (InitBlockchain_update genesis db) = Ok db'.
Proof.
  unfold InitBlockchain, bolt.Update. intros H.
  destruct (InitBlockchain_update genesis db) as [t [tx1|e]];
    [|discriminate].
  injection H as <- _. reflexivity.
Qed.

Lemma InitBlockchain_bucket_exists (db : boltTx) (genesis : Block.t) :
  bolt.hasBucket db blocksBucket = true ->
  InitBlockchain db genesis
  = (db, ([], Some (Wrap (ErrExternal "bucket already exists")
                      "Failed to create blocks bucket"))).
Proof.
  intros Hb. unfold InitBlockchain, InitBlockchain_update, bolt.CreateBucket.
  rewrite Hb. reflexivity.
Qed.

(** X10. Once a chain exists, [InitBlockchain] refuses to start another:
    after a successful [AddBlock] or [InitBlockchain], every call of
    [InitBlockchain] fails on the existing blocks bucket, returns a nil
    tip and leaves the store as it is. *)
Theorem InitBlockchain_refuses_existing_chain
  (db db' : boltTx) (block genesis : Block.t) (tip : bytes) :
  AddBlock saveUTXOs db block = (db', (tip, None))
  \/ InitBlockchain db block = (db', (tip, None)) ->
  InitBlockchain db' genesis
  = (db', ([], Some (Wrap (ErrExternal "bucket already exists")
                       "Failed to create blocks bucket"))).
Proof.
  intros H. apply InitBlockchain_bucket_exists.
  destruct H as [H | H].
  - apply AddBlock_Ok_inv in H as (tx1 & Hadd & Hloop).
    apply addBlock_spec in Hadd as (_ & Htip & _).
    apply AddBlock_loop_spec in Hloop as (Hblocks & _).
    rewrite <- Hblocks in Htip.
    apply (boltFacts.Get_Some_hasBucket _ _ _ _ Htip).
  - apply InitBlockchain_Ok_inv, InitBlockchain_Ok in H
      as (_ & _ & _ & Htip & _).
    apply (boltFacts.Get_Some_hasBucket _ _ _ _ Htip).
Qed.

Lemma Fixture_voteBlock_added :
  AddBlock saveUTXOs Fixture.store Fixture.voteBlock
  = (fst (AddBlock saveUTXOs Fixture.store Fixture.voteBlock),
     (bytes_of_string "hash-1", None)).
Proof.
  assert (Hs : snd (AddBlock saveUTXOs Fixture.store Fixture.voteBlock)
               = (bytes_of_string "hash-1", None))
    by (vm_compute; reflexivity).
  rewrite <- Hs. apply surjective_pairing.
Defined.

Lemma InitBlockchain_refuses_existing_chain_witness :
  InitBlockchain (fst (AddBlock saveUTXOs Fixture.store Fixture.voteBlock))
    Fixture.forgedBlock
  = (fst (AddBlock saveUTXOs Fixture.store Fixture.voteBlock),
     ([], Some (Wrap (ErrExternal "bucket already exists")
                  "Failed to create blocks bucket"))).
Proof.
  exact (InitBlockchain_refuses_existing_chain _ _ _ Fixture.forgedBlock _
           (or_introl Fixture_voteBlock_added)).
Defined.

(** ** What [AddBlock] keeps *)

Lemma getTransactionUTXO_find (tx : boltTx) (transactionID : bytes) (vout : Z) :
  getTransactionUTXO tx transactionID vout
  = (utxos <- getUTXOByTransactionID tx transactionID;;
     Ok (List.find (fun u => UTXO.Vout u =? vout) utxos)).
Proof.
  unfold getTransactionUTXO, getUTXOByTransactionID.
  destruct (readUTXOs tx utxoByTxBucket transactionID) as [saved|e];
    cbn [rbind]; [|reflexivity].
  rewrite findVout_find. reflexivity.
Qed.

Lemma find_app_Some {A} (f : A -> bool) (l l' : list A) (x : A) :
  List.find f l = Some x -> List.find f (l ++ l') = Some x.
Proof.
  induction l as [|y l IH]; cbn; [discriminate|].
  destruct (f y); auto.
Qed.

Lemma readers_Get_eq (tx tx' : boltTx) :
  (forall name key,
     name <> transactionsBucket -> name <> blocksBucket ->
     bolt.Get tx' name key = bolt.Get tx name key) ->
  (forall key, getUTXOsByPublicKey tx' key = getUTXOsByPublicKey tx key)
  /\ (forall key, getUTXOByTransactionID tx' key = getUTXOByTransactionID tx key).
Proof.
  intros H. pose proof bucket_names_differ as (_ & Hep & Het & Hbp & Hbt & _).
  split; intros key; unfold getUTXOsByPublicKey, getUTXOByTransactionID;
    rewrite !readUTXOs_Get, H; auto.
Qed.

Lemma withKey_app (keyOf : UTXO.t -> bytes) (key : bytes) (l l' : UTXOs) :
  withKey keyOf key (l ++ l') = withKey keyOf key l ++ withKey keyOf key l'.
Proof. unfold withKey. apply List.filter_app. Qed.

Lemma AddBlock_loop_readers (transactions : list Transaction.t) :
  forall tx tx',
    AddBlock_loop saveUTXOs tx transactions = Ok tx' ->
    (forall key before,
       getUTXOsByPublicKey tx key = Ok before ->
       getUTXOsByPublicKey tx' key
       = Ok (before ++ withKey UTXO.PublicKeyHash key
                         (flat_map Transaction_UTXOs transactions)))
    /\ (forall key before,
          getUTXOByTransactionID tx key = Ok before ->
          getUTXOByTransactionID tx' key
          = Ok (before ++ withKey UTXO.TransactionID key
                            (flat_map Transaction_UTXOs transactions))).
Proof.
  pose proof bucket_names_differ as (_ & Hep & Het & _).
  induction transactions as [|t transactions IH]; intros tx tx' H;
    cbn [AddBlock_loop flat_map] in H |- *.
  - injection H as <-. split; intros key before Hb; rewrite app_nil_r; exact Hb.
  - apply rbind_Ok in H as (tx1 & Hdel & H).
    apply rbind_Ok in H as (tx2 & Hsave & H).
    apply deleteTransaction_spec in Hdel as (_ & _ & Hother1).
    destruct (readers_Get_eq tx tx1) as [HP1 HT1].
    { intros name key Hn _. apply Hother1, Hn. }
    pose proof (saveUTXOs_exact _ _ _ Hsave) as [Hp Ht].
    destruct (IH _ _ H) as [IHp IHt].
    split; intros key before Hb; rewrite withKey_app, app_assoc.
    + apply IHp. unfold getUTXOsByPublicKey in Hb |- *.
      apply (read_appended tx1 tx2).
      * rewrite Hp. destruct (withKey _ _ _); reflexivity.
      * fold (getUTXOsByPublicKey tx1 key). rewrite HP1. exact Hb.
    + apply IHt. unfold getUTXOByTransactionID in Hb |- *.
      apply (read_appended tx1 tx2).
      * rewrite Ht. destruct (withKey _ _ _); reflexivity.
      * fold (getUTXOByTransactionID tx1 key). rewrite HT1. exact Hb.
Qed.

(** X11. [AddBlock] consumes nothing: after a successful call each index
    returns, for every key, what it returned before followed by the UTXOs
    of the block's outputs with that key; a UTXO that
    [getTransactionUTXO] found before the call, the ones spent by the
    inputs of the block included, is still found; and the blocks stored
    under other keys are not touched. *)
Theorem AddBlock_consumes_nothing
  (db db' : boltTx) (block : Block.t) (tip : bytes) :
  AddBlock saveUTXOs db block = (db', (tip, None)) ->
  let created :=
    flat_map Transaction_UTXOs (Body.Transactions (Block.Body block)) in
  (forall key before,
     getUTXOsByPublicKey db key = Ok before ->
     getUTXOsByPublicKey db' key
     = Ok (before ++ withKey UTXO.PublicKeyHash key created))
  /\ (forall key before,
        getUTXOByTransactionID db key = Ok before ->
        getUTXOByTransactionID db' key
        = Ok (before ++ withKey UTXO.TransactionID key created))
  /\ (forall transactionID vout utxo,
        getTransactionUTXO db transactionID vout = Ok (Some utxo) ->
        getTransactionUTXO db' transactionID vout = Ok (Some utxo))
  /\ (forall key,
        key <> Header.Hash (Block.Header block) -> key <> tipKey ->
        bolt.Get db' blocksBucket key = bolt.Get db blocksBucket key).
Proof.
  intros H created. apply AddBlock_Ok_inv in H as (tx1 & Hadd & Hloop).
  pose proof bucket_names_differ as (_ & _ & _ & Hbp & Hbt & _).
  pose proof (AddBlock_loop_readers _ _ _ Hloop) as [Hp Ht].
  apply AddBlock_loop_spec in Hloop as (Hblocks & _).
  assert (Hother : forall name key, name <> blocksBucket ->
                     bolt.Get tx1 name key = bolt.Get db name key).
  { apply addBlock_spec in Hadd as (_ & _ & _ & Hother). exact Hother. }
  destruct (readers_Get_eq db tx1) as [HP1 HT1].
  { intros name key _ Hn. apply Hother, Hn. }
  assert (HtAll : forall key before,
             getUTXOByTransactionID db key = Ok before ->
             getUTXOByTransactionID db' key
             = Ok (before ++ withKey UTXO.TransactionID key created)).
  { intros key before Hb. apply Ht. rewrite HT1. exact Hb. }
  split; [|split; [exact HtAll|split]].
  - intros key before Hb. apply Hp. rewrite HP1. exact Hb.
  - intros id vout utxo Hfound. rewrite getTransactionUTXO_find in Hfound |- *.
    destruct (getUTXOByTransactionID db id) as [before|e] eqn:Hb;
      cbn [rbind] in Hfound; [|discriminate].
    rewrite (HtAll _ _ Hb). cbn [rbind]. injection Hfound as Hfound.
    rewrite (find_app_Some _ _ _ _ Hfound). reflexivity.
  - intros key Hk Htk. rewrite Hblocks.
    unfold addBlock in Hadd.
    apply rbind_Ok in Hadd as (t1 & Hopen & Hadd).
    apply rbind_Ok in Hadd as (t2 & Hput1 & Hadd).
    apply rbind_Ok in Hadd as (t3 & Hput2 & Hadd).
    injection Hadd as <- _. apply wrapErr_Ok in Hput1, Hput2.
    apply openBucket_Ok in Hopen as (_ & Hg & _).
    rewrite (boltFacts.Put_Get_other_key _ _ _ _ _ _ Hput2 Htk).
    rewrite (boltFacts.Put_Get_other_key _ _ _ _ _ _ Hput1 Hk).
    apply Hg.
Qed.

Lemma AddBlock_consumes_nothing_witness :
  AddBlock saveUTXOs Fixture.store Fixture.voteBlock
  = (fst (AddBlock saveUTXOs Fixture.store Fixture.voteBlock),
     (bytes_of_string "hash-1", None))
  /\ getTransactionUTXO
       (fst (AddBlock saveUTXOs Fixture.store Fixture.voteBlock))
       Fixture.txB 0
     = Ok (Some Fixture.spent).
Proof.
  split; [exact Fixture_voteBlock_added|].
  apply (proj1 (proj2 (proj2 (AddBlock_consumes_nothing _ _ _ _
                                 Fixture_voteBlock_added)))).
  vm_compute. reflexivity.
Defined.


(** ** The envelopes and the two base64 encodings *)

Module Base64RawFacts.
Import Base64.

Lemma raw_decodeFrom_sextet (val shift : N) rest dbuf dst :
  Base64Raw.decodeFrom (String (sextet val shift) rest) dbuf dst
  = if (length (dbuf ++ [Base64Facts.six val shift]) =? 4)%nat
    then Base64Raw.decodeFrom rest []
           (dst ++ quantumBytes (dbuf ++ [Base64Facts.six val shift]))
    else Base64Raw.decodeFrom rest (dbuf ++ [Base64Facts.six val shift]) dst.
Proof.
  cbn [Base64Raw.decodeFrom]. unfold sextet.
  fold (Base64Facts.six val shift).
  rewrite Base64Facts.decodeMap_encodeAt by apply Base64Facts.six_lt.
  reflexivity.
Qed.

Lemma mod3_SSS (n : nat) : (S (S (S n)) mod 3 = n mod 3)%nat.
Proof.
  replace (S (S (S n))) with (n + 1 * 3)%nat by lia. apply Nat.Div0.mod_add.
Qed.

(** The unpadded decoder on a padded encoding: it gives the bytes back
    when there is no padding, and reports an error at the padding
    otherwise. *)
Lemma raw_decodeFrom_EncodeToString (src : bytes) :
  forall dst,
    ((length src mod 3 = 0)%nat ->
     Base64Raw.decodeFrom (EncodeToString src) [] dst = (dst ++ src, false))
    /\ ((length src mod 3 <> 0)%nat ->
        snd (Base64Raw.decodeFrom (EncodeToString src) [] dst) = true).
Proof.
  induction src as [|b0|b0 b1|b0 b1 b2 rest IH] using Base64Facts.bytes_ind3;
    intros dst.
  - split; [|intros H; destruct H; reflexivity].
    intros _. cbn. rewrite app_nil_r. reflexivity.
  - split; [discriminate|]. intros _.
    cbn [EncodeToString string_of_chars fold_right].
    rewrite !raw_decodeFrom_sextet. reflexivity.
  - split; [discriminate|]. intros _.
    cbn [EncodeToString string_of_chars fold_right].
    rewrite !raw_decodeFrom_sextet. reflexivity.
  - cbn [length]. rewrite mod3_SSS. cbn [EncodeToString].
    rewrite !raw_decodeFrom_sextet. cbn [app length Nat.eqb].
    rewrite (Base64Facts.quantumBytes_4 b0 b1 b2)
      by apply Base64Facts.val3_arith.
    destruct (IH (dst ++ [b0; b1; b2])) as [IH0 IH1].
    split; [|exact IH1].
    intros H. rewrite (IH0 H), <- app_assoc. reflexivity.
Qed.

Lemma raw_DecodeString_EncodeToString (src : bytes) :
  Base64Raw.DecodeString (EncodeToString src)
  = (fst (Base64Raw.DecodeString (EncodeToString src)),
     negb (length src mod 3 =? 0)%nat)
  /\ ((length src mod 3 = 0)%nat ->
      Base64Raw.DecodeString (EncodeToString src) = (src, false)).
Proof.
  unfold Base64Raw.DecodeString.
  destruct (raw_decodeFrom_EncodeToString src []) as [H0 H1].
  destruct (Nat.eqb_spec (length src mod 3) 0) as [Hz | Hnz]; cbn [negb].
  - rewrite (H0 Hz). auto.
  - rewrite <- (H1 Hnz). split; [apply surjective_pairing|]. intros Hz.
    destruct (Hnz Hz).
Qed.

End Base64RawFacts.

Example Base64Raw_padding :
  Base64Raw.DecodeString "aGVsbG8" = (bytes_of_string "hello", false)
  /\ Base64Raw.DecodeString "aGVsbG8=" = (bytes_of_string "hel", true).
Proof. split; vm_compute; reflexivity. Qed.

(** X14. [Ping.Verified] reads the signature without padding.  When the
    sender and the signature of a ping are written with [StdEncoding],
    as [operations.Register] writes them, a signature whose length is
    not a multiple of three is refused whatever [wallet.Verify] says;
    for the other lengths the answer is that of [wallet.Verify] on the
    ping, the signature and the key of the sender. *)
Theorem Ping_Verified_of_padded_signature
  (wallet_Verify : Ping.t -> bytes -> bytes -> bool)
  (p : Ping.t) (key signature : bytes) :
  Ping.Sender p = Base64.EncodeToString key ->
  Ping.Signature p = Base64.EncodeToString signature ->
  Ping_Verified wallet_Verify p
  = (length signature mod 3 =? 0)%nat && wallet_Verify p signature key.
Proof.
  intros Hsender Hsig. unfold Ping_Verified.
  rewrite Hsender, Base64Facts.DecodeString_EncodeToString, Hsig.
  destruct (Base64RawFacts.raw_DecodeString_EncodeToString signature) as [He H0].
  destruct (Nat.eqb_spec (length signature mod 3) 0) as [Hz | Hnz].
  - rewrite (H0 Hz). reflexivity.
  - rewrite He. reflexivity.
Qed.

Lemma Ping_Verified_of_padded_signature_witness :
  Ping_Verified (fun _ _ _ => true)
    (Ping.mk RegisterMessage None
       (Base64.EncodeToString (bytes_of_string "sign"))
       (Base64.EncodeToString Fixture.alice))
  = false.
Proof.
  exact (Ping_Verified_of_padded_signature (fun _ _ _ => true)
           (Ping.mk RegisterMessage None
              (Base64.EncodeToString (bytes_of_string "sign"))
              (Base64.EncodeToString Fixture.alice))
           Fixture.alice (bytes_of_string "sign") eq_refl eq_refl).
Defined.

(** X15. [BlockchainAuthorizer] reads both fields with [StdEncoding]: a
    request whose sender and signature are written with it is never
    refused as an invalid key or an invalid signature, and it is
    authorized exactly when [wallet.Verify] accepts the signature, the
    key can be hashed and [findBlock] reports, without error, a block
    found for the criteria of the hashed key. *)
Theorem BlockchainAuthorizer_of_encoded_request
  (wallet_Verify : Request.t -> bytes -> bytes -> bool)
  (HashedPublicKey : bytes -> result bytes)
  (FindTransactionTo : list Transaction.t -> bytes -> option Transaction.t)
  (findBlock : (Block.t -> bool) -> option Block.t * bool * option error)
  (request : Request.t) (key signature : bytes) :
  Request.Sender request = Base64.EncodeToString key ->
  Request.Signature request = Base64.EncodeToString signature ->
  let authorize :=
    BlockchainAuthorizer wallet_Verify HashedPublicKey FindTransactionTo
      findBlock in
  (authorize request = None
   <-> wallet_Verify request signature key = true
       /\ exists hashed found,
            HashedPublicKey key = Ok hashed
            /\ findBlock (paysTo FindTransactionTo hashed)
               = (found, true, None))
  /\ authorize request <> Some (ErrUnauthorized "Invalid public key")
  /\ authorize request <> Some (ErrUnauthorized "Invalid signature").
Proof.
  intros Hsender Hsig authorize. subst authorize. unfold BlockchainAuthorizer.
  rewrite Hsender, Hsig, !Base64Facts.DecodeString_EncodeToString.
  destruct (wallet_Verify request signature key); cbn [negb].
  2:{ split; [|split; discriminate].
      split; [discriminate|]. intros [H _]. discriminate. }
  destruct (HashedPublicKey key) as [hashed|err].
  2:{ split; [|split; discriminate].
      split; [discriminate|]. intros (_ & h & f & H & _). discriminate. }
  destruct (findBlock (paysTo FindTransactionTo hashed))
    as [[found ok] [err|]] eqn:Hfind; cbv beta iota.
  - split; [|split; destruct ok; discriminate].
    split; [destruct ok; discriminate|]. intros (_ & h & f & [= <-] & H).
    rewrite Hfind in H. discriminate.
  - destruct ok.
    + split; [|split; discriminate].
      split; [|reflexivity]. intros _. split; [reflexivity|].
      exists hashed, found. split; [reflexivity|exact Hfind].
    + split; [|split; discriminate].
      split; [discriminate|]. intros (_ & h & f & [= <-] & H).
      rewrite Hfind in H. discriminate.
Qed.

Lemma BlockchainAuthorizer_of_encoded_request_witness :
  BlockchainAuthorizer (fun _ _ _ => true) (fun key => Ok key)
    (fun _ _ => None) (fun _ => (None, true, None))
    (Request.mk (Base64.EncodeToString Fixture.alice)
       (Base64.EncodeToString (bytes_of_string "sign")))
  = None.
Proof.
  apply (proj1 (BlockchainAuthorizer_of_encoded_request
                  (fun _ _ _ => true) (fun key => Ok key)
                  (fun _ _ => None) (fun _ => (None, true, None))
                  (Request.mk (Base64.EncodeToString Fixture.alice)
                     (Base64.EncodeToString (bytes_of_string "sign")))
                  Fixture.alice (bytes_of_string "sign") eq_refl eq_refl)).
  split; [reflexivity|].
  exists Fixture.alice, None. split; reflexivity.
Defined.

(** X19. [Pong.Signed] signs what it returns: on success the signature
    of the returned pong is the one the signer gave for a pong with the
    same signable fields, its sender is the verifier of the signer, and
    message and body are those of the pong it was called on; the sender
    that pong had plays no part.  On failure the pong comes back with
    the sender set and its old signature. *)
Theorem Pong_Signed_signs_what_it_returns
  (signer_Verifier : string) (signer_Sign : Pong.t -> result string)
  (p : Pong.t) :
  let signed := Pong_Signed signer_Verifier signer_Sign p in
  Pong.Sender (fst signed) = signer_Verifier
  /\ Pong.Message (fst signed) = Pong.Message p
  /\ Pong.Body (fst signed) = Pong.Body p
  /\ (exists handed,
        signablePong handed = signablePong (fst signed)
        /\ match signer_Sign handed with
           | Ok signature =>
               snd signed = None /\ Pong.Signature (fst signed) = signature
           | Err err =>
               snd signed = Some (Wrap err "Failed to sign pong %#v")
               /\ Pong.Signature (fst signed) = Pong.Signature p
           end)
  /\ (forall sender,
        Pong_Signed signer_Verifier signer_Sign
          (Pong.mk (Pong.Message p) (Pong.Body p) (Pong.Signature p) sender)
        = signed).
Proof.
  intros signed. subst signed. unfold Pong_Signed. cbn [Pong.Message Pong.Body
    Pong.Signature Pong.Sender].
  destruct (signer_Sign _) as [signature|err] eqn:Hsign; cbn [fst snd Pong.Sender
    Pong.Message Pong.Body Pong.Signature].
  - split; [reflexivity|]. split; [reflexivity|]. split; [reflexivity|].
    split; [|reflexivity].
    eexists. split; [|rewrite Hsign; split; reflexivity]. reflexivity.
  - split; [reflexivity|]. split; [reflexivity|]. split; [reflexivity|].
    split; [|reflexivity].
    eexists. split; [|rewrite Hsign; split; reflexivity]. reflexivity.
Qed.

Lemma decimal_inj (m m' : Z) : json.decimal m = json.decimal m' -> m = m'.
Proof.
  unfold json.decimal. intros H. apply DecimalZ.to_int_inj.
  assert (Hs : Some (Z.to_int m) = Some (Z.to_int m'))
    by (rewrite <- !NilEmpty.isi, H; reflexivity).
  injection Hs as Hs. exact Hs.
Qed.

(** X20. [Message.String] names the messages apart: two messages with
    the same name are the same message, the unknown ones included. *)
Theorem Message_String_inj (m m' : Z) :
  Message_String m = Message_String m' -> m = m'.
Proof.
  intros H. unfold Message_String in H.
  repeat match type of H with
         | context [if ?a =? ?b then _ else _] =>
             destruct (Z.eqb_spec a b); [subst|]
         end;
    try reflexivity; try discriminate H.
  unfold unknownMessage in H. cbn [append] in H.
  injection H as H. apply decimal_inj, H.
Qed.

Lemma Message_String_inj_witness :
  RegisterMessage = 5.
Proof.
  exact (Message_String_inj RegisterMessage 5 eq_refl).
Defined.


(** ** Base transactions *)

(** X18. A transaction made by [NewBaseTransaction] is a base
    transaction with the zero timestamp; it yields one UTXO, of
    [VoteValue] for the recipient at [Vout] 0, and its ID is the one
    [NewTransaction] computes for its inputs and outputs.
    [VerifyTransactions] accepts it only if the recipient is not the
    creator and a UTXO is found for the empty transaction ID at [Vout]
    -1; over the repository that takes a list stored under the empty
    key of the by-tx index. *)
Theorem NewBaseTransaction_is_base
  (digest : Digest) (ExtractPublicKeyHash : string -> bytes)
  (Sign : signable.t -> result bytes)
  (creator : Wallet.t) (recipientAddress : string) (tr : Transaction.t) :
  NewBaseTransaction ExtractPublicKeyHash Sign creator recipientAddress
  = Ok tr ->
  IsBase tr = true
  /\ Transaction.Timestamp tr = 0
  /\ Transaction_UTXOs tr
     = [UTXO.mk (Transaction.ID tr) (ExtractPublicKeyHash recipientAddress)
          VoteValue 0]
  /\ (forall now,
        result_map Transaction.ID
          (NewTransaction now (Transaction.Inputs tr) (Transaction.Outputs tr))
        = Ok (Transaction.ID tr))
  /\ (forall getTransactionUTXO verifier,
        VerifyTransactions getTransactionUTXO verifier tr = true ->
        ExtractPublicKeyHash recipientAddress <> Wallet.PublicKeyHash creator
        /\ exists utxo, getTransactionUTXO [] (-1) = Ok (Some utxo))
  /\ (forall db verifier,
        bolt.Get db utxoByTxBucket [] = None ->
        VerifyTransactions (getTransactionUTXO db) verifier tr = false).
Proof.
  unfold NewBaseTransaction. intros H.
  destruct (Sign _) as [signature|err]; [|discriminate].
  destruct (newID _ _) as [id|err] eqn:Hid; [|discriminate].
  injection H as <-.
  split; [reflexivity|]. split; [reflexivity|]. split; [reflexivity|].
  split.
  { intros now. unfold NewTransaction.
    cbn [Transaction.Inputs Transaction.Outputs Transaction.ID].
    rewrite Hid. reflexivity. }
  assert (Hverify : forall getTransactionUTXO verifier,
             VerifyTransactions getTransactionUTXO verifier
               (Transaction.mk id
                  [Input.mk [] (-1) (Wallet.PublicKeyHash creator) signature
                     (Wallet.PublicKey creator)]
                  [Output.mk VoteValue (ExtractPublicKeyHash recipientAddress)]
                  0) = true ->
             ExtractPublicKeyHash recipientAddress
             <> Wallet.PublicKeyHash creator
             /\ exists utxo, getTransactionUTXO [] (-1) = Ok (Some utxo)).
  { intros get verifier. unfold VerifyTransactions.
    cbn [Transaction.Inputs verifyInputs]. unfold verifyInput.
    cbn [Transaction.Outputs Outputs_Find Output.PublicKeyHash
         Input.PublicKeyHash Input.TransactionID Input.Vout].
    destruct (bytes_differ _ _) eqn:Hdiff; cbn [negb]; [|discriminate].
    apply bytes_differ_true in Hdiff.
    destruct (get [] (-1)) as [[utxo|]|err]; try discriminate.
    intros _. eauto. }
  split; [exact Hverify|].
  intros db verifier Hnone.
  destruct (VerifyTransactions _ _ _) eqn:Hv; [|reflexivity].
  apply Hverify in Hv as (_ & utxo & Hfound).
  unfold getTransactionUTXO in Hfound. rewrite readUTXOs_Get, Hnone in Hfound.
  discriminate.
Qed.

Lemma NewBaseTransaction_is_base_witness :
  IsBase
    (Transaction.mk [x53; x2a; x7c; x2b]
       [Input.mk [] (-1) Fixture.alice (Fixture.alice ++ Fixture.bob)
          (Wallet.PublicKey Fixture.master)]
       [Output.mk VoteValue Fixture.bob] 0)
  = true.
Proof.
  refine (proj1 (NewBaseTransaction_is_base Fixture.digest bytes_of_string
                   (@SignRaw Fixture.signer) Fixture.master "bob"
                   (Transaction.mk [x53; x2a; x7c; x2b]
                      [Input.mk [] (-1) Fixture.alice
                         (Fixture.alice ++ Fixture.bob)
                         (Wallet.PublicKey Fixture.master)]
                      [Output.mk VoteValue Fixture.bob] 0) _)).
  vm_compute. reflexivity.
Defined.


(** ** Stake transactions under [VerifyTransactions] *)

Lemma NewStakeTransaction_Ok_shape
  (digest : Digest) (signer : Signer) (getUTXOs : GetUTXOsByPublicKeyFn)
  (stakeCreator : Wallet.t) (stakeholder : bytes) (now : Z)
  (utxos : UTXOs) (tr : Transaction.t) :
  getUTXOs (Wallet.PublicKeyHash stakeCreator) = Ok utxos ->
  NewStakeTransaction getUTXOs stakeCreator stakeholder now = Ok tr ->
  exists consumed rest value change,
    utxos = consumed ++ rest
    /\ consumed <> []
    /\ Forall2 (stakeInputOf stakeCreator stakeholder) consumed
         (Transaction.Inputs tr)
    /\ Transaction.Outputs tr = Output.mk value stakeholder :: change
    /\ Forall (fun o => Output.PublicKeyHash o
                        = Wallet.PublicKeyHash stakeCreator) change.
Proof.
  intros Hget. unfold NewStakeTransaction. rewrite Hget.
  destruct (_ <? _) eqn:Hlow; [discriminate|].
  destruct (stakeInputs _ _ _ _ _ _) as [[sum inputs]|err] eqn:Hloop;
    [|discriminate].
  apply stakeInputs_Ok in Hloop
    as (consumed & rest & news & Hutxos & _ & Hinputs & Hall & Hstop & _).
  cbn [app] in Hinputs. subst inputs.
  assert (Hne : consumed <> []).
  { destruct Hstop as [-> | [Hne _]]; [|exact Hne].
    rewrite app_nil_r in Hutxos. subst consumed. intros ->.
    vm_compute in Hlow. discriminate. }
  unfold NewTransaction. destruct (newID _ _) as [id|err]; [|discriminate].
  intros [= <-]. cbn [Transaction.Inputs Transaction.Outputs].
  exists consumed, rest. destruct (sum >? _); cbn [app]; eauto 10.
Qed.

Lemma verifyInputs_Forall getTransactionUTXO verifier transaction inputs :
  verifyInputs getTransactionUTXO verifier transaction inputs = true
  <-> Forall (fun input =>
                verifyInput getTransactionUTXO verifier transaction input
                = true) inputs.
Proof.
  induction inputs as [|input inputs IH]; cbn [verifyInputs].
  - split; [constructor | reflexivity].
  - rewrite Forall_cons, <- IH.
    destruct (verifyInput _ _ _ _); [tauto|].
    split; [discriminate | intros [[=] _]].
Qed.

(** X21. A stake transaction and the verifier.  A transaction
    [NewStakeTransaction] returns is refused by [VerifyTransactions] when
    the stakeholder is the stake creator, since no output then pays
    anybody else.  For another stakeholder it is accepted as soon as
    every UTXO of the creator is found under its transaction ID and
    [Vout] with the value it was listed with, and the verifier accepts,
    for the creator's key, what the signer signed. *)
Theorem NewStakeTransaction_under_VerifyTransactions
  (digest : Digest) (signer : Signer) (getUTXOs : GetUTXOsByPublicKeyFn)
  (getTransactionUTXO : GetTransactionUTXO) (verifier : VerifierFn)
  (stakeCreator : Wallet.t) (stakeholder : bytes) (now : Z)
  (utxos : UTXOs) (tr : Transaction.t) :
  getUTXOs (Wallet.PublicKeyHash stakeCreator) = Ok utxos ->
  NewStakeTransaction getUTXOs stakeCreator stakeholder now = Ok tr ->
  (stakeholder = Wallet.PublicKeyHash stakeCreator ->
   VerifyTransactions getTransactionUTXO verifier tr = false)
  /\ (stakeholder <> Wallet.PublicKeyHash stakeCreator ->
      (forall u, In u utxos ->
         exists found,
           getTransactionUTXO (UTXO.TransactionID u) (UTXO.Vout u)
           = Ok (Some found)
           /\ UTXO.Value found = UTXO.Value u) ->
      (forall s signature,
         SignRaw s = Ok signature ->
         verifier s (Base64.EncodeToString signature)
           (Base64.EncodeToString (Wallet.PublicKey stakeCreator))
         = (true, None)) ->
      VerifyTransactions getTransactionUTXO verifier tr = true).
Proof.
  intros Hget Htr.
  destruct (NewStakeTransaction_Ok_shape _ _ _ _ _ _ _ _ Hget Htr)
    as (consumed & rest & value & change & Hutxos & Hne & Hall & Houts & Hchange).
  unfold VerifyTransactions. split.
  - intros Hself.
    destruct Hall as [|u input consumed' inputs' (signature & _ & Hinput) _];
      [congruence|].
    cbn [verifyInputs]. unfold verifyInput. rewrite Houts.
    assert (Hnone : forall outs,
               Forall (fun o => Output.PublicKeyHash o
                                = Input.PublicKeyHash input) outs ->
               snd (Outputs_Find outs
                      (fun o => bytes_differ (Output.PublicKeyHash o)
                                  (Input.PublicKeyHash input))) = false).
    { induction 1 as [|o outs Ho _ IH]; [reflexivity|].
      cbn [Outputs_Find]. apply bytes_differ_false in Ho. rewrite Ho.
      exact IH. }
    specialize (Hnone (Output.mk value stakeholder :: change)).
    destruct (Outputs_Find _ _) as [receiver found]. cbn [snd] in Hnone.
    rewrite Hnone; [reflexivity|].
    subst input. cbn [Input.PublicKeyHash]. constructor; [exact Hself|].
    exact Hchange.
  - intros Hother Hfound Hverifier. apply verifyInputs_Forall.
    assert (Hin : forall u, In u consumed -> In u utxos)
      by (intros u Hu; subst utxos; apply in_or_app; left; exact Hu).
    clear Hutxos Hne. induction Hall as [|u input consumed' inputs' Hu _ IH];
      constructor.
    + destruct Hu as (signature & Hsign & ->).
      unfold verifyInput. rewrite Houts.
      cbn [Outputs_Find Output.PublicKeyHash Input.PublicKeyHash
           Input.TransactionID Input.Vout Input.Signature Input.Verifier].
      apply bytes_differ_true in Hother. rewrite Hother. cbn [negb].
      destruct (Hfound u (Hin u (or_introl eq_refl)))
        as (found & -> & Hvalue).
      cbv beta iota zeta.
      cbn [Output.PublicKeyHash Input.PublicKeyHash Input.Signature
           Input.Verifier].
      rewrite Hvalue, (Hverifier _ _ Hsign). reflexivity.
    + apply IH. intros u' Hu'. apply Hin. right. exact Hu'.
Qed.

Lemma NewStakeTransaction_under_VerifyTransactions_witness :
  VerifyTransactions (getTransactionUTXO Fixture.store) Fixture.verifier
    (getOk (Transaction.mk [] [] [] 0)
       (@NewStakeTransaction Fixture.digest Fixture.signer
          Fixture.getMasterUTXOs Fixture.master Fixture.bob 1700000000))
  = true.
Proof.
  assert (Htr : @NewStakeTransaction Fixture.digest Fixture.signer
                   Fixture.getMasterUTXOs Fixture.master Fixture.bob 1700000000
                 = Ok (getOk (Transaction.mk [] [] [] 0)
                         (@NewStakeTransaction Fixture.digest Fixture.signer
                            Fixture.getMasterUTXOs Fixture.master Fixture.bob
                            1700000000)))
    by (apply isOk_getOk; vm_compute; reflexivity).
  apply (proj2 (NewStakeTransaction_under_VerifyTransactions
                  Fixture.digest Fixture.signer Fixture.getMasterUTXOs
                  (getTransactionUTXO Fixture.store) Fixture.verifier
                  Fixture.master Fixture.bob 1700000000 Fixture.masterUTXOs
                  _ eq_refl Htr)).
  - vm_compute. discriminate.
  - intros u [<- | [<- | [<- | []]]]; eexists; split;
      try (vm_compute; reflexivity); reflexivity.
  - intros s signature [= <-]. unfold Fixture.verifier.
    rewrite String.eqb_refl. reflexivity.
Defined.

(** ** [CastVote]: when the vote is cast *)

Lemma saveTransaction_succeeds (tx : boltTx) (transaction : Transaction.t) :
  validKey (Transaction.ID transaction) ->
  exists tx',
    saveTransaction tx transaction = Ok tx'
    /\ forall name key, name <> transactionsBucket ->
         bolt.Get tx' name key = bolt.Get tx name key.
Proof.
  intros [Hk Hlen]. unfold saveTransaction.
  pose proof bucket_names_nonempty as (_ & _ & Hne & _).
  destruct (openBucket_succeeds tx transactionsBucket
              "Failed to create bucket %s" Hne) as [tx1 Hopen].
  rewrite Hopen. cbn [rbind].
  apply openBucket_Ok in Hopen as (Hb & Hg & _).
  destruct (boltFacts.Put_succeeds tx1 transactionsBucket
              (Transaction.ID transaction) (DocTX (newTX transaction))
              Hb Hk Hlen) as [tx2 Hput].
  rewrite Hput. exists tx2. split; [reflexivity|].
  intros name key Hname.
  rewrite (boltFacts.Put_Get_other_bucket _ _ _ _ _ _ _ Hput Hname). apply Hg.
Qed.

Lemma saveUTXOs_succeeds (tx : boltTx) (utxos : UTXOs) :
  Forall (fun u => validKey (UTXO.PublicKeyHash u)
                   /\ holdsUTXOs tx utxoByPublicKeyBucket
                        (UTXO.PublicKeyHash u)) utxos ->
  Forall (fun u => validKey (UTXO.TransactionID u)
                   /\ holdsUTXOs tx utxoByTxBucket (UTXO.TransactionID u))
    utxos ->
  exists tx', saveUTXOs tx utxos = Ok tx'.
Proof.
  intros HP HT.
  pose proof bucket_names_nonempty as (HnP & HnT & _).
  pose proof bucket_names_differ as (Hne & _).
  unfold saveUTXOs, saveUTXOsByPublicKey, saveUTXOsByTransactionID.
  destruct (openBucket_succeeds tx utxoByPublicKeyBucket
              "Failed to create bucket %s" HnP) as [tx1 Ho1].
  rewrite Ho1. cbn [rbind]. rewrite saveUTXOsByPublicKey_loop_appendEach.
  apply openBucket_Ok in Ho1 as (Hb1 & Hg1 & _).
  destruct (appendEach utxoByPublicKeyBucket UTXO.PublicKeyHash
              "Failed to save utxo set for %x" tx1 utxos) as [tx2|e] eqn:H1.
  2:{ exfalso.
      assert (Hok : isOk (appendEach utxoByPublicKeyBucket UTXO.PublicKeyHash
                            "Failed to save utxo set for %x" tx1 utxos) = true).
      { apply (appendEach_Ok_iff _ _ _ utxos tx1 Hb1).
        eapply Forall_impl; [exact HP|]. cbn. intros u [Hv Hh].
        split; [exact Hv|].
        apply (holdsUTXOs_Get_eq tx tx1 _ _ (Hg1 _ _)), Hh. }
      rewrite H1 in Hok. discriminate. }
  cbn [wrapErr rbind].
  destruct (openBucket_succeeds tx2 utxoByTxBucket
              "Failed to create bucket %s" HnT) as [tx3 Ho2].
  rewrite Ho2. cbn [rbind]. rewrite saveUTXOsByTransactionID_loop_appendEach.
  apply openBucket_Ok in Ho2 as (Hb2 & Hg2 & _).
  apply appendEach_spec in H1 as (Hother1 & _).
  destruct (appendEach utxoByTxBucket UTXO.TransactionID
              "Failed to save utxo set for tx id %x" tx3 utxos)
    as [tx4|e] eqn:H2; [cbn; eauto|].
  exfalso.
  assert (Hok : isOk (appendEach utxoByTxBucket UTXO.TransactionID
                        "Failed to save utxo set for tx id %x" tx3 utxos)
                = true).
  { apply (appendEach_Ok_iff _ _ _ utxos tx3 Hb2).
    eapply Forall_impl; [exact HT|]. cbn. intros u [Hv Hh].
    split; [exact Hv|].
    apply (holdsUTXOs_Get_eq tx tx3); [|exact Hh].
    rewrite Hg2, (Hother1 _ _ Hne), Hg1. reflexivity. }
  rewrite H2 in Hok. discriminate.
Qed.

Lemma UTXOs_from_Forall (P : UTXO.t -> Prop) (id : bytes) (outs : Outputs) :
  (forall out i, In out outs ->
     P (UTXO.mk id (Output.PublicKeyHash out) (Output.Value out) i)) ->
  forall i, Forall P (UTXOs_from id i outs).
Proof.
  induction outs as [|out outs IH]; intros H i; cbn [UTXOs_from];
    constructor.
  - apply H. left. reflexivity.
  - apply IH. intros out' j Hin. apply H. right. exact Hin.
Qed.

(** C5. [CastVote] fails with [InsufficientVotes] exactly when the
    lookup finds no UTXO for [from].  Otherwise it spends the first UTXO
    of [from]: a call that succeeds has built and saved the transaction
    with one input, which references that UTXO, an output of value 1 to
    [to] and, exactly when the UTXO is worth more than 1, a second output
    of the value less 1 back to [from].  And the call does succeed, with
    that transaction in the mempool and the vote among the UTXOs of [to],
    as soon as the inputs and outputs can be encoded, the helper
    [overwriteUTXOs] returns without error, the ID and the recipients of
    the outputs are keys bolt accepts and the indices hold lists of UTXOs
    under them. *)
Theorem CastVote_casts_vote
  (digest : Digest)
  (getUTXOs : boltTx -> bytes -> result UTXOs)
  (overwriteUTXOs : boltTx -> bytes -> UTXOs -> result boltTx)
  (db : boltTx) (now : Z) (from to signature : bytes) :
  (snd (CastVote getUTXOs overwriteUTXOs db now from to signature)
   = Some ErrInsufficientVotes
   <-> getUTXOs db from = Ok [])
  /\ forall usedUTXO others,
       getUTXOs db from = Ok (usedUTXO :: others) ->
       GoInt.in_range (UTXO.Value usedUTXO) ->
       let inputs := [Input.mk (UTXO.TransactionID usedUTXO)
                        (UTXO.Vout usedUTXO) from signature []] in
       let outputs := Output.mk 1 to
                      :: (if 1 <? UTXO.Value usedUTXO
                          then [Output.mk (UTXO.Value usedUTXO - 1) from]
                          else []) in
       (forall db',
          CastVote getUTXOs overwriteUTXOs db now from to signature
          = (db', None) ->
          exists tr,
            NewTransaction now inputs outputs = Ok tr
            /\ Transaction.Inputs tr = inputs
            /\ Transaction.Outputs tr = outputs
            /\ bolt.Get db' transactionsBucket (Transaction.ID tr)
               = Some (DocTX (newTX tr)))
       /\ forall raw tx1,
            json_Marshal (hashable.mk inputs outputs 0) = Ok raw ->
            overwriteUTXOs db (UTXO.PublicKeyHash usedUTXO) [usedUTXO]
            = Ok tx1 ->
            let id := sha256_Sum256 raw in
            validKey id ->
            holdsUTXOs tx1 utxoByTxBucket id ->
            Forall (fun out =>
                      validKey (Output.PublicKeyHash out)
                      /\ holdsUTXOs tx1 utxoByPublicKeyBucket
                           (Output.PublicKeyHash out)) outputs ->
            exists db',
              CastVote getUTXOs overwriteUTXOs db now from to signature
              = (db', None)
              /\ bolt.Get db' transactionsBucket id
                 = Some (DocTX (newTX (Transaction.mk id inputs outputs now)))
              /\ exists utxos,
                   getUTXOsByPublicKey db' to = Ok utxos
                   /\ In (UTXO.mk id to 1 0) utxos.
Proof.
  destruct (CastVote_spends_first_UTXO digest getUTXOs overwriteUTXOs db now
              from to signature) as [Hnone Hfirst].
  split; [exact Hnone|].
  intros usedUTXO others Hget Hrange inputs outputs.
  destruct (Hfirst usedUTXO others Hget Hrange) as [Heq Hsaved].
  split; [exact Hsaved|].
  intros raw tx1 Hraw Hover id Hid Hholds Houts.
  pose proof bucket_names_differ as (_ & Hep & Het & _).
  set (tr := Transaction.mk id inputs outputs now).
  assert (Hnew : NewTransaction now inputs outputs = Ok tr).
  { unfold NewTransaction, newID, hash. fold inputs outputs.
    rewrite Hraw. reflexivity. }
  destruct (saveTransaction_succeeds tx1 tr Hid) as (tx2 & Hsave & Hsame).
  assert (Hholds2 : forall name key,
             name <> transactionsBucket ->
             holdsUTXOs tx1 name key -> holdsUTXOs tx2 name key).
  { intros name key Hname Hh.
    apply (holdsUTXOs_Get_eq tx1 tx2 _ _ (Hsame _ _ Hname)), Hh. }
  destruct (saveUTXOs_succeeds tx2 (Transaction_UTXOs tr)) as [tx3 Hutxos].
  { apply UTXOs_from_Forall. intros out i Hin. cbn [UTXO.PublicKeyHash].
    rewrite List.Forall_forall in Houts. destruct (Houts out Hin) as [Hv Hh].
    split; [exact Hv|]. apply Hholds2; [congruence | exact Hh]. }
  { apply UTXOs_from_Forall. intros out i Hin. cbn [UTXO.TransactionID].
    split; [exact Hid|]. apply Hholds2; [congruence | exact Hholds]. }
  exists tx3. split; [|split].
  - unfold CastVote, bolt.Update. fold inputs outputs in Heq.
    rewrite Heq, Hnew. cbn [wrapErr rbind].
    rewrite Hover. cbn [wrapErr rbind]. rewrite Hsave. cbn [wrapErr rbind].
    rewrite Hutxos. reflexivity.
  - apply saveTransaction_spec in Hsave.
    apply saveUTXOs_spec in Hutxos as (_ & _ & Hother).
    rewrite (Hother _ _ Hep Het). exact Hsave.
  - apply saveUTXOs_spec in Hutxos as (Hnewutxos & _).
    apply (indexed_getUTXOsByPublicKey tx3 (UTXO.mk id to 1 0)).
    apply (Hnewutxos (UTXO.mk id to 1 0)). left. reflexivity.
Qed.

Lemma CastVote_casts_vote_witness :
  snd (@CastVote Fixture.digest Fixture.getUTXOs Fixture.overwriteUTXOs
         Fixture.store 1700000000 Fixture.alice Fixture.bob
         (Fixture.alice ++ Fixture.bob))
  = None.
Proof.
  pose proof (proj2 (CastVote_casts_vote Fixture.digest Fixture.getUTXOs
                       Fixture.overwriteUTXOs Fixture.store 1700000000
                       Fixture.alice Fixture.bob
                       (Fixture.alice ++ Fixture.bob))
                (UTXO.mk Fixture.txA Fixture.alice 6 0)
                [UTXO.mk Fixture.txA Fixture.alice 7 1; Fixture.spent])
    as Hfirst.
  cbv zeta in Hfirst.
  assert (Hget : Fixture.getUTXOs Fixture.store Fixture.alice
                 = Ok [UTXO.mk Fixture.txA Fixture.alice 6 0;
                       UTXO.mk Fixture.txA Fixture.alice 7 1; Fixture.spent])
    by (vm_compute; reflexivity).
  assert (Hrange : GoInt.in_range
                     (UTXO.Value (UTXO.mk Fixture.txA Fixture.alice 6 0)))
    by (unfold GoInt.in_range; cbn; lia).
  destruct (Hfirst Hget Hrange) as [_ Hcast].
  destruct (Hcast [x2a; x7c; x2b; x2b] Fixture.store eq_refl eq_refl)
    as (db' & Heq & _).
  - split; [discriminate | vm_compute; discriminate].
  - left. vm_compute. reflexivity.
  - assert (Hkey : forall key : bytes,
               key <> [] -> (length key <= 5)%nat -> validKey key).
    { intros key Hk Hlen. split; [exact Hk|]. unfold bolt.MaxKeySize. lia. }
    constructor; [|constructor; [|constructor]].
    + split; [apply Hkey; [discriminate | cbn; lia]|].
      left. vm_compute. reflexivity.
    + split; [apply Hkey; [discriminate | cbn; lia]|].
      right. eexists. vm_compute. reflexivity.
  - rewrite Heq. reflexivity.
Defined.
